(** * PdfPilot: violation detection and case aggregation

    A shallow embedding of the violation-detection and case-aggregation
    pipeline of PdfPilot ([violation_detector.py], [legal_analyzer.py],
    [case_manager.py], and the counting and searching functions of
    [report_generator.py] and [global_search.py]) together with the
    properties its specification states about it and further properties
    of the code.

    Conventions.
    - A Python [str] is a [string] whose characters are read as the code
      points U+0000..U+00FF.  On this range [str.lower] keeps the length;
      beyond it the lowered text can be longer.  The detector takes
      positions found in the lowered text and slices the original text
      with them, and the statements about positions name the text that
      each position belongs to.
    - A Python [dict] is an association list in insertion order with
      pairwise different keys; a Python [set] of strings is a [gset string].
    - Python integers are [Z]; the quotient of two integers, a float in
      Python, is the rational number it rounds.
    - The dict [case_data['entities']] is an object on a heap, and a case
      holds a reference to it: [dict.copy()] of a case shares it.  The
      other parts of a case are values, passed in and returned; the
      module [Shared] has the violation dicts as objects as well, for
      [add_document_to_case], which writes into them.
    - The events of a timeline hold datetimes when [generate_timeline]
      made them and strings after the case was saved and loaded; a
      timeline entry is of one kind or of the other.
    - A file of the directory [case_sessions] is known by its name; the
      file of a case is that of its id followed by '.json'.
    - A raised exception is [None].
    - The clock ([datetime.now()]) is an argument of the functions that
      read it.
    - The standard-library functions the code calls ([re.finditer],
      [datetime.strptime], [list.sort], [json.dump]/[json.load]) are
      modelled before the code that calls them. *)

From Stdlib Require Import ZArith NArith Ascii String List Bool Lia QArith
  DecimalString.
From stdpp Require Import base gmap strings list sorting.

Local Open Scope Z_scope.

(* ===================================================================== *)
(** * Characters and strings *)
(* ===================================================================== *)

Module Str.

(** [str.isspace] on one character (also the class [\s] and the
    characters removed by [str.strip()]). *)
Definition isspace (c : ascii) : bool :=
  let n := N_of_ascii c in
  ((9 <=? n) && (n <=? 13) || (28 <=? n) && (n <=? 32)
   || (n =? 133) || (n =? 160))%N.

Definition isdigit (c : ascii) : bool :=
  let n := N_of_ascii c in ((48 <=? n) && (n <=? 57))%N.

(** [str.lower] on one character: A-Z and the upper-case letters of
    U+00C0..U+00DE (all but the multiplication sign U+00D7). *)
Definition lower_char (c : ascii) : ascii :=
  let n := N_of_ascii c in
  if ((65 <=? n) && (n <=? 90)
      || (192 <=? n) && (n <=? 222) && negb (n =? 215))%N
  then ascii_of_N (n + 32) else c.

Fixpoint lower (s : string) : string :=
  match s with
  | EmptyString => EmptyString
  | String c s' => String (lower_char c) (lower s')
  end.

Definition len (s : string) : Z := Z.of_nat (String.length s).

Fixpoint take (n : nat) (s : string) : string :=
  match n, s with
  | S n', String c s' => String c (take n' s')
  | _, _ => EmptyString
  end.

Fixpoint drop (n : nat) (s : string) : string :=
  match n, s with
  | S n', String _ s' => drop n' s'
  | _, _ => s
  end.

(** [s[a:b]] for [0 <= a] and [0 <= b]. *)
Definition slice (a b : Z) (s : string) : string :=
  take (Z.to_nat (b - a)) (drop (Z.to_nat a) s).

Fixpoint lstrip (s : string) : string :=
  match s with
  | String c s' => if isspace c then lstrip s' else s
  | EmptyString => EmptyString
  end.

Fixpoint rstrip (s : string) : string :=
  match s with
  | String c s' =>
      match rstrip s' with
      | EmptyString => if isspace c then EmptyString else String c EmptyString
      | r => String c r
      end
  | EmptyString => EmptyString
  end.

Definition strip (s : string) : string := rstrip (lstrip s).

Fixpoint startswith (p s : string) : bool :=
  match p, s with
  | EmptyString, _ => true
  | String a p', String b s' => Ascii.eqb a b && startswith p' s'
  | String _ _, EmptyString => false
  end.

(** [sub in s]. *)
Fixpoint contains (sub s : string) : bool :=
  startswith sub s ||
  match s with
  | String _ s' => contains sub s'
  | EmptyString => false
  end.

(** [s.count(sub)] for a non-empty [sub]: occurrences counted from the
    left, without overlap.  [skip] is the number of characters still
    covered by the occurrence counted last. *)
Fixpoint count_from (sub s : string) (skip : nat) : Z :=
  match s with
  | EmptyString => 0
  | String _ s' =>
      match skip with
      | S k => count_from sub s' k
      | O => if startswith sub s
             then 1 + count_from sub s' (String.length sub - 1)
             else count_from sub s' 0
      end
  end.

Definition count (s sub : string) : Z := count_from sub s 0.

End Str.

(* ===================================================================== *)
(** * Dictionaries in insertion order *)
(* ===================================================================== *)

Module Dict.

Definition t (V : Type) : Type := list (string * V).

Section Ops.
Context {V : Type}.

Fixpoint get (d : t V) (k : string) : option V :=
  match d with
  | [] => None
  | (k', v) :: d' => if String.eqb k' k then Some v else get d' k
  end.

Definition mem (d : t V) (k : string) : bool :=
  match get d k with Some _ => true | None => false end.

(** [d[k] = v]: an existing key keeps its place. *)
Fixpoint set (d : t V) (k : string) (v : V) : t V :=
  match d with
  | [] => [(k, v)]
  | (k', v') :: d' =>
      if String.eqb k' k then (k', v) :: d' else (k', v') :: set d' k v
  end.

(** [d.update(e)]. *)
Definition update (d e : t V) : t V :=
  fold_left (fun acc kv => set acc (fst kv) (snd kv)) e d.

Definition keys (d : t V) : list string := map fst d.
Definition values (d : t V) : list V := map snd d.

Definition wf (d : t V) : Prop := NoDup (keys d).
End Ops.

End Dict.

(* ===================================================================== *)
(** * Regular expressions (the part of [re] the code uses) *)
(* ===================================================================== *)

Module Re.

Inductive charclass :=
| Space                       (* \s *)
| Digit                       (* \d *)
| Range (lo hi : ascii).      (* [lo-hi], used with digits only *)

Definition in_class (p : charclass) (c : ascii) : bool :=
  match p with
  | Space => Str.isspace c
  | Digit => Str.isdigit c
  | Range lo hi => ((N_of_ascii lo <=? N_of_ascii c)
                    && (N_of_ascii c <=? N_of_ascii hi))%N
  end.

Inductive regex :=
| Eps
| Chr (c : ascii)             (* a literal, compared under IGNORECASE *)
| Cls (p : charclass)
| Cat (r1 r2 : regex)
| Alt (r1 r2 : regex)         (* r1|r2, r1 tried first *)
| Opt (r : regex)             (* r?, greedy *)
| Plus (p : charclass)        (* p+, greedy *)
| Group (name : ascii) (r : regex).   (* (?P<name>r) *)

(** Captured groups, the most recent first. *)
Definition captures := list (ascii * string).

Section Match.
Context {R : Type}.

(** [p*] then the continuation: the longest run first, then shorter
    ones on backtracking. *)
Fixpoint star_class (p : charclass) (s : string)
    (k : string -> option R) : option R :=
  match s with
  | String c s' =>
      if in_class p c
      then match star_class p s' k with
           | Some r => Some r
           | None => k s
           end
      else k s
  | EmptyString => k s
  end.

(** The backtracking matcher: [k] is what remains to be matched, and
    the first way to succeed (in the engine's order of preference) is
    the answer. *)
Fixpoint rmatch (r : regex) (s : string) (cs : captures)
    (k : string -> captures -> option R) : option R :=
  match r with
  | Eps => k s cs
  | Chr c =>
      match s with
      | String x s' =>
          if Ascii.eqb (Str.lower_char x) (Str.lower_char c)
          then k s' cs else None
      | EmptyString => None
      end
  | Cls p =>
      match s with
      | String x s' => if in_class p x then k s' cs else None
      | EmptyString => None
      end
  | Cat r1 r2 => rmatch r1 s cs (fun s' cs' => rmatch r2 s' cs' k)
  | Alt r1 r2 =>
      match rmatch r1 s cs k with
      | Some x => Some x
      | None => rmatch r2 s cs k
      end
  | Opt r1 =>
      match rmatch r1 s cs k with
      | Some x => Some x
      | None => k s cs
      end
  | Plus p =>
      match s with
      | String x s' =>
          if in_class p x then star_class p s' (fun s'' => k s'' cs)
          else None
      | EmptyString => None
      end
  | Group name r1 =>
      rmatch r1 s cs (fun s' cs' =>
        k s' ((name, Str.take (String.length s - String.length s') s)
                :: cs'))
  end.
End Match.

(** [pattern.match(s)]: a match anchored at the start of [s]; the result
    is the rest of [s] after the match, and the groups. *)
Definition match_prefix (r : regex) (s : string)
    : option (string * captures) :=
  rmatch r s [] (fun s' cs => Some (s', cs)).

(** [re.finditer]: the matches from left to right without overlap, as
    (start, end) positions.  [skip] counts the characters still covered
    by the match found last.  An empty match lets the scan move one
    character on. *)
Fixpoint finditer_from (r : regex) (s : string) (pos : Z) (skip : nat)
    : list (Z * Z) :=
  match s with
  | EmptyString =>
      match skip, match_prefix r s with
      | O, Some _ => [(pos, pos)]
      | _, _ => []
      end
  | String _ s' =>
      match skip with
      | S k => finditer_from r s' (pos + 1) k
      | O =>
          match match_prefix r s with
          | Some (rest, _) =>
              let n := (String.length s - String.length rest)%nat in
              (pos, pos + Z.of_nat n)
                :: finditer_from r s' (pos + 1) (n - 1)
          | None => finditer_from r s' (pos + 1) 0
          end
      end
  end.

Definition finditer (r : regex) (s : string) : list (Z * Z) :=
  finditer_from r s 0 0.

(** ** [re.compile] for the pattern syntax of the violation tables

    Literal characters, [\s+], a postfix [?] on a literal, and a
    non-capturing optional group [(?:...)?] without nesting. *)

Inductive token :=
| TChr (c : ascii)
| TSpaces
| TOpen
| TCloseOpt
| TQuest.

Definition is_meta (c : ascii) : bool :=
  existsb (Ascii.eqb c)
    ["\"; "("; ")"; "["; "]"; "{"; "}"; "."; "*"; "+"; "|"; "^"; "$"; "?"]%char.

Fixpoint tokenize (s : string) : option (list token) :=
  match s with
  | EmptyString => Some []
  | String "\" (String "s" (String "+" s')) =>
      option_map (cons TSpaces) (tokenize s')
  | String "(" (String "?" (String ":" s')) =>
      option_map (cons TOpen) (tokenize s')
  | String ")" (String "?" s') =>
      option_map (cons TCloseOpt) (tokenize s')
  | String "?" s' => option_map (cons TQuest) (tokenize s')
  | String c s' =>
      if is_meta c then None else option_map (cons (TChr c)) (tokenize s')
  end.

(** The concatenation of a reversed list of pieces. *)
Definition cat_rev (rs : list regex) : regex :=
  fold_left (fun acc r => Cat r acc) rs Eps.

Definition opt_last (rs : list regex) : option (list regex) :=
  match rs with
  | r :: rs' => Some (Opt r :: rs')
  | [] => None
  end.

(** [outer] and [inner] are the pieces read so far, most recent first;
    [inner] is [Some _] inside a group. *)
Fixpoint build (ts : list token) (outer : list regex)
    (inner : option (list regex)) : option regex :=
  match ts with
  | [] => match inner with
          | None => Some (cat_rev outer)
          | Some _ => None
          end
  | t :: ts' =>
      let push r :=
        match inner with
        | None => build ts' (r :: outer) None
        | Some i => build ts' outer (Some (r :: i))
        end in
      match t with
      | TChr c => push (Chr c)
      | TSpaces => push (Plus Space)
      | TOpen =>
          match inner with
          | None => build ts' outer (Some [])
          | Some _ => None
          end
      | TCloseOpt =>
          match inner with
          | Some i => build ts' (Opt (cat_rev i) :: outer) None
          | None => None
          end
      | TQuest =>
          match inner with
          | None =>
              match opt_last outer with
              | Some o => build ts' o None
              | None => None
              end
          | Some i =>
              match opt_last i with
              | Some o => build ts' outer (Some o)
              | None => None
              end
          end
      end
  end.

Definition compile (pattern : string) : option regex :=
  match tokenize pattern with
  | Some ts => build ts [] None
  | None => None
  end.

End Re.

(* ===================================================================== *)
(** * [list.sort] with a key *)
(* ===================================================================== *)

(** [l.sort(key=key)] and [l.sort(key=key, reverse=True)] are stable: items
    with equal keys keep their order, also with [reverse=True].  The result
    of a stable sort does not depend on the algorithm; it is computed here by
    insertion. *)
Module PySort.
Section Sort.
Context {A : Type}.
(** [before y x]: [y] has to come strictly before [x]. *)
Context (before : A -> A -> bool).

(** [x] was in front of every item of [l] in the unsorted list: it
    passes the items that have to come strictly before it and
    stays in front of the rest. *)
Fixpoint insert (x : A) (l : list A) : list A :=
  match l with
  | [] => [x]
  | y :: l' => if before y x then y :: insert x l' else x :: l
  end.

Definition sort (l : list A) : list A := fold_right insert [] l.

(** [a] may stand in front of [b] in the result. *)
Definition in_order (a b : A) : Prop := before b a = false.
End Sort.

(** [l.sort(key=key)] for keys compared by [ltb]. *)
Definition sort_asc {A K : Type} (ltb : K -> K -> bool) (key : A -> K)
    (l : list A) : list A :=
  sort (fun y x => ltb (key y) (key x)) l.

(** [l.sort(key=key, reverse=True)]. *)
Definition sort_desc {A K : Type} (ltb : K -> K -> bool) (key : A -> K)
    (l : list A) : list A :=
  sort (fun y x => ltb (key x) (key y)) l.
End PySort.

(* ===================================================================== *)
(** * Violations *)
(* ===================================================================== *)

(** A violation is a dict; the keys that some producers leave out are
    optional fields. *)
Record Violation := {
  v_type : string;
  v_description : option string;
  v_severity : option string;
  v_context : option string;
  v_pattern_matched : option string;
  v_position : option (Z * Z);            (* 'start', 'end' *)
  v_severity_score : option Z;
  v_document_hash : option string;
  v_document_name : option string;
}.

(* ===================================================================== *)
(** * [datetime] *)
(* ===================================================================== *)

Module Datetime.

(** A naive [datetime.datetime]. *)
Record datetime := {
  year : Z; month : Z; day : Z;
  hour : Z; minute : Z; second : Z; microsecond : Z;
}.

#[global] Instance datetime_eq_dec : EqDecision datetime.
Proof. solve_decision. Defined.

(** A [datetime.timedelta], normalised as Python keeps it:
    [0 <= seconds < 86400] and [0 <= microseconds < 1000000]. *)
Record timedelta := {
  days : Z; seconds : Z; microseconds : Z;
}.

Definition is_leap (y : Z) : bool :=
  (y mod 4 =? 0) && (negb (y mod 100 =? 0) || (y mod 400 =? 0)).

Definition days_in_month (y m : Z) : Z :=
  if m =? 2 then (if is_leap y then 29 else 28)
  else if (m =? 4) || (m =? 6) || (m =? 9) || (m =? 11) then 30
  else 31.

Definition days_before_year (y : Z) : Z :=
  let y1 := y - 1 in y1 * 365 + y1 / 4 - y1 / 100 + y1 / 400.

(** The days of the year before the first day of month [m]. *)
Definition days_before_month (y m : Z) : Z :=
  fold_right Z.add 0
    (map (fun k => days_in_month y (Z.of_nat k)) (seq 1 (Z.to_nat m - 1))).

(** The check of the [date]/[datetime] constructor. *)
Definition valid_date (y m d : Z) : bool :=
  (1 <=? y) && (y <=? 9999) && (1 <=? m) && (m <=? 12)
  && (1 <=? d) && (d <=? days_in_month y m).

Definition valid (a : datetime) : bool :=
  valid_date (year a) (month a) (day a)
  && (0 <=? hour a) && (hour a <? 24)
  && (0 <=? minute a) && (minute a <? 60)
  && (0 <=? second a) && (second a <? 60)
  && (0 <=? microsecond a) && (microsecond a <? 1000000).

Definition toordinal (a : datetime) : Z :=
  days_before_year (year a) + days_before_month (year a) (month a) + day a.

Definition total_microseconds (a : datetime) : Z :=
  ((toordinal a * 24 + hour a) * 60 + minute a) * 60 * 1000000
  + second a * 1000000 + microsecond a.

(** [a - b]. *)
Definition sub (a b : datetime) : timedelta :=
  let us := total_microseconds a - total_microseconds b in
  {| days := us / 86400000000;
     seconds := (us mod 86400000000) / 1000000;
     microseconds := us mod 1000000 |}.

Definition fields (a : datetime) : list Z :=
  [year a; month a; day a; hour a; minute a; second a; microsecond a].

Fixpoint lex_ltb (xs ys : list Z) : bool :=
  match xs, ys with
  | x :: xs', y :: ys' => (x <? y) || ((x =? y) && lex_ltb xs' ys')
  | [], _ :: _ => true
  | _, [] => false
  end.

(** [a < b]: the fields compared in order. *)
Definition ltb (a b : datetime) : bool := lex_ltb (fields a) (fields b).

(** [datetime.min]. *)
Definition min : datetime :=
  {| year := 1; month := 1; day := 1;
     hour := 0; minute := 0; second := 0; microsecond := 0 |}.

(** [datetime(y, m, d)]. *)
Definition of_date (y m d : Z) : datetime :=
  {| year := y; month := m; day := d;
     hour := 0; minute := 0; second := 0; microsecond := 0 |}.

End Datetime.

(** [str(n)] for an integer. *)
Definition str_of_Z (n : Z) : string :=
  DecimalString.NilZero.string_of_int (Z.to_int n).

(** An entry of a case's timeline, as [generate_timeline] makes it. *)
Record TimelineEvent := {
  ev_date : option Datetime.datetime;
  ev_date_str : string;
  ev_document : string;
  ev_document_hash : string;
  ev_document_type : string;
  ev_context : string;
}.

(** An entry of the timeline of a case that was written to its file and
    read again: under 'date' it has the text that [json.dump] wrote for
    the datetime, which nothing turns into a datetime again, or [None]. *)
Record SavedEvent := {
  sev_date : option string;
  sev_date_str : string;
  sev_document : string;
  sev_document_hash : string;
  sev_document_type : string;
  sev_context : string;
}.

(** The timeline of the case in the session holds entries of the one sort
    or of the other: the case was built in this session, or it was
    loaded. *)
Inductive timeline_entry :=
| Generated (event : TimelineEvent)
| Reloaded (event : SavedEvent).

(** The value under the key 'date' of an entry. *)
Inductive pydate :=
| NoDate
| ADatetime (d : Datetime.datetime)
| AString (s : string).

Definition entry_date (entry : timeline_entry) : pydate :=
  match entry with
  | Generated event =>
      match ev_date event with Some d => ADatetime d | None => NoDate end
  | Reloaded event =>
      match sev_date event with Some s => AString s | None => NoDate end
  end.

Definition entry_document (entry : timeline_entry) : string :=
  match entry with
  | Generated event => ev_document event
  | Reloaded event => sev_document event
  end.

(** [bool(v)]: [None] and the empty string are false, a datetime is
    true. *)
Definition truthy (v : pydate) : bool :=
  match v with
  | NoDate => false
  | ADatetime _ => true
  | AString s => negb (String.eqb s "")
  end.

(** [a - b]; [None] is the [TypeError] of an operand that is no
    datetime. *)
Definition date_sub (a b : pydate) : option Datetime.timedelta :=
  match a, b with
  | ADatetime x, ADatetime y => Some (Datetime.sub x y)
  | _, _ => None
  end.

(** The record [analyze_timeline_violations] emits for a gap. *)
Record TimelineViolation := {
  tv_type : string;
  tv_severity : string;
  tv_severity_score : Z;
  tv_description : string;
  tv_context : string;
  tv_time_difference : Z;
  tv_events : list timeline_entry;
}.

(* ===================================================================== *)
(** * violation_detector.py *)
(* ===================================================================== *)

Module ViolationDetector.

Record PatternInfo := {
  patterns : list string;
  severity : string;
  description : string;
}.

Definition violation_patterns : Dict.t PatternInfo := [
  ("constitutional_violation",
   {| patterns := ["constitutional\s+violation";
                   "fourteenth\s+amendment\s+violation";
                   "due\s+process\s+violation";
                   "equal\s+protection\s+violation"];
      severity := "high";
      description := "Constitutional rights violation" |});
  ("removal_without_court_order",
   {| patterns := ["removed?\s+without\s+(?:court\s+)?order";
                   "emergency\s+removal\s+without\s+hearing";
                   "taken\s+into\s+custody\s+without\s+warrant"];
      severity := "high";
      description := "Child removed without proper court authorization" |});
  ("due_process_denial",
   {| patterns := ["denied\s+(?:due\s+)?process";
                   "no\s+notice\s+provided";
                   "insufficient\s+notice";
                   "ex\s+parte\s+proceeding"];
      severity := "high";
      description := "Due process rights denied" |});
  ("delayed_icpc",
   {| patterns := ["icpc\s+delay";
                   "interstate\s+compact\s+violation";
                   "delayed\s+placement\s+approval";
                   "icpc\s+not\s+completed"];
      severity := "medium";
      description := "Delayed ICPC processing affecting placement" |});
  ("missed_hearing",
   {| patterns := ["hearing\s+not\s+held";
                   "missed\s+hearing";
                   "hearing\s+postponed\s+repeatedly";
                   "no\s+permanency\s+hearing"];
      severity := "medium";
      description := "Required hearings missed or delayed" |});
  ("inadequate_reunification",
   {| patterns := ["no\s+reunification\s+efforts?";
                   "insufficient\s+reunification";
                   "failed\s+to\s+provide\s+services";
                   "reunification\s+not\s+attempted"];
      severity := "medium";
      description := "Inadequate or missing reunification efforts" |});
  ("procedural_error",
   {| patterns := ["procedural\s+error";
                   "improper\s+procedure";
                   "failed\s+to\s+follow\s+protocol";
                   "statutory\s+violation"];
      severity := "medium";
      description := "Procedural or statutory requirements not followed" |});
  ("documentation_error",
   {| patterns := ["missing\s+documentation";
                   "incomplete\s+records";
                   "filing\s+error";
                   "administrative\s+error"];
      severity := "low";
      description := "Documentation or administrative errors" |});
  ("timeline_violation",
   {| patterns := ["deadline\s+missed";
                   "untimely\s+filing";
                   "late\s+submission";
                   "time\s+limit\s+exceeded"];
      severity := "low";
      description := "Timeline or deadline violations" |})
].

Definition cps_violations : Dict.t PatternInfo := [
  ("safety_plan_violation",
   {| patterns := ["safety\s+plan\s+not\s+followed";
                   "violated\s+safety\s+plan";
                   "safety\s+plan\s+breach"];
      severity := "high";
      description := "Safety plan violations" |});
  ("visitation_denial",
   {| patterns := ["visitation\s+denied";
                   "denied\s+access\s+to\s+child";
                   "supervised\s+visitation\s+cancelled";
                   "no\s+visitation\s+allowed"];
      severity := "medium";
      description := "Improper denial of parent-child contact" |});
  ("case_plan_violation",
   {| patterns := ["case\s+plan\s+not\s+followed";
                   "isp\s+violation";
                   "service\s+plan\s+breach";
                   "treatment\s+plan\s+ignored"];
      severity := "medium";
      description := "Case plan or ISP requirements not met" |})
].

Definition family_court_violations : Dict.t PatternInfo := [
  ("custody_order_violation",
   {| patterns := ["custody\s+order\s+violated";
                   "parenting\s+time\s+denied";
                   "contempt\s+of\s+court";
                   "order\s+not\s+followed"];
      severity := "medium";
      description := "Court custody orders not followed" |});
  ("judicial_bias",
   {| patterns := ["judicial\s+bias";
                   "prejudiced\s+judge";
                   "biased\s+ruling";
                   "conflict\s+of\s+interest"];
      severity := "high";
      description := "Evidence of judicial bias or conflict" |})
].

(** [_get_severity_score]: [scores.get(severity, 1)]. *)
Definition _get_severity_score (severity : string) : Z :=
  if String.eqb severity "high" then 3
  else if String.eqb severity "medium" then 2
  else if String.eqb severity "low" then 1
  else 1.

(** The key of [_deduplicate_violations]:
    [f"{violation['type']}_{violation.get('context', '')[:50]}"]. *)
Definition dedup_key (v : Violation) : string :=
  v_type v +:+ "_" +:+ Str.take 50 (default "" (v_context v)).

Fixpoint dedup_loop (vs : list Violation) (seen : gset string)
    (deduplicated : list Violation) : list Violation :=
  match vs with
  | [] => deduplicated
  | violation :: vs' =>
      let key := dedup_key violation in
      if decide (key ∈ seen)
      then dedup_loop vs' seen deduplicated
      else dedup_loop vs' ({[key]} ∪ seen) (deduplicated ++ [violation])
  end.

Definition _deduplicate_violations (violations : list Violation)
    : list Violation :=
  dedup_loop violations ∅ [].

(** The pattern tables selected for a text and a document-type hint. *)
Definition select_patterns (text_lower document_type : string)
    : Dict.t PatternInfo :=
  let all_patterns := violation_patterns in
  let all_patterns :=
    if Str.contains "cps" (Str.lower document_type)
       || existsb (fun term => Str.contains term text_lower)
            ["cps"; "child protective"; "dhr"]
    then Dict.update all_patterns cps_violations else all_patterns in
  let all_patterns :=
    if Str.contains "custody" (Str.lower document_type)
       || Str.contains "family court" text_lower
    then Dict.update all_patterns family_court_violations
    else all_patterns in
  all_patterns.

(** The matches of one pattern.  Every pattern of the tables compiles
    (see [table_patterns_compile]), so the [None] case, where [re] would
    raise, does not occur. *)
Definition pattern_matches (pattern text_lower : string) : list (Z * Z) :=
  match Re.compile pattern with
  | Some r => Re.finditer r text_lower
  | None => []
  end.

(** The record appended for one match. *)
Definition match_record (text text_lower violation_type : string)
    (violation_info : PatternInfo) (m : Z * Z) : Violation :=
  let (m_start, m_end) := m in
  let start := Z.max 0 (m_start - 100) in
  let end_ := Z.min (Str.len text) (m_end + 100) in
  let context := Str.strip (Str.slice start end_ text) in
  {| v_type := violation_type;
     v_description := Some (description violation_info);
     v_severity := Some (severity violation_info);
     v_context := Some context;
     v_pattern_matched := Some (Str.slice m_start m_end text_lower);
     v_position := Some (m_start, m_end);
     v_severity_score := Some (_get_severity_score (severity violation_info));
     v_document_hash := None;
     v_document_name := None |}.

(** The list built by the search loops, before deduplication. *)
Definition raw_matches (text document_type : string) : list Violation :=
  let text_lower := Str.lower text in
  flat_map (fun '(violation_type, violation_info) =>
    flat_map (fun pattern =>
      map (match_record text text_lower violation_type violation_info)
          (pattern_matches pattern text_lower))
      (patterns violation_info))
    (select_patterns text_lower document_type).

(** The sort key [x['severity_score']]; every record of the search loop
    has the entry. *)
Definition score_key (v : Violation) : Z := default 0 (v_severity_score v).

Definition detect_violations (text document_type : string)
    : list Violation :=
  let violations := raw_matches text document_type in
  let violations := _deduplicate_violations violations in
  PySort.sort_desc Z.ltb score_key violations.

(** The body of the loop of [analyze_timeline_violations] at index [i]:
    what it appends, or [None] for the [TypeError] of the subtraction.
    Both indices are in range when [1 <= i < len(timeline)]. *)
Definition gap_step (timeline : list timeline_entry) (i : nat)
    : option (list TimelineViolation) :=
  match timeline !! i, timeline !! (i - 1)%nat with
  | Some current_event, Some previous_event =>
      if truthy (entry_date current_event)
         && truthy (entry_date previous_event)
      then
        match date_sub (entry_date current_event)
                       (entry_date previous_event) with
        | Some time_diff =>
            Some
              (if 180 <? Datetime.days time_diff
               then [ {| tv_type := "excessive_delay";
                         tv_severity := "medium";
                         tv_severity_score := 2;
                         tv_description :=
                           "Excessive delay ("
                           +:+ str_of_Z (Datetime.days time_diff)
                           +:+ " days) between events";
                         tv_context :=
                           "From " +:+ entry_document previous_event
                           +:+ " to " +:+ entry_document current_event;
                         tv_time_difference := Datetime.days time_diff;
                         tv_events := [previous_event; current_event] |} ]
               else [])
        | None => None
        end
      else Some []
  | _, _ => Some []
  end.

(** The loop over the indices; an exception of the body ends the call. *)
Fixpoint gap_loop (timeline : list timeline_entry) (indices : list nat)
    (timeline_violations : list TimelineViolation)
    : option (list TimelineViolation) :=
  match indices with
  | [] => Some timeline_violations
  | i :: indices' =>
      match gap_step timeline i with
      | Some found =>
          gap_loop timeline indices' (timeline_violations ++ found)
      | None => None
      end
  end.

(** [None] is the [TypeError] that the call ends with. *)
Definition analyze_timeline_violations (timeline : list timeline_entry)
    : option (list TimelineViolation) :=
  if (length timeline <? 2)%nat then Some []
  else gap_loop timeline (seq 1 (length timeline - 1)) [].

(** ** generate_violation_heatmap_data *)

(** An entry of [heatmap_data['violation_types']]. *)
Record TypeStat := {
  ts_count : Z;
  ts_severity : string;
  ts_description : string;
}.

Record Heatmap := {
  hm_severity_counts : Dict.t Z;
  hm_violation_types : Dict.t TypeStat;
  hm_total_score : Z;
  hm_risk_level : string;
}.

Definition heatmap_init : Heatmap :=
  {| hm_severity_counts := [("high", 0); ("medium", 0); ("low", 0)];
     hm_violation_types := [];
     hm_total_score := 0;
     hm_risk_level := "low" |}.

(** One round of the loop over the violations; [None] is the [KeyError]
    of [severity_counts[severity] += 1] for a severity that is not a key. *)
Definition heatmap_step (heatmap_data : Heatmap) (violation : Violation)
    : option Heatmap :=
  let severity := default "low" (v_severity violation) in
  let v_type := v_type violation in
  match Dict.get (hm_severity_counts heatmap_data) severity with
  | None => None
  | Some n =>
      let severity_counts :=
        Dict.set (hm_severity_counts heatmap_data) severity (n + 1) in
      let violation_types :=
        match Dict.get (hm_violation_types heatmap_data) v_type with
        | Some _ => hm_violation_types heatmap_data
        | None =>
            Dict.set (hm_violation_types heatmap_data) v_type
              {| ts_count := 0;
                 ts_severity := severity;
                 ts_description := default "" (v_description violation) |}
        end in
      let violation_types :=
        match Dict.get violation_types v_type with
        | Some st =>
            Dict.set violation_types v_type
              {| ts_count := ts_count st + 1;
                 ts_severity := ts_severity st;
                 ts_description := ts_description st |}
        | None => violation_types
        end in
      Some {| hm_severity_counts := severity_counts;
              hm_violation_types := violation_types;
              hm_total_score :=
                hm_total_score heatmap_data
                + default 1 (v_severity_score violation);
              hm_risk_level := hm_risk_level heatmap_data |}
  end.

Fixpoint heatmap_loop (heatmap_data : Heatmap) (violations : list Violation)
    : option Heatmap :=
  match violations with
  | [] => Some heatmap_data
  | violation :: rest =>
      match heatmap_step heatmap_data violation with
      | Some heatmap_data' => heatmap_loop heatmap_data' rest
      | None => None
      end
  end.

(** [severity_counts[k]] for one of the three keys. *)
Definition count_of (heatmap_data : Heatmap) (k : string) : Z :=
  default 0 (Dict.get (hm_severity_counts heatmap_data) k).

Definition risk_of (heatmap_data : Heatmap) : string :=
  if 3 <=? count_of heatmap_data "high" then "critical"
  else if (1 <=? count_of heatmap_data "high")
          || (5 <=? count_of heatmap_data "medium") then "high"
  else if 2 <=? count_of heatmap_data "medium" then "medium"
  else hm_risk_level heatmap_data.

Definition generate_violation_heatmap_data (violations : list Violation)
    : option Heatmap :=
  match heatmap_loop heatmap_init violations with
  | Some heatmap_data =>
      Some {| hm_severity_counts := hm_severity_counts heatmap_data;
              hm_violation_types := hm_violation_types heatmap_data;
              hm_total_score := hm_total_score heatmap_data;
              hm_risk_level := risk_of heatmap_data |}
  | None => None
  end.

End ViolationDetector.


(* ===================================================================== *)
(** * [datetime.strptime] *)
(* ===================================================================== *)

(** [datetime.strptime(data_string, format)] as CPython's [_strptime]
    computes it, for the directives [%d %m %Y %y %B %b] and with the month
    names of the C locale: the format is turned into a regular expression,
    the expression is matched at the start of the string under IGNORECASE,
    the match has to end where the string ends, and the fields found have to
    be a date of the calendar.  [None] stands for [ValueError]. *)
Module Strptime.
Import Re.

(** The literal [s]. *)
Fixpoint lit (s : string) : regex :=
  match s with
  | EmptyString => Eps
  | String c s' => Cat (Chr c) (lit s')
  end.

(** [r1|r2|...|rn]; the empty alternation matches nothing that the
    formats use. *)
Fixpoint alts (rs : list regex) : regex :=
  match rs with
  | [] => Cls (Range "1" "0")
  | [r] => r
  | r :: rs' => Alt r (alts rs')
  end.

Definition f_month : list string :=
  [""; "january"; "february"; "march"; "april"; "may"; "june"; "july";
   "august"; "september"; "october"; "november"; "december"].

Definition a_month : list string :=
  [""; "jan"; "feb"; "mar"; "apr"; "may"; "jun"; "jul";
   "aug"; "sep"; "oct"; "nov"; "dec"].

(** [__seqToRE]: the names, longest first. *)
Definition seqToRE (to_convert : list string) (directive : ascii) : regex :=
  let to_convert :=
    PySort.sort_desc Nat.ltb String.length to_convert in
  Group directive (alts (map lit to_convert)).

Definition d19 : regex := Cls (Range "1" "9").

(** The table of [TimeRE]. *)
Definition directive (c : ascii) : option regex :=
  match c with
  | "d"%char =>          (* 3[0-1]|[1-2]\d|0[1-9]|[1-9]| [1-9] *)
      Some (Group "d" (alts [Cat (Chr "3") (Cls (Range "0" "1"));
                             Cat (Cls (Range "1" "2")) (Cls Digit);
                             Cat (Chr "0") d19;
                             d19;
                             Cat (Chr " ") d19]))
  | "m"%char =>          (* 1[0-2]|0[1-9]|[1-9] *)
      Some (Group "m" (alts [Cat (Chr "1") (Cls (Range "0" "2"));
                             Cat (Chr "0") d19;
                             d19]))
  | "Y"%char =>          (* \d\d\d\d *)
      Some (Group "Y" (Cat (Cls Digit) (Cat (Cls Digit)
                         (Cat (Cls Digit) (Cls Digit)))))
  | "y"%char =>          (* \d\d *)
      Some (Group "y" (Cat (Cls Digit) (Cls Digit)))
  | "B"%char => Some (seqToRE (tl f_month) "B")
  | "b"%char => Some (seqToRE (tl a_month) "b")
  | _ => None
  end.

(** [TimeRE.pattern]: a run of whitespace in the format stands for
    [\s+], [%x] for the expression of directive [x], any other character
    for itself.  [after_ws] says that the character before was
    whitespace. *)
Fixpoint pattern (format : string) (after_ws : bool) : option regex :=
  match format with
  | EmptyString => Some Eps
  | String "%" (String x format') =>
      match directive x, pattern format' false with
      | Some r, Some rest => Some (Cat r rest)
      | _, _ => None
      end
  | String "%" EmptyString => None
  | String c format' =>
      match pattern format' (Str.isspace c) with
      | Some rest =>
          if Str.isspace c
          then Some (if after_ws then rest else Cat (Plus Space) rest)
          else Some (Cat (Chr c) rest)
      | None => None
      end
  end.

Definition digit_value (c : ascii) : Z := Z.of_N (N_of_ascii c) - 48.

(** [int(s)] for a string of digits with blanks around it. *)
Definition int_of (s : string) : Z :=
  fold_left (fun acc c => 10 * acc + digit_value c)
            (list_ascii_of_string (Str.strip s)) 0.

(** [names.index(s)]. *)
Fixpoint index_of (names : list string) (s : string) (i : Z) : option Z :=
  match names with
  | [] => None
  | n :: names' =>
      if String.eqb n s then Some i else index_of names' s (i + 1)
  end.

Definition group (cs : captures) (name : ascii) : option string :=
  snd <$> find (fun g => Ascii.eqb (fst g) name) cs.

(** The year of the match: [%Y], or [%y] with its pivot at 69. *)
Definition found_year (cs : captures) : option Z :=
  match group cs "Y", group cs "y" with
  | Some s, _ => Some (int_of s)
  | None, Some s =>
      let y := int_of s in Some (if y <=? 68 then y + 2000 else y + 1900)
  | None, None => None
  end.

Definition found_month (cs : captures) : option Z :=
  match group cs "m", group cs "B", group cs "b" with
  | Some s, _, _ => Some (int_of s)
  | None, Some s, _ => index_of f_month (Str.lower s) 0
  | None, None, Some s => index_of a_month (Str.lower s) 0
  | None, None, None => None
  end.

Definition strptime (data_string format : string)
    : option Datetime.datetime :=
  match pattern format false with
  | None => None
  | Some format_regex =>
      match match_prefix format_regex data_string with
      | None => None
      | Some (rest, found) =>
          if negb (String.eqb rest "") then None     (* unconverted data *)
          else
            let y := default 1900 (found_year found) in
            let m := default 1 (found_month found) in
            let d := default 1 (int_of <$> group found "d") in
            if Datetime.valid_date y m d
            then Some (Datetime.of_date y m d)
            else None
      end
  end.

End Strptime.

(* ===================================================================== *)
(** * legal_analyzer.py *)
(* ===================================================================== *)

Module LegalDocumentAnalyzer.

Definition document_types : Dict.t (list string) := [
  ("petition", ["petition"; "complaint"; "filing"]);
  ("motion", ["motion"; "request"; "application"]);
  ("order", ["order"; "judgment"; "decree"; "ruling"]);
  ("pleading", ["answer"; "response"; "reply"; "counter"]);
  ("evidence", ["exhibit"; "affidavit"; "declaration"; "testimony"]);
  ("custody", ["custody"; "visitation"; "parenting"; "child support"]);
  ("cps", ["cps"; "child protective"; "dhr"; "removal"; "placement"]);
  ("isp", ["service plan"; "case plan"; "treatment plan"; "goals"])
].

(** The result of [analyze_document_type].  The confidence is the
    quotient of two integers; Python rounds it to the nearest float,
    which is exact for the quotients 0 and 1. *)
Record DocumentType := {
  dt_type : string;
  dt_confidence : Q;
  dt_all_scores : option (Dict.t Z);
}.

Definition sum (l : list Z) : Z := fold_left Z.add l 0.

(** [sum(text_lower.count(keyword) for keyword in keywords)]. *)
Definition keyword_score (text_lower : string) (keywords : list string) : Z :=
  sum (map (Str.count text_lower) keywords).

(** The dict [scores] after the loop: the types with a positive score. *)
Definition scores_of (text_lower : string) : Dict.t Z :=
  fold_left (fun scores '(doc_type, keywords) =>
               let score := keyword_score text_lower keywords in
               if 0 <? score then Dict.set scores doc_type score else scores)
            document_types [].

(** [max(scores, key=scores.get)] on a non-empty dict: the first key
    among those with the largest value. *)
Definition max_key (first : string * Z) (rest : Dict.t Z) : string * Z :=
  fold_left (fun best kv => if snd best <? snd kv then kv else best)
            rest first.

Definition analyze_document_type (text : string) : DocumentType :=
  let text_lower := Str.lower text in
  let scores := scores_of text_lower in
  match scores with
  | [] => {| dt_type := "unknown"; dt_confidence := 0; dt_all_scores := None |}
  | first :: rest =>
      let primary_type := fst (max_key first rest) in
      let total_score := sum (Dict.values scores) in
      let primary_score := default 0 (Dict.get scores primary_type) in
      let confidence := (inject_Z primary_score / inject_Z total_score)%Q in
      {| dt_type := primary_type;
         dt_confidence := confidence;
         dt_all_scores := Some scores |}
  end.

(** ** detect_potential_violations *)

Definition violation_indicators : list string := [
  "due process violation";
  "constitutional violation";
  "procedural error";
  "jurisdictional issue";
  "inadequate representation";
  "failure to provide notice";
  "ex parte communication";
  "bias or prejudice";
  "insufficient evidence";
  "improper venue";
  "statute of limitations";
  "discovery violation";
  "brady violation";
  "ineffective assistance"
].

Definition _assess_violation_severity (violation_type : string) : string :=
  let high_severity :=
    ["constitutional violation"; "due process violation"; "brady violation"] in
  let medium_severity :=
    ["procedural error"; "discovery violation"; "inadequate representation"] in
  if existsb (String.eqb violation_type) high_severity then "high"
  else if existsb (String.eqb violation_type) medium_severity then "medium"
  else "low".

(** The class [.] of a pattern without DOTALL: any character but the
    line feed. *)
Definition is_dot (c : ascii) : bool := negb (Ascii.eqb c "010").

(** The literal [p] at the start of [s], compared under IGNORECASE. *)
Fixpoint startswith_ci (p s : string) : bool :=
  match p, s with
  | EmptyString, _ => true
  | String a p', String b s' =>
      Ascii.eqb (Str.lower_char b) (Str.lower_char a) && startswith_ci p' s'
  | String _ _, EmptyString => false
  end.

(** The length of the longest run of [.] at the start of [s], up to [n]
    characters. *)
Fixpoint dot_run (n : nat) (s : string) : nat :=
  match n, s with
  | S n', String c s' => if is_dot c then S (dot_run n' s') else O
  | _, _ => O
  end.

(** The pattern [.{0,100}indicator.{0,100}] at the start of [s], when
    the first [.{0,100}] may take [k] characters at most: the engine
    gives it [k] characters first and one less on each failure; the last
    [.{0,100}] takes all it can.  The result is the length of the match. *)
Fixpoint context_match_upto (k : nat) (indicator s : string) : option nat :=
  if startswith_ci indicator (Str.drop k s)
  then Some (k + String.length indicator
             + dot_run 100 (Str.drop (k + String.length indicator) s))%nat
  else match k with
       | S k' => context_match_upto k' indicator s
       | O => None
       end.

Definition context_match (indicator s : string) : option nat :=
  context_match_upto (dot_run 100 s) indicator s.

(** [re.findall] of that pattern: the matched texts from left to right,
    without overlap; [skip] as in [Re.finditer_from]. *)
Fixpoint findall_context (indicator s : string) (skip : nat) : list string :=
  match s with
  | EmptyString =>
      match skip, context_match indicator s with
      | O, Some n => [Str.take n s]
      | _, _ => []
      end
  | String _ s' =>
      match skip with
      | S k => findall_context indicator s' k
      | O =>
          match context_match indicator s with
          | Some n => Str.take n s :: findall_context indicator s' (n - 1)
          | None => findall_context indicator s' 0
          end
      end
  end.

(** The record appended for one match: the keys 'type', 'context' and
    'severity'. *)
Definition potential_violation (indicator matched : string) : Violation :=
  {| v_type := indicator;
     v_description := None;
     v_severity := Some (_assess_violation_severity indicator);
     v_context := Some (Str.strip matched);
     v_pattern_matched := None;
     v_position := None;
     v_severity_score := None;
     v_document_hash := None;
     v_document_name := None |}.

Definition detect_potential_violations (text : string) : list Violation :=
  let text_lower := Str.lower text in
  flat_map (fun indicator =>
              if Str.contains indicator text_lower
              then map (potential_violation indicator)
                       (findall_context indicator text_lower 0)
              else [])
           violation_indicators.

End LegalDocumentAnalyzer.

(* ===================================================================== *)
(** * case_manager.py *)
(* ===================================================================== *)

Module CaseManager.

(** ** The data of a case *)

(** [legal_analysis], as far as the case manager reads it. *)
Record LegalAnalysis := {
  la_document_type : option LegalDocumentAnalyzer.DocumentType;
  la_legal_entities : option (Dict.t (list string));
  la_potential_violations : option (list Violation);
}.

Record DocumentAnalysis := {
  da_filename : option string;
}.

Record DocEntry := {
  doc_pdf_hash : string;
  doc_upload_date : string;
  doc_document_analysis : DocumentAnalysis;
  doc_legal_analysis : LegalAnalysis;
  doc_filename : string;
}.

Record Contradiction := {
  con_type : string;
  con_severity : string;
  con_description : string;
  con_documents : list string;
  con_case_number : string;
}.

(** An actor while [track_repeat_actors] collects, and as it is stored. *)
Record ActorAcc := {
  acc_type : string;
  acc_violations : list Violation;
  acc_documents : gset string;
  acc_severity_score : Z;
}.

Record Actor := {
  act_type : string;
  act_violations : list Violation;
  act_documents : list string;
  act_severity_score : Z;
}.

(** A value of the dict [case_data['entities']]: a set, or the list that
    serialization puts in its place. *)
Inductive entval :=
| ESet (s : gset string)
| EList (l : list string).

(** The dict [case_data['entities']] is an object of its own: the case
    holds a reference to it, and so does every copy of the case. *)
Abbreviation loc := positive.
Abbreviation heap := (gmap loc (Dict.t entval)).

Record Case := {
  case_id : string;
  case_name : string;
  created_date : string;
  documents : Dict.t DocEntry;
  timeline : list TimelineEvent;
  entities : loc;
  violations : list Violation;
  contradictions : list Contradiction;
  actor_tracking : Dict.t Actor;
  last_updated : string;
}.

(** The entities of a case in a heap; a case always refers to a live
    object. *)
Definition entities_of (h : heap) (c : Case) : Dict.t entval :=
  default [] (h !! entities c).

(** The members of an entity value. *)
Definition members (v : entval) : gset string :=
  match v with
  | ESet s => s
  | EList l => list_to_set l
  end.

Definition is_set (v : entval) : bool :=
  match v with ESet _ => true | EList _ => false end.

(** ** create_case_session *)

Section Create.
(** [hashlib.md5(s.encode()).hexdigest()]. *)
Variable md5_hexdigest : string -> string.

(** [now_id], [now_created] and [now_updated] are the three readings of
    the clock, [datetime.now().isoformat()], in the order in which the
    code takes them. *)
Definition create_case_session (h : heap)
    (case_name now_id now_created now_updated : string)
    : heap * (string * Case) :=
  let case_id := Str.take 8 (md5_hexdigest (case_name +:+ "_" +:+ now_id)) in
  let l := fresh (dom h) in
  let case_session :=
    {| case_id := case_id;
       case_name := case_name;
       created_date := now_created;
       documents := [];
       timeline := [];
       entities := l;
       violations := [];
       contradictions := [];
       actor_tracking := [];
       last_updated := now_updated |} in
  (<[l := [("judges", ESet ∅); ("attorneys", ESet ∅);
           ("caseworkers", ESet ∅); ("children", ESet ∅);
           ("case_numbers", ESet ∅); ("courts", ESet ∅)]]> h,
   (case_id, case_session)).
End Create.

(** ** add_document_to_case *)

(** One round of the loop over [entities.items()]. *)
Definition merge_entity (case_entities : Dict.t entval)
    (entity_type : string) (values : list string) : Dict.t entval :=
  match Dict.get case_entities entity_type with
  | Some (ESet s) =>
      Dict.set case_entities entity_type (ESet (s ∪ list_to_set values))
  | Some (EList l) =>
      Dict.set case_entities entity_type (ESet (list_to_set (l ++ values)))
  | None => case_entities
  end.

Definition merge_entities (doc_entities : Dict.t (list string))
    (case_entities : Dict.t entval) : Dict.t entval :=
  fold_left (fun acc kv => merge_entity acc (fst kv) (snd kv))
            doc_entities case_entities.

Definition stamp (pdf_hash filename : string) (v : Violation) : Violation :=
  {| v_type := v_type v;
     v_description := v_description v;
     v_severity := v_severity v;
     v_context := v_context v;
     v_pattern_matched := v_pattern_matched v;
     v_position := v_position v;
     v_severity_score := v_severity_score v;
     v_document_hash := Some pdf_hash;
     v_document_name := Some filename |}.

(** [upload_date] and [now] are the two readings of the clock.  The
    violations are stamped in place, so the stamps also show in the
    [legal_analysis] that the document entry holds.  This is the call on
    values: for an analysis whose violation dicts nothing else refers
    to.  [Shared.add_document_to_case] below is the call on objects. *)
Definition add_document_to_case (h : heap) (case_data : Case)
    (pdf_hash : string) (document_analysis : DocumentAnalysis)
    (legal_analysis : LegalAnalysis) (upload_date now : string)
    : heap * Case :=
  let filename := default "Unknown" (da_filename document_analysis) in
  let stamped :=
    map (stamp pdf_hash filename) <$> la_potential_violations legal_analysis in
  let doc_entry :=
    {| doc_pdf_hash := pdf_hash;
       doc_upload_date := upload_date;
       doc_document_analysis := document_analysis;
       doc_legal_analysis :=
         {| la_document_type := la_document_type legal_analysis;
            la_legal_entities := la_legal_entities legal_analysis;
            la_potential_violations := stamped |};
       doc_filename := filename |} in
  let h' :=
    match la_legal_entities legal_analysis with
    | Some doc_entities =>
        alter (merge_entities doc_entities) (entities case_data) h
    | None => h
    end in
  (h',
   {| case_id := case_id case_data;
      case_name := case_name case_data;
      created_date := created_date case_data;
      documents := Dict.set (documents case_data) pdf_hash doc_entry;
      timeline := timeline case_data;
      entities := entities case_data;
      violations := violations case_data ++ default [] stamped;
      contradictions := contradictions case_data;
      actor_tracking := actor_tracking case_data;
      last_updated := now |}).

(** ** _parse_date and generate_timeline *)

Definition date_formats : list string :=
  ["%m/%d/%Y"; "%m-%d-%Y"; "%m/%d/%y"; "%m-%d-%y";
   "%B %d, %Y"; "%b %d, %Y"; "%B %d %Y"; "%b %d %Y";
   "%Y-%m-%d"; "%d/%m/%Y"; "%d-%m-%Y"].

(** The loop of [_parse_date]: the first format that parses. *)
Fixpoint parse_with (formats : list string) (date_str : string)
    : option Datetime.datetime :=
  match formats with
  | [] => None
  | fmt :: formats' =>
      match Strptime.strptime (Str.strip date_str) fmt with
      | Some d => Some d
      | None => parse_with formats' date_str
      end
  end.

Definition _parse_date (date_str : string) : option Datetime.datetime :=
  parse_with date_formats date_str.

(** [legal_analysis.get('document_type', {}).get('type', 'unknown')]. *)
Definition doc_type_of (legal_analysis : LegalAnalysis) : string :=
  match la_document_type legal_analysis with
  | Some dt => LegalDocumentAnalyzer.dt_type dt
  | None => "unknown"
  end.

(** The values of one entity kind of a document, if it has the kind. *)
Definition doc_entity (doc : DocEntry) (kind : string) : option (list string) :=
  match la_legal_entities (doc_legal_analysis doc) with
  | Some ents => Dict.get ents kind
  | None => None
  end.

(** The events appended for one date string. *)
Definition event_of (pdf_hash : string) (doc : DocEntry) (date_str : string)
    : list TimelineEvent :=
  match _parse_date date_str with
  | Some parsed_date =>
      [ {| ev_date := Some parsed_date;
           ev_date_str := date_str;
           ev_document := doc_filename doc;
           ev_document_hash := pdf_hash;
           ev_document_type := doc_type_of (doc_legal_analysis doc);
           ev_context := "Referenced in " +:+ doc_filename doc |} ]
  | None => []
  end.

(** The list built by the loops, before the sort. *)
Definition collect_events (docs : Dict.t DocEntry) : list TimelineEvent :=
  flat_map (fun '(pdf_hash, doc) =>
              match doc_entity doc "dates" with
              | Some dates => flat_map (event_of pdf_hash doc) dates
              | None => []
              end) docs.

(** The sort key [x['date'] if x['date'] else datetime.min]. *)
Definition date_key (x : TimelineEvent) : Datetime.datetime :=
  default Datetime.min (ev_date x).

Definition set_timeline (c : Case) (tl : list TimelineEvent) : Case :=
  {| case_id := case_id c; case_name := case_name c;
     created_date := created_date c; documents := documents c;
     timeline := tl;
     entities := entities c; violations := violations c;
     contradictions := contradictions c;
     actor_tracking := actor_tracking c; last_updated := last_updated c |}.

(** The updated case and the returned list. *)
Definition generate_timeline (case_data : Case)
    : Case * list TimelineEvent :=
  let timeline_events := collect_events (documents case_data) in
  let timeline_events :=
    PySort.sort_asc Datetime.ltb date_key timeline_events in
  (set_timeline case_data timeline_events, timeline_events).

(** ** detect_contradictions *)

(** An entry of the lists that group documents by a value. *)
Record DocRef := {
  ref_document : string;
  ref_hash : string;
}.

(** [if k not in groups: groups[k] = []] and then
    [groups[k].append(r)]. *)
Definition group_append (groups : Dict.t (list DocRef)) (k : string)
    (r : DocRef) : Dict.t (list DocRef) :=
  match Dict.get groups k with
  | Some rs => Dict.set groups k (rs ++ [r])
  | None => Dict.set groups k [r]
  end.

(** The loops that fill [all_dates] (for ["dates"]) and [case_numbers]
    (for ["case_numbers"]). *)
Definition group_by_value (kind : string) (docs : Dict.t DocEntry)
    : Dict.t (list DocRef) :=
  fold_left (fun groups '(pdf_hash, doc) =>
               match doc_entity doc kind with
               | Some values =>
                   fold_left (fun groups value =>
                                group_append groups value
                                  {| ref_document := doc_filename doc;
                                     ref_hash := pdf_hash |})
                             values groups
               | None => groups
               end)
            docs [].

(** [documents[doc_hash]['legal_analysis'].get('document_type', {})
    .get('type', 'unknown')]; the hash was read from [documents]. *)
Definition type_of_hash (docs : Dict.t DocEntry) (doc_hash : string) : string :=
  match Dict.get docs doc_hash with
  | Some doc => doc_type_of (doc_legal_analysis doc)
  | None => "unknown"
  end.

(** The body of the loop that flags contradictions. *)
Definition flag (docs_by_hash : Dict.t DocEntry) (case_num : string)
    (docs : list DocRef) : list Contradiction :=
  if (1 <? length docs)%nat then
    let doc_types : gset string :=
      list_to_set (map (fun doc_info => type_of_hash docs_by_hash (ref_hash doc_info)) docs) in
    if (1 <? size doc_types)%nat then
      [ {| con_type := "case_number_inconsistency";
           con_severity := "medium";
           con_description :=
             "Case number " +:+ case_num
             +:+ " appears in documents of different types";
           con_documents := map ref_document docs;
           con_case_number := case_num |} ]
    else []
  else [].

Definition set_contradictions (c : Case) (cs : list Contradiction) : Case :=
  {| case_id := case_id c; case_name := case_name c;
     created_date := created_date c; documents := documents c;
     timeline := timeline c;
     entities := entities c; violations := violations c;
     contradictions := cs;
     actor_tracking := actor_tracking c; last_updated := last_updated c |}.

Definition detect_contradictions (case_data : Case)
    : Case * list Contradiction :=
  let docs := documents case_data in
  let all_dates := group_by_value "dates" docs in      (* built, not read *)
  let case_numbers := group_by_value "case_numbers" docs in
  let contradictions :=
    flat_map (fun '(case_num, refs) => flag docs case_num refs)
             case_numbers in
  (set_contradictions case_data contradictions, contradictions).

(** ** track_repeat_actors *)

(** [severity_scores.get(violation.get('severity', 'low'), 1)]. *)
Definition actor_score (violation : Violation) : Z :=
  let sev := default "low" (v_severity violation) in
  if String.eqb sev "high" then 3
  else if String.eqb sev "medium" then 2
  else if String.eqb sev "low" then 1
  else 1.

(** The body of the loop over the judges of a violation's document. *)
Definition track_judge (violation : Violation) (filename : string)
    (tracking : Dict.t ActorAcc) (judge : string) : Dict.t ActorAcc :=
  let a :=
    default {| acc_type := "judge"; acc_violations := [];
               acc_documents := ∅; acc_severity_score := 0 |}
            (Dict.get tracking judge) in
  Dict.set tracking judge
    {| acc_type := acc_type a;
       acc_violations := acc_violations a ++ [violation];
       acc_documents := {[filename]} ∪ acc_documents a;
       acc_severity_score := acc_severity_score a + actor_score violation |}.

(** The body of the loop over the violations of the case. *)
Definition track_violation (docs : Dict.t DocEntry)
    (tracking : Dict.t ActorAcc) (violation : Violation) : Dict.t ActorAcc :=
  let doc_hash := default "" (v_document_hash violation) in
  match Dict.get docs doc_hash with
  | Some doc =>
      let judges := default [] (doc_entity doc "judge_names") in
      fold_left (track_judge violation (doc_filename doc)) judges tracking
  | None => tracking
  end.

(** [list(a_set)]: the members in the order the set yields them. *)
Definition list_of_set (s : gset string) : list string := elements s.

Definition finish_actor (a : ActorAcc) : Actor :=
  {| act_type := acc_type a;
     act_violations := acc_violations a;
     act_documents := list_of_set (acc_documents a);
     act_severity_score := acc_severity_score a |}.

Definition set_actor_tracking (c : Case) (t : Dict.t Actor) : Case :=
  {| case_id := case_id c; case_name := case_name c;
     created_date := created_date c; documents := documents c;
     timeline := timeline c;
     entities := entities c; violations := violations c;
     contradictions := contradictions c;
     actor_tracking := t; last_updated := last_updated c |}.

Definition track_repeat_actors (case_data : Case)
    : Case * Dict.t Actor :=
  let tracking :=
    fold_left (track_violation (documents case_data))
              (violations case_data) [] in
  let actor_tracking := map (fun '(k, a) => (k, finish_actor a)) tracking in
  (set_actor_tracking case_data actor_tracking, actor_tracking).

(** ** Saving and loading *)

(** [dict.copy()]: a new top-level dict with the entries of the old one.
    An entry that refers to an object refers to the same object in the
    copy, which is the case of [entities]. *)
Definition dict_copy (c : Case) : Case := c.

(** [_prepare_for_serialization]: the loop assigns into the dict that
    [data['entities']] refers to. *)
Definition set_to_list (v : entval) : entval :=
  match v with
  | ESet s => EList (list_of_set s)
  | EList l => EList l
  end.

Definition _prepare_for_serialization (h : heap) (data : Case)
    : heap * Case :=
  (alter (map (fun '(key, value) => (key, set_to_list value)))
         (entities data) h,
   data).

(** The JSON text of a case, as the tree of values it encodes.  What
    [json] cannot encode goes through [default=str]: a datetime is
    written as [str] of it, and so would be a value that is still a
    set. *)
Inductive saved_entity :=
| SArray (l : list string)
| SText (s : string).

Record SavedCase := {
  sc_case_id : string;
  sc_case_name : string;
  sc_created_date : string;
  sc_documents : Dict.t DocEntry;
  sc_timeline : list SavedEvent;
  sc_entities : Dict.t saved_entity;
  sc_violations : list Violation;
  sc_contradictions : list Contradiction;
  sc_actor_tracking : Dict.t Actor;
  sc_last_updated : string;
}.

(** [str(n).zfill(width)] for [0 <= n]. *)
Definition zfill (width : nat) (n : Z) : string :=
  let s := str_of_Z n in
  string_of_list_ascii (repeat "0"%char (width - String.length s)) +:+ s.

(** [str(d)] for a datetime. *)
Definition str_of_datetime (d : Datetime.datetime) : string :=
  zfill 4 (Datetime.year d) +:+ "-" +:+ zfill 2 (Datetime.month d)
  +:+ "-" +:+ zfill 2 (Datetime.day d) +:+ " "
  +:+ zfill 2 (Datetime.hour d) +:+ ":" +:+ zfill 2 (Datetime.minute d)
  +:+ ":" +:+ zfill 2 (Datetime.second d)
  +:+ (if Datetime.microsecond d =? 0 then ""
       else "." +:+ zfill 6 (Datetime.microsecond d)).

Definition save_event (e : TimelineEvent) : SavedEvent :=
  {| sev_date := str_of_datetime <$> ev_date e;
     sev_date_str := ev_date_str e;
     sev_document := ev_document e;
     sev_document_hash := ev_document_hash e;
     sev_document_type := ev_document_type e;
     sev_context := ev_context e |}.

(** The directory [case_sessions]: file name to content. *)
Abbreviation files := (gmap string SavedCase).

(** [case_data_dir / f"{case_id}.json"], as the name of a file of the
    directory: this is the file for an id which is a plain name, as the
    ids of [create_case_session] are, eight digits of a hexadecimal
    number. *)
Definition case_file (case_id : string) : string := case_id +:+ ".json".

(** What [json.load] and [_prepare_from_serialization] make of a saved
    case: a new dict tree, with strings for the timeline dates. *)
Inductive loaded_entity :=
| LSet (s : gset string)
| LText (s : string).

Record LoadedCase := {
  lc_case_id : string;
  lc_case_name : string;
  lc_created_date : string;
  lc_documents : Dict.t DocEntry;
  lc_timeline : list SavedEvent;
  lc_entities : Dict.t loaded_entity;
  lc_violations : list Violation;
  lc_contradictions : list Contradiction;
  lc_actor_tracking : Dict.t Actor;
  lc_last_updated : string;
}.

(** The loop of [_prepare_from_serialization]: a list becomes a set. *)
Definition list_to_set_entity (v : saved_entity) : loaded_entity :=
  match v with
  | SArray l => LSet (list_to_set l)
  | SText s => LText s
  end.

(** [json.load], then [_prepare_from_serialization] on its result. *)
Definition _prepare_from_serialization (data : SavedCase) : LoadedCase :=
  {| lc_case_id := sc_case_id data;
     lc_case_name := sc_case_name data;
     lc_created_date := sc_created_date data;
     lc_documents := sc_documents data;
     lc_timeline := sc_timeline data;
     lc_entities :=
       map (fun '(key, value) => (key, list_to_set_entity value))
           (sc_entities data);
     lc_violations := sc_violations data;
     lc_contradictions := sc_contradictions data;
     lc_actor_tracking := sc_actor_tracking data;
     lc_last_updated := sc_last_updated data |}.

Definition load_case_session (fs : files) (case_id : string)
    : option LoadedCase :=
  match fs !! case_file case_id with
  | Some data => Some (_prepare_from_serialization data)
  | None => None
  end.

Section Save.
(** [str(a_set)]: the text depends on the order in which the set
    yields its members. *)
Variable str_of_set : gset string -> string.

Definition save_entity (v : entval) : saved_entity :=
  match v with
  | EList l => SArray l
  | ESet s => SText (str_of_set s)
  end.

(** [json.dump(data, f, indent=2, default=str)]. *)
Definition json_dump (h : heap) (data : Case) : SavedCase :=
  {| sc_case_id := case_id data;
     sc_case_name := case_name data;
     sc_created_date := created_date data;
     sc_documents := documents data;
     sc_timeline := map save_event (timeline data);
     sc_entities :=
       map (fun '(k, v) => (k, save_entity v)) (entities_of h data);
     sc_violations := violations data;
     sc_contradictions := contradictions data;
     sc_actor_tracking := actor_tracking data;
     sc_last_updated := last_updated data |}.

(** The heap and the directory after the call. *)
Definition save_case_session (h : heap) (fs : files) (case_id : string)
    (case_data : Case) : heap * files :=
  let '(h', serializable_data) :=
    _prepare_for_serialization h (dict_copy case_data) in
  (h', <[case_file case_id := json_dump h' serializable_data]> fs).
End Save.

(** ** list_case_sessions *)

Record CaseSummary := {
  cs_case_id : string;
  cs_case_name : string;
  cs_created_date : string;
  cs_last_updated : string;
  cs_document_count : Z;
}.

(** The entry made for a saved case. *)
Definition summary_of (data : SavedCase) : CaseSummary :=
  {| cs_case_id := sc_case_id data;
     cs_case_name := sc_case_name data;
     cs_created_date := sc_created_date data;
     cs_last_updated := sc_last_updated data;
     cs_document_count := Z.of_nat (length (sc_documents data)) |}.

(** The value under 'documents' in a file: one that [len] accepts, with
    its length, or one for which [len] raises. *)
Inductive documents_value :=
| Sized (n : nat)
| Unsized.

(** What [list_case_sessions] reads of the object in a file: the keys
    that the object has, with strings for the values of the first
    four. *)
Record JsonFields := {
  jf_case_id : option string;
  jf_case_name : option string;
  jf_created_date : option string;
  jf_last_updated : option string;
  jf_documents : option documents_value;
}.

(** A file of the directory, as [list_case_sessions] meets it: one for
    which [open] or [json.load] raises or whose value is no object, or
    one that holds an object. *)
Inductive content :=
| Unreadable
| Object (data : JsonFields).

(** The directory [case_sessions] with files of any content. *)
Abbreviation directory := (gmap string content).

(** The file that [json.dump] writes for a saved case. *)
Definition written (data : SavedCase) : content :=
  Object {| jf_case_id := Some (sc_case_id data);
            jf_case_name := Some (sc_case_name data);
            jf_created_date := Some (sc_created_date data);
            jf_last_updated := Some (sc_last_updated data);
            jf_documents := Some (Sized (length (sc_documents data))) |}.

(** The saved cases of [fs] in a directory that holds the files of
    [others] beside them. *)
Definition directory_of (fs : files) (others : directory) : directory :=
  (written <$> fs) ∪ others.

(** [len(data.get('documents', {}))]: [None] for the [TypeError]. *)
Definition document_count (value : option documents_value) : option Z :=
  match default (Sized 0) value with
  | Sized n => Some (Z.of_nat n)
  | Unsized => None
  end.

(** The body of the [try]: the entry made for one file, [None] where it
    raises and the [except] clause goes on to the next file.  A key that
    the object has not is a [KeyError]. *)
Definition read_summary (file : content) : option CaseSummary :=
  match file with
  | Unreadable => None
  | Object data =>
      case_id ← jf_case_id data;
      case_name ← jf_case_name data;
      created_date ← jf_created_date data;
      default_updated ← jf_created_date data;
      let last_updated := default default_updated (jf_last_updated data) in
      document_count ← document_count (jf_documents data);
      Some {| cs_case_id := case_id;
              cs_case_name := case_name;
              cs_created_date := created_date;
              cs_last_updated := last_updated;
              cs_document_count := document_count |}
  end.

(** [s.endswith(suffix)]. *)
Definition endswith (s suffix : string) : bool :=
  String.eqb (Str.drop (String.length s - String.length suffix) s) suffix
  && (String.length suffix <=? String.length s)%nat.

(** [case_data_dir.glob("*.json")]: the files whose names end in
    [.json], in the order in which the directory yields them. *)
Definition glob_json (fs : directory) : list (string * content) :=
  List.filter (fun kv => endswith kv.1 ".json") (map_to_list fs).

(** Strings compare by their code points. *)
Definition list_case_sessions (fs : directory) : list CaseSummary :=
  let cases := omap (fun kv => read_summary kv.2) (glob_json fs) in
  PySort.sort_desc String.ltb cs_last_updated cases.

End CaseManager.

(* ===================================================================== *)
(** * case_manager.py: the violation dicts as objects *)
(* ===================================================================== *)

(** [add_document_to_case] writes the hash and the file name into the
    violation dicts of the analysis it is given, and puts these same dicts
    into the violations of the case, while the document entry keeps the
    analysis.  In this module a violation dict is an object in a store,
    and an analysis, a document entry and a case hold references to it,
    so that a dict which is reached in two ways shows a write in both.
    [CaseManager.add_document_to_case] above works on the values. *)
Module Shared.

Abbreviation vloc := positive.
Abbreviation vstore := (gmap vloc Violation).

Record LegalAnalysis := {
  la_document_type : option LegalDocumentAnalyzer.DocumentType;
  la_legal_entities : option (Dict.t (list string));
  la_potential_violations : option (list vloc);
}.

Record DocEntry := {
  doc_pdf_hash : string;
  doc_upload_date : string;
  doc_document_analysis : CaseManager.DocumentAnalysis;
  doc_legal_analysis : LegalAnalysis;
  doc_filename : string;
}.

Record Case := {
  case_id : string;
  case_name : string;
  created_date : string;
  documents : Dict.t DocEntry;
  timeline : list TimelineEvent;
  entities : CaseManager.loc;
  violations : list vloc;
  contradictions : list CaseManager.Contradiction;
  actor_tracking : Dict.t CaseManager.Actor;
  last_updated : string;
}.

(** [violation['document_hash'] = pdf_hash] and
    [violation['document_name'] = doc_entry['filename']] on the dict at
    [l]. *)
Definition stamp_at (pdf_hash filename : string) (vs : vstore) (l : vloc)
    : vstore :=
  alter (CaseManager.stamp pdf_hash filename) l vs.

(** The store after the loop over the potential violations. *)
Definition stamp_all (pdf_hash filename : string) (refs : list vloc)
    (vs : vstore) : vstore :=
  fold_left (stamp_at pdf_hash filename) refs vs.

(** [upload_date] and [now] are the two readings of the clock. *)
Definition add_document_to_case (h : CaseManager.heap) (vs : vstore)
    (case_data : Case) (pdf_hash : string)
    (document_analysis : CaseManager.DocumentAnalysis)
    (legal_analysis : LegalAnalysis) (upload_date now : string)
    : CaseManager.heap * vstore * Case :=
  let filename :=
    default "Unknown" (CaseManager.da_filename document_analysis) in
  let doc_entry :=
    {| doc_pdf_hash := pdf_hash;
       doc_upload_date := upload_date;
       doc_document_analysis := document_analysis;
       doc_legal_analysis := legal_analysis;
       doc_filename := filename |} in
  let h' :=
    match la_legal_entities legal_analysis with
    | Some doc_entities =>
        alter (CaseManager.merge_entities doc_entities) (entities case_data) h
    | None => h
    end in
  let potential_violations :=
    default [] (la_potential_violations legal_analysis) in
  (h',
   stamp_all pdf_hash filename potential_violations vs,
   {| case_id := case_id case_data;
      case_name := case_name case_data;
      created_date := created_date case_data;
      documents := Dict.set (documents case_data) pdf_hash doc_entry;
      timeline := timeline case_data;
      entities := entities case_data;
      violations := violations case_data ++ potential_violations;
      contradictions := contradictions case_data;
      actor_tracking := actor_tracking case_data;
      last_updated := now |}).

End Shared.

(* ===================================================================== *)
(** * report_generator.py *)
(* ===================================================================== *)

Module ReportGenerator.

(** [_calculate_risk_level]. *)
Definition _calculate_risk_level (violations : list Violation) : string :=
  match violations with
  | [] => "Low"
  | _ =>
      let high_count :=
        length (filter (fun v => v_severity v = Some "high") violations) in
      let medium_count :=
        length (filter (fun v => v_severity v = Some "medium") violations) in
      if (3 <=? high_count)%nat then "Critical"
      else if ((1 <=? high_count) || (5 <=? medium_count))%nat then "High"
      else if (2 <=? medium_count)%nat then "Medium"
      else "Low"
  end.

(** [_get_severity_breakdown]; [None] is the [KeyError] of
    [breakdown[severity] += 1]. *)
Fixpoint breakdown_loop (breakdown : Dict.t Z) (violations : list Violation)
    : option (Dict.t Z) :=
  match violations with
  | [] => Some breakdown
  | v :: rest =>
      let severity := default "low" (v_severity v) in
      match Dict.get breakdown severity with
      | Some n => breakdown_loop (Dict.set breakdown severity (n + 1)) rest
      | None => None
      end
  end.

Definition _get_severity_breakdown (violations : list Violation)
    : option (Dict.t Z) :=
  breakdown_loop [("high", 0); ("medium", 0); ("low", 0)] violations.

(** ** export_case_data *)

Record ExportedDocument := {
  xd_hash : string;
  xd_filename : string;
  xd_upload_date : string;
  xd_document_type : string;
  xd_violation_count : Z;
}.

Record Statistics := {
  st_total_documents : Z;
  st_total_violations : Z;
  st_severity_breakdown : Dict.t Z;
  st_risk_level : string;
}.

Record ExportData := {
  x_case_id : string;
  x_case_name : string;
  x_created_date : string;
  x_last_updated : string;
  x_export_date : string;
  x_documents : list ExportedDocument;
  x_violations : list Violation;
  x_timeline : list TimelineEvent;
  x_entities : Dict.t (list string);
  x_actor_tracking : Dict.t CaseManager.Actor;
  x_statistics : Statistics;
}.

(** [list(v) if isinstance(v, set) else v]. *)
Definition entity_list (v : CaseManager.entval) : list string :=
  match v with
  | CaseManager.ESet s => CaseManager.list_of_set s
  | CaseManager.EList l => l
  end.

(** The entry appended for one document. *)
Definition export_document (violations : list Violation)
    (kv : string * CaseManager.DocEntry) : ExportedDocument :=
  let (doc_hash, doc_info) := kv in
  {| xd_hash := doc_hash;
     xd_filename := CaseManager.doc_filename doc_info;
     xd_upload_date := CaseManager.doc_upload_date doc_info;
     xd_document_type :=
       CaseManager.doc_type_of (CaseManager.doc_legal_analysis doc_info);
     xd_violation_count :=
       Z.of_nat (length (filter (fun v => v_document_hash v = Some doc_hash)
                                violations)) |}.

(** [now] is [datetime.now().isoformat()]; [None] is the [KeyError] of
    [_get_severity_breakdown]. *)
Definition export_case_data (h : CaseManager.heap)
    (case_data : CaseManager.Case) (now : string) : option ExportData :=
  let violations := CaseManager.violations case_data in
  match _get_severity_breakdown violations with
  | None => None
  | Some breakdown =>
      Some
        {| x_case_id := CaseManager.case_id case_data;
           x_case_name := CaseManager.case_name case_data;
           x_created_date := CaseManager.created_date case_data;
           x_last_updated := CaseManager.last_updated case_data;
           x_export_date := now;
           x_documents :=
             map (export_document violations)
                 (CaseManager.documents case_data);
           x_violations := violations;
           x_timeline := CaseManager.timeline case_data;
           x_entities :=
             map (fun '(k, v) => (k, entity_list v))
                 (CaseManager.entities_of h case_data);
           x_actor_tracking := CaseManager.actor_tracking case_data;
           x_statistics :=
             {| st_total_documents :=
                  Z.of_nat (length (CaseManager.documents case_data));
                st_total_violations := Z.of_nat (length violations);
                st_severity_breakdown := breakdown;
                st_risk_level := _calculate_risk_level violations |} |}
  end.

(** ** _generate_recommendations *)

(** [sep.join(l)]. *)
Definition join (sep : string) (l : list string) : string :=
  match l with
  | [] => ""
  | x :: rest => fold_left (fun acc y => acc +:+ sep +:+ y) rest x
  end.

Definition consult_attorney : string :=
  "Immediately consult with a qualified family law attorney regarding the constitutional violations identified".

Definition document_violations : string :=
  "Document all high-severity violations with supporting evidence for potential legal challenge".

Definition comprehensive_motion : string :=
  "Consider filing a comprehensive motion addressing the multiple procedural violations".

Definition request_recusal (names : list string) : string :=
  "Request recusal or investigation of repeat violators: "
  +:+ join ", " names.

Definition timeline_motion : string :=
  "File motion addressing timeline and deadline violations".

(** The section sign is the code point U+00A7. *)
Definition civil_rights_action : string :=
  "Consider federal civil rights action under 42 U.S.C. "
  +:+ String "167" " 1983 for due process violations".

Definition continue_monitoring : string :=
  "Continue monitoring case for procedural compliance".

Definition maintain_records : string :=
  "Maintain detailed records of all court proceedings and communications".

Definition _generate_recommendations (violations : list Violation)
    (actor_tracking : Dict.t CaseManager.Actor) : list string :=
  let recommendations := [] in
  let high_violations :=
    filter (fun v => v_severity v = Some "high") violations in
  let recommendations :=
    match high_violations with
    | [] => recommendations
    | _ => recommendations ++ [consult_attorney; document_violations]
    end in
  let recommendations :=
    if (10 <? length violations)%nat
    then recommendations ++ [comprehensive_motion]
    else recommendations in
  let recommendations :=
    match actor_tracking with
    | [] => recommendations
    | _ =>
        let high_score_actors :=
          map fst
            (List.filter (fun kv => 5 <? CaseManager.act_severity_score kv.2)
                         actor_tracking) in
        match high_score_actors with
        | [] => recommendations
        | _ => recommendations ++ [request_recusal (take 3 high_score_actors)]
        end
    end in
  let timeline_violations :=
    List.filter (fun v => Str.contains "timeline" (Str.lower (v_type v)))
                violations in
  let recommendations :=
    match timeline_violations with
    | [] => recommendations
    | _ => recommendations ++ [timeline_motion]
    end in
  let due_process_violations :=
    List.filter (fun v => Str.contains "due_process" (Str.lower (v_type v)))
                violations in
  let recommendations :=
    match due_process_violations with
    | [] => recommendations
    | _ => recommendations ++ [civil_rights_action]
    end in
  match recommendations with
  | [] => [continue_monitoring; maintain_records]
  | _ => recommendations
  end.

End ReportGenerator.

(* ===================================================================== *)
(** * global_search.py *)
(* ===================================================================== *)

Module GlobalSearch.

(** ** search_violations *)

(** An entry of [violation_by_doc]. *)
Record DocGroup := {
  dg_document_name : string;
  dg_violations : list Violation;
}.

Record ViolationSearch := {
  vs_violation_type : string;
  vs_total_violations : Z;
  vs_severity_breakdown : Dict.t Z;
  vs_violations_by_document : Dict.t DocGroup;
  vs_timestamp : string;
}.

Definition filter_violations (violations : list Violation)
    (violation_type : string) : list Violation :=
  if String.eqb violation_type "all" then violations
  else List.filter (fun v => String.eqb (Str.lower (v_type v))
                                        (Str.lower violation_type))
                   violations.

(** One round of the loop that groups by document. *)
Definition group_step (violation_by_doc : Dict.t DocGroup)
    (violation : Violation) : Dict.t DocGroup :=
  let doc_hash := default "unknown" (v_document_hash violation) in
  let violation_by_doc :=
    match Dict.get violation_by_doc doc_hash with
    | Some _ => violation_by_doc
    | None =>
        Dict.set violation_by_doc doc_hash
          {| dg_document_name :=
               default "Unknown" (v_document_name violation);
             dg_violations := [] |}
    end in
  match Dict.get violation_by_doc doc_hash with
  | Some g =>
      Dict.set violation_by_doc doc_hash
        {| dg_document_name := dg_document_name g;
           dg_violations := dg_violations g ++ [violation] |}
  | None => violation_by_doc
  end.

(** The loop that counts by severity; [None] is the [KeyError] of
    [severity_counts[severity] += 1]. *)
Fixpoint count_loop (severity_counts : Dict.t Z)
    (violations : list Violation) : option (Dict.t Z) :=
  match violations with
  | [] => Some severity_counts
  | violation :: rest =>
      let severity := default "low" (v_severity violation) in
      match Dict.get severity_counts severity with
      | Some n => count_loop (Dict.set severity_counts severity (n + 1)) rest
      | None => None
      end
  end.

(** [now] is [datetime.now().isoformat()]. *)
Definition search_violations (case_data : CaseManager.Case)
    (violation_type now : string) : option ViolationSearch :=
  let violations := CaseManager.violations case_data in
  let filtered_violations := filter_violations violations violation_type in
  let violation_by_doc := fold_left group_step filtered_violations [] in
  match count_loop [("high", 0); ("medium", 0); ("low", 0)]
                   filtered_violations with
  | None => None
  | Some severity_counts =>
      Some {| vs_violation_type := violation_type;
              vs_total_violations := Z.of_nat (length filtered_violations);
              vs_severity_breakdown := severity_counts;
              vs_violations_by_document := violation_by_doc;
              vs_timestamp := now |}
  end.

End GlobalSearch.

(* ===================================================================== *)
(** * The notions of the specification *)
(* ===================================================================== *)

(** The definitions of this part say in the words of the specification
    what the code is compared with below. *)

(** ** Violation detection *)

(** Two violations are duplicates of one another when their types and the
    first 50 characters of their contexts are the same. *)
Definition same_kind (v w : Violation) : Prop :=
  v_type v = v_type w
  /\ Str.take 50 (default "" (v_context v))
     = Str.take 50 (default "" (v_context w)).

#[global] Instance same_kind_dec (v w : Violation) : Decision (same_kind v w).
Proof. unfold same_kind. apply _. Defined.

(** The records of [vs] that have no duplicate before them, in [before]
    or in [vs] itself. *)
Fixpoint first_of_kind (before vs : list Violation) : list Violation :=
  match vs with
  | [] => []
  | v :: vs' =>
      (if decide (Exists (same_kind v) before) then [] else [v])
      ++ first_of_kind (before ++ [v]) vs'
  end.

(** [a] may stand in front of [b] in a list sorted by severity score,
    highest first: both carry a score under 'severity_score', and that of
    [a] is not the smaller one. *)
Definition score_not_below (a b : Violation) : Prop :=
  exists sa sb : Z,
    v_severity_score a = Some sa /\ v_severity_score b = Some sb /\ sb <= sa.

(** The three pattern tables together, and the violation types they
    define. *)
Definition all_tables : Dict.t ViolationDetector.PatternInfo :=
  ViolationDetector.violation_patterns
  ++ ViolationDetector.cps_violations
  ++ ViolationDetector.family_court_violations.

Definition type_names : list string := Dict.keys all_tables.

(** ** Gaps in a timeline *)

(** The consecutive pairs of a list: (previous, current). *)
Definition adjacent_pairs {A : Type} (l : list A) : list (A * A) :=
  zip l (tail l).

(** The day delta of a pair of events, when both dates are present. *)
Definition gap_days (pair : TimelineEvent * TimelineEvent) : option Z :=
  match ev_date pair.1, ev_date pair.2 with
  | Some prev, Some cur => Some (Datetime.days (Datetime.sub cur prev))
  | _, _ => None
  end.

(** Both dates are present and the delta is more than 180 days. *)
Definition excessive_gap (pair : TimelineEvent * TimelineEvent) : bool :=
  match gap_days pair with
  | Some delta => 180 <? delta
  | None => false
  end.

(** What the loop body of [analyze_timeline_violations] does with a pair
    (previous, current). *)
Definition gap_of_pair (pair : timeline_entry * timeline_entry)
    : option (list TimelineViolation) :=
  ViolationDetector.gap_step [pair.1; pair.2] 1.

(** A pair of events as [generate_timeline] makes them. *)
Definition generated_pair (pair : TimelineEvent * TimelineEvent)
    : timeline_entry * timeline_entry :=
  (Generated pair.1, Generated pair.2).

(** The timeline of a case in the session after the case was saved and
    loaded. *)
Definition reloaded_timeline (timeline : list TimelineEvent)
    : list timeline_entry :=
  map (fun event => Reloaded (CaseManager.save_event event)) timeline.

(** ** The timeline *)

(** [a] is not after [b]. *)
Definition date_le (a b : Datetime.datetime) : Prop :=
  Datetime.ltb b a = false.

(** The date strings of the documents of a case, in the order in which
    [generate_timeline] reads them. *)
Definition all_date_strings (docs : Dict.t CaseManager.DocEntry)
    : list string :=
  flat_map (fun kv => default [] (CaseManager.doc_entity kv.2 "dates")) docs.

(** ** The classifier *)

(** The keyword score of a candidate type in a lowered text. *)
Definition type_score (text_lower : string) (entry : string * list string) : Z :=
  LegalDocumentAnalyzer.keyword_score text_lower entry.2.

(** The sum of the scores of all candidate types. *)
Definition total_type_score (text_lower : string) : Z :=
  LegalDocumentAnalyzer.sum
    (map (type_score text_lower) LegalDocumentAnalyzer.document_types).

(** The entry of [scores] that a candidate type contributes. *)
Definition positive_entry (text_lower : string) (entry : string * list string)
    : option (string * Z) :=
  if 0 <? type_score text_lower entry
  then Some (entry.1, type_score text_lower entry) else None.

(** The answer of the classifier when no keyword occurs. *)
Definition unknown_type : LegalDocumentAnalyzer.DocumentType :=
  {| LegalDocumentAnalyzer.dt_type := "unknown";
     LegalDocumentAnalyzer.dt_confidence := 0;
     LegalDocumentAnalyzer.dt_all_scores := None |}.

(** ** Contradictions *)

(** The case numbers extracted from a document. *)
Definition case_numbers_of (doc : CaseManager.DocEntry) : list string :=
  default [] (CaseManager.doc_entity doc "case_numbers").

(** The reference to a document of the case. *)
Definition ref_of (kv : string * CaseManager.DocEntry) : CaseManager.DocRef :=
  {| CaseManager.ref_document := CaseManager.doc_filename kv.2;
     CaseManager.ref_hash := kv.1 |}.

(** The (value, document) pairs in the order in which the grouping loop
    of [detect_contradictions] meets them. *)
Definition numbered_refs (docs : Dict.t CaseManager.DocEntry)
    : list (string * CaseManager.DocRef) :=
  flat_map (fun kv => map (fun v => (v, ref_of kv)) (case_numbers_of kv.2)) docs.

(** The grouping loops of [detect_contradictions], as one loop over the
    (value, document) pairs. *)
Definition group_items (items : list (string * CaseManager.DocRef))
    (groups : Dict.t (list CaseManager.DocRef))
    : Dict.t (list CaseManager.DocRef) :=
  fold_left (fun g it => CaseManager.group_append g it.1 it.2) items groups.

(** The references filed under one value. *)
Definition refs_of_value (items : list (string * CaseManager.DocRef))
    (n : string) : list CaseManager.DocRef :=
  flat_map (fun it => if String.eqb it.1 n then [it.2] else []) items.

(** The documents in which a case number appears, one entry for each
    appearance. *)
Definition occurrences (docs : Dict.t CaseManager.DocEntry) (n : string)
    : list CaseManager.DocRef :=
  refs_of_value (numbered_refs docs) n.

(** The case number appears in two documents whose classified types
    differ. *)
Definition types_differ (docs : Dict.t CaseManager.DocEntry) (n : string)
    : Prop :=
  exists kv1 kv2,
    kv1 ∈ docs /\ kv2 ∈ docs
    /\ n ∈ case_numbers_of kv1.2 /\ n ∈ case_numbers_of kv2.2
    /\ CaseManager.doc_type_of (CaseManager.doc_legal_analysis kv1.2)
       <> CaseManager.doc_type_of (CaseManager.doc_legal_analysis kv2.2).

(** The contradiction reported for a case number. *)
Definition inconsistency (docs : Dict.t CaseManager.DocEntry) (n : string)
    : CaseManager.Contradiction :=
  {| CaseManager.con_type := "case_number_inconsistency";
     CaseManager.con_severity := "medium";
     CaseManager.con_description :=
       "Case number " +:+ n +:+ " appears in documents of different types";
     CaseManager.con_documents :=
       map CaseManager.ref_document (occurrences docs n);
     CaseManager.con_case_number := n |}.

(** ** Saving and loading *)

(** The entity value that reading a saved case gives back for an entity
    value of the case. *)
Definition reloaded (v : CaseManager.entval) : CaseManager.loaded_entity :=
  CaseManager.LSet (CaseManager.members v).

(* ===================================================================== *)
(** * Example data *)
(* ===================================================================== *)

(** The text of the deduplication scenario. *)
Definition scenario_text : string :=
  "The court found a due process violation in denying notice. Due process violation occurred again here.".

(** A text in which the search finds, in the order of the tables, a
    violation of high, of medium and two of low severity, and then, of the
    family-court table, one of medium and one of high severity. *)
Definition mixed_text : string :=
  "In family court: a constitutional violation, a missed hearing, a filing error, a deadline missed, contempt of court and judicial bias.".

(** An event of a document at a date. *)
Definition event_at (document : string) (y m d : Z) : TimelineEvent :=
  {| ev_date := Some (Datetime.of_date y m d);
     ev_date_str := "";
     ev_document := document;
     ev_document_hash := document;
     ev_document_type := "unknown";
     ev_context := "Referenced in " +:+ document |}.

(** A document entry with the given file name (also its hash), extracted
    entities and classified type. *)
Definition doc_with (name : string) (ents : Dict.t (list string))
    (doc_type : option string) : string * CaseManager.DocEntry :=
  (name,
   {| CaseManager.doc_pdf_hash := name;
      CaseManager.doc_upload_date := "2024-01-01T00:00:00";
      CaseManager.doc_document_analysis :=
        {| CaseManager.da_filename := Some name |};
      CaseManager.doc_legal_analysis :=
        {| CaseManager.la_document_type :=
             (fun t => {| LegalDocumentAnalyzer.dt_type := t;
                          LegalDocumentAnalyzer.dt_confidence := 1;
                          LegalDocumentAnalyzer.dt_all_scores := None |})
               <$> doc_type;
           CaseManager.la_legal_entities := Some ents;
           CaseManager.la_potential_violations := None |};
      CaseManager.doc_filename := name |}).

(** A case with the given documents and timeline, and nothing else. *)
Definition case_with (docs : Dict.t CaseManager.DocEntry)
    (tl : list TimelineEvent) : CaseManager.Case :=
  {| CaseManager.case_id := "c0ffee00";
     CaseManager.case_name := "case";
     CaseManager.created_date := "2024-01-01T00:00:00";
     CaseManager.documents := docs;
     CaseManager.timeline := tl;
     CaseManager.entities := 1%positive;
     CaseManager.violations := [];
     CaseManager.contradictions := [];
     CaseManager.actor_tracking := [];
     CaseManager.last_updated := "2024-01-01T00:00:00" |}.

(** The three documents of the timeline scenario. *)
Definition three_documents : Dict.t CaseManager.DocEntry :=
  [ doc_with "a.pdf" [("dates", ["01/15/2023"])] None;
    doc_with "b.pdf" [("dates", ["March 3, 2022"])] None;
    doc_with "c.pdf" [("dates", ["2021-06-01"])] None ].

(** Two documents that share a case number: a motion and an order, and
    two motions. *)
Definition motion_and_order : Dict.t CaseManager.DocEntry :=
  [ doc_with "motion.pdf" [("case_numbers", ["CV-2023-001"])] (Some "motion");
    doc_with "order.pdf" [("case_numbers", ["CV-2023-001"])] (Some "order") ].

Definition two_motions : Dict.t CaseManager.DocEntry :=
  [ doc_with "motion1.pdf" [("case_numbers", ["CV-2023-001"])] (Some "motion");
    doc_with "motion2.pdf" [("case_numbers", ["CV-2023-001"])] (Some "motion") ].

(** The digest used for the identifiers of the example cases. *)
Definition example_digest (s : string) : string := "0123456789abcdef".

(** A new case in an empty heap. *)
Definition new_case : CaseManager.heap * CaseManager.Case :=
  let '(h, (_, c)) :=
    CaseManager.create_case_session example_digest ∅ "Doe v. Roe"
      "2024-01-01T00:00:00.000001" "2024-01-01T00:00:00.000002"
      "2024-01-01T00:00:00.000003" in
  (h, c).

(** A legal analysis with the given extracted entities and classified
    type, and no violations. *)
Definition analysis_with (ents : Dict.t (list string)) (doc_type : option string)
    : CaseManager.LegalAnalysis :=
  CaseManager.doc_legal_analysis (doc_with "" ents doc_type).2.


(** A violation of a document, as [add_document_to_case] leaves it. *)
Definition violation_of (doc_hash sev : string) : Violation :=
  {| v_type := "due process violation";
     v_description := None;
     v_severity := Some sev;
     v_context := Some "a due process violation occurred";
     v_pattern_matched := None;
     v_position := None;
     v_severity_score := None;
     v_document_hash := Some doc_hash;
     v_document_name := Some doc_hash |}.

(** A case with two documents that name judges, and three violations. *)
Definition case_with_actors : CaseManager.Case :=
  {| CaseManager.case_id := "c0ffee00";
     CaseManager.case_name := "case";
     CaseManager.created_date := "2024-01-01T00:00:00";
     CaseManager.documents :=
       [ doc_with "a.pdf" [("judge_names", ["Smith"; "Jones"]);
                           ("case_numbers", ["CV-1"])] (Some "order");
         doc_with "b.pdf" [("judge_names", ["Smith"]);
                           ("case_numbers", ["CV-1"])] (Some "motion") ];
     CaseManager.timeline := [];
     CaseManager.entities := 1%positive;
     CaseManager.violations :=
       [ violation_of "a.pdf" "high"; violation_of "b.pdf" "medium";
         violation_of "a.pdf" "low" ];
     CaseManager.contradictions := [];
     CaseManager.actor_tracking := [];
     CaseManager.last_updated := "2024-01-01T00:00:00" |}.

(** A heap with the entities of a case at location 1: a set and a list. *)
Definition heap_with_entities : CaseManager.heap :=
  {[ 1%positive := [("judges", CaseManager.ESet {[ "Smith"; "Jones" ]});
                    ("case_numbers", CaseManager.EList ["CV-1"; "CV-1"])] ]}.

(* ===================================================================== *)
(** * Notions for the further properties *)
(* ===================================================================== *)

(** A regular expression that matches no empty text. *)
Fixpoint nonempty (r : Re.regex) : bool :=
  match r with
  | Re.Eps => false
  | Re.Chr _ => true
  | Re.Cls _ => true
  | Re.Cat r1 r2 => nonempty r1 || nonempty r2
  | Re.Alt r1 r2 => nonempty r1 && nonempty r2
  | Re.Opt _ => false
  | Re.Plus _ => true
  | Re.Group _ r1 => nonempty r1
  end.

(** The severity under which the counting loops file a violation:
    [violation.get('severity', 'low')]. *)
Definition sev_of (v : Violation) : string := default "low" (v_severity v).

(** The severity is one of the three keys of the counters. *)
Definition known_severity (v : Violation) : Prop :=
  sev_of v = "high" \/ sev_of v = "medium" \/ sev_of v = "low".

#[global] Instance known_severity_dec (v : Violation) :
  Decision (known_severity v).
Proof. unfold known_severity. apply _. Defined.

(** The number of violations filed under a severity. *)
Definition count_sev (sev : string) (vs : list Violation) : Z :=
  Z.of_nat (length (filter (fun v => sev_of v = sev) vs)).

(** The sum of [violation.get('severity_score', 1)]. *)
Definition score_sum (vs : list Violation) : Z :=
  fold_right Z.add 0 (map (fun v => default 1 (v_severity_score v)) vs).

(** The sum of the severity scores that [track_repeat_actors] adds. *)
Definition actor_score_sum (vs : list Violation) : Z :=
  fold_right Z.add 0 (map CaseManager.actor_score vs).

(** Every violation of the case names a document of the case. *)
Definition attributed (c : CaseManager.Case) : Prop :=
  Forall (fun v => exists h, v_document_hash v = Some h
                             /\ h ∈ Dict.keys (CaseManager.documents c))
         (CaseManager.violations c).

(** The document entry that [add_document_to_case] files. *)
Definition filed_entry (pdf_hash : string)
    (document_analysis : CaseManager.DocumentAnalysis)
    (legal_analysis : CaseManager.LegalAnalysis) (upload_date : string)
    : CaseManager.DocEntry :=
  let filename := default "Unknown" (CaseManager.da_filename document_analysis) in
  {| CaseManager.doc_pdf_hash := pdf_hash;
     CaseManager.doc_upload_date := upload_date;
     CaseManager.doc_document_analysis := document_analysis;
     CaseManager.doc_legal_analysis :=
       {| CaseManager.la_document_type :=
            CaseManager.la_document_type legal_analysis;
          CaseManager.la_legal_entities :=
            CaseManager.la_legal_entities legal_analysis;
          CaseManager.la_potential_violations :=
            map (CaseManager.stamp pdf_hash filename)
              <$> CaseManager.la_potential_violations legal_analysis |};
     CaseManager.doc_filename := filename |}.

(** The violations that [add_document_to_case] appends. *)
Definition filed_violations (pdf_hash : string)
    (document_analysis : CaseManager.DocumentAnalysis)
    (legal_analysis : CaseManager.LegalAnalysis) : list Violation :=
  map (CaseManager.stamp pdf_hash
         (default "Unknown" (CaseManager.da_filename document_analysis)))
      (default [] (CaseManager.la_potential_violations legal_analysis)).

(** The day number of a date. *)
Definition ordinal_of (e : TimelineEvent) : Z :=
  Datetime.toordinal (CaseManager.date_key e).


(** The condition under which [detect_violations] adds the CPS/DHR
    table, and the one for the family-court table. *)
Definition cps_selected (text document_type : string) : bool :=
  Str.contains "cps" (Str.lower document_type)
  || existsb (fun term => Str.contains term (Str.lower text))
       ["cps"; "child protective"; "dhr"].

Definition family_selected (text document_type : string) : bool :=
  Str.contains "custody" (Str.lower document_type)
  || Str.contains "family court" (Str.lower text).

(** The violation is of a type of the general table. *)
Definition general_type (v : Violation) : Prop :=
  v_type v ∈ Dict.keys ViolationDetector.violation_patterns.

#[global] Instance general_type_dec (v : Violation) : Decision (general_type v).
Proof. unfold general_type. apply _. Defined.

(** The records that the search loop makes from one table. *)
Definition table_matches (text : string)
    (table : Dict.t ViolationDetector.PatternInfo) : list Violation :=
  flat_map (fun '(violation_type, violation_info) =>
    flat_map (fun pattern =>
      map (ViolationDetector.match_record text (Str.lower text)
             violation_type violation_info)
          (ViolationDetector.pattern_matches pattern (Str.lower text)))
      (ViolationDetector.patterns violation_info))
    table.


(** The entry that the heatmap keeps for a type: the number of violations
    of the type, with the severity and the description of the first. *)
Definition type_stat (t : string) (vs : list Violation)
    : option ViolationDetector.TypeStat :=
  match filter (fun v => v_type v = t) vs with
  | [] => None
  | v :: rest =>
      Some {| ViolationDetector.ts_count := Z.of_nat (length (v :: rest));
              ViolationDetector.ts_severity := sev_of v;
              ViolationDetector.ts_description :=
                default "" (v_description v) |}
  end.


(** What holds of every actor while [track_repeat_actors] collects:
    the actor is a judge named by a document of the case, with at least
    one violation, all of them violations of the list, and the score is
    the sum of their scores. *)
Definition tracked (docs : Dict.t CaseManager.DocEntry) (vs : list Violation)
    (kv : string * CaseManager.ActorAcc) : Prop :=
  CaseManager.acc_type kv.2 = "judge"
  /\ CaseManager.acc_violations kv.2 <> []
  /\ Forall (fun v => v ∈ vs) (CaseManager.acc_violations kv.2)
  /\ CaseManager.acc_severity_score kv.2 = actor_score_sum (CaseManager.acc_violations kv.2)
  /\ (exists h doc judges,
        Dict.get docs h = Some doc
        /\ CaseManager.doc_entity doc "judge_names" = Some judges
        /\ kv.1 ∈ judges).


(** The document under which [search_violations] files a violation. *)
Definition filed_under (v : Violation) : string :=
  default "unknown" (v_document_hash v).

(** The group that [search_violations] keeps for a document: its
    violations in order, under the document name of the first. *)
Definition group_of (k : string) (vs : list Violation)
    : option GlobalSearch.DocGroup :=
  match filter (fun v => filed_under v = k) vs with
  | [] => None
  | v :: rest =>
      Some {| GlobalSearch.dg_document_name :=
                default "Unknown" (v_document_name v);
              GlobalSearch.dg_violations := v :: rest |}
  end.


(** ** Reading a case through the store of violation dicts *)

(** The violation dicts that a list of references shows. *)
Definition read_violations (vs : Shared.vstore) (refs : list Shared.vloc)
    : list Violation :=
  omap (fun l => vs !! l) refs.

Definition read_analysis (vs : Shared.vstore) (la : Shared.LegalAnalysis)
    : CaseManager.LegalAnalysis :=
  {| CaseManager.la_document_type := Shared.la_document_type la;
     CaseManager.la_legal_entities := Shared.la_legal_entities la;
     CaseManager.la_potential_violations :=
       read_violations vs <$> Shared.la_potential_violations la |}.

Definition read_entry (vs : Shared.vstore) (e : Shared.DocEntry)
    : CaseManager.DocEntry :=
  {| CaseManager.doc_pdf_hash := Shared.doc_pdf_hash e;
     CaseManager.doc_upload_date := Shared.doc_upload_date e;
     CaseManager.doc_document_analysis := Shared.doc_document_analysis e;
     CaseManager.doc_legal_analysis :=
       read_analysis vs (Shared.doc_legal_analysis e);
     CaseManager.doc_filename := Shared.doc_filename e |}.

(** The case as a value: every reference replaced by the dict it refers
    to. *)
Definition read_case (vs : Shared.vstore) (c : Shared.Case)
    : CaseManager.Case :=
  {| CaseManager.case_id := Shared.case_id c;
     CaseManager.case_name := Shared.case_name c;
     CaseManager.created_date := Shared.created_date c;
     CaseManager.documents :=
       map (fun kv => (kv.1, read_entry vs kv.2)) (Shared.documents c);
     CaseManager.timeline := Shared.timeline c;
     CaseManager.entities := Shared.entities c;
     CaseManager.violations := read_violations vs (Shared.violations c);
     CaseManager.contradictions := Shared.contradictions c;
     CaseManager.actor_tracking := Shared.actor_tracking c;
     CaseManager.last_updated := Shared.last_updated c |}.

(** The references of an analysis, and all references that a case
    holds: in its violations and in the analyses of its documents. *)
Definition refs_of_analysis (la : Shared.LegalAnalysis) : list Shared.vloc :=
  default [] (Shared.la_potential_violations la).

Definition refs_of_case (c : Shared.Case) : list Shared.vloc :=
  Shared.violations c
  ++ flat_map (fun kv => refs_of_analysis (Shared.doc_legal_analysis kv.2))
              (Shared.documents c).

(** An analysis with one violation, the dict at location 1, and a case
    without documents. *)
Definition one_violation_store : Shared.vstore :=
  {[ 1%positive :=
       {| v_type := "procedural error";
          v_description := None;
          v_severity := Some "medium";
          v_context := Some "a procedural error";
          v_pattern_matched := None;
          v_position := None;
          v_severity_score := None;
          v_document_hash := None;
          v_document_name := None |} ]}.

Definition one_violation_analysis : Shared.LegalAnalysis :=
  {| Shared.la_document_type := None;
     Shared.la_legal_entities := None;
     Shared.la_potential_violations := Some [1%positive] |}.

Definition empty_shared_case : Shared.Case :=
  {| Shared.case_id := "c0ffee00";
     Shared.case_name := "case";
     Shared.created_date := "2024-01-01T00:00:00";
     Shared.documents := [];
     Shared.timeline := [];
     Shared.entities := 1%positive;
     Shared.violations := [];
     Shared.contradictions := [];
     Shared.actor_tracking := [];
     Shared.last_updated := "2024-01-01T00:00:00" |}.

(** The same analysis filed under the hash 'h1' and then under 'h2'. *)
Definition filed_twice
    : CaseManager.heap * Shared.vstore * Shared.Case :=
  let '(h1, vs1, c1) :=
    Shared.add_document_to_case ∅ one_violation_store empty_shared_case "h1"
      {| CaseManager.da_filename := Some "first.pdf" |}
      one_violation_analysis "t1" "t2" in
  Shared.add_document_to_case h1 vs1 c1 "h2"
    {| CaseManager.da_filename := Some "second.pdf" |}
    one_violation_analysis "t3" "t4".

(** The ids that [create_case_session] makes are digits of a hexadecimal
    number in lower case. *)
Definition hex_digit (c : ascii) : bool :=
  let n := nat_of_ascii c in
  ((48 <=? n) && (n <=? 57) || (97 <=? n) && (n <=? 102))%nat.

Definition hex_id (s : string) : bool :=
  negb (String.eqb s "") && forallb hex_digit (list_ascii_of_string s).

(** An object with all the keys that [list_case_sessions] reads. *)
Definition complete_fields (case_id last_updated : string)
    : CaseManager.JsonFields :=
  {| CaseManager.jf_case_id := Some case_id;
     CaseManager.jf_case_name := Some "Doe";
     CaseManager.jf_created_date := Some "2024-01-01T09:00:00";
     CaseManager.jf_last_updated := Some last_updated;
     CaseManager.jf_documents := Some (CaseManager.Sized 2) |}.

(** A directory with a complete file, a file that cannot be read, a file
    without a name of the case, a file with the three keys that are
    needed and no other, a file whose documents have no length, and a
    complete file whose name does not end in '.json'. *)
Definition mixed_directory : CaseManager.directory :=
  <[ "0000000a.json" :=
       CaseManager.Object (complete_fields "0000000a" "2024-01-02T09:00:00") ]>
  (<[ "0000000b.json" := CaseManager.Unreadable ]>
  (<[ "0000000c.json" :=
        CaseManager.Object
          {| CaseManager.jf_case_id := Some "0000000c";
             CaseManager.jf_case_name := None;
             CaseManager.jf_created_date := Some "2024-03-01T09:00:00";
             CaseManager.jf_last_updated := Some "2024-03-02T09:00:00";
             CaseManager.jf_documents := Some (CaseManager.Sized 1) |} ]>
  (<[ "0000000d.json" :=
        CaseManager.Object
          {| CaseManager.jf_case_id := Some "0000000d";
             CaseManager.jf_case_name := Some "Roe";
             CaseManager.jf_created_date := Some "2024-02-01T09:00:00";
             CaseManager.jf_last_updated := None;
             CaseManager.jf_documents := None |} ]>
  (<[ "0000000e.json" :=
        CaseManager.Object
          {| CaseManager.jf_case_id := Some "0000000e";
             CaseManager.jf_case_name := Some "Poe";
             CaseManager.jf_created_date := Some "2024-04-01T09:00:00";
             CaseManager.jf_last_updated := Some "2024-04-02T09:00:00";
             CaseManager.jf_documents := Some CaseManager.Unsized |} ]>
  (<[ "notes.txt" :=
        CaseManager.Object (complete_fields "0000000f" "2024-05-02T09:00:00") ]>
   ∅))))).


(* ===================================================================== *)
(** * Properties *)
(* ===================================================================== *)

(** ** The library models on examples *)

Section Examples.

Example finditer_optional_parts :
  ViolationDetector.pattern_matches
    "removed?\s+without\s+(?:court\s+)?order"
    "x removed   without court order y remove without order"
  = [(2, 31); (34, 54)].
Proof. vm_compute. reflexivity. Qed.

Example finditer_no_overlap :
  ViolationDetector.pattern_matches "no\s+notice\s+provided"
    "no notice provided no notice  provided; no  notice"
  = [(0, 18); (19, 38)].
Proof. vm_compute. reflexivity. Qed.

Example count_without_overlap :
  Str.count "aaaaa" "aa" = 2 /\ Str.count "motion, Motion, motion" "motion" = 2.
Proof. split; reflexivity. Qed.

Example strip_and_lower :
  Str.strip "  Notice of HEARING
" = "Notice of HEARING"
  /\ Str.lower "Notice of HEARING" = "notice of hearing".
Proof. split; reflexivity. Qed.

(** The first format decides: month before day; a day-first reading only
    when the month-first one is no date; two-digit years pivot at 69. *)
Example parse_date_examples :
  CaseManager._parse_date "01/02/2023" = Some (Datetime.of_date 2023 1 2)
  /\ CaseManager._parse_date "13/02/2023" = Some (Datetime.of_date 2023 2 13)
  /\ CaseManager._parse_date " 3-4-68 " = Some (Datetime.of_date 2068 3 4)
  /\ CaseManager._parse_date "3-4-69" = Some (Datetime.of_date 1969 3 4)
  /\ CaseManager._parse_date "Feb 29, 2024" = Some (Datetime.of_date 2024 2 29)
  /\ CaseManager._parse_date "february 29 2023" = None
  /\ CaseManager._parse_date "SEPTEMBER  9,  1999"
     = Some (Datetime.of_date 1999 9 9)
  /\ CaseManager._parse_date "2021-06-01" = Some (Datetime.of_date 2021 6 1)
  /\ CaseManager._parse_date "June 2021" = None
  /\ CaseManager._parse_date "01/15/2023 10:00" = None.
Proof. repeat split; vm_compute; reflexivity. Qed.

Example day_numbers :
  Datetime.toordinal (Datetime.of_date 1 1 1) = 1
  /\ Datetime.toordinal (Datetime.of_date 2023 1 15) = 738535
  /\ Datetime.days (Datetime.sub (Datetime.of_date 2024 3 1)
                                 (Datetime.of_date 2024 2 1)) = 29.
Proof. repeat split; reflexivity. Qed.

End Examples.

(** ** Facts about strings *)

Section StrFacts.

Lemma append_nil (b : string) : "" +:+ b = b.
Proof. reflexivity. Qed.

Lemma append_cons (c : ascii) (a b : string) :
  String c a +:+ b = String c (a +:+ b).
Proof. reflexivity. Qed.

Lemma length_append (a b : string) :
  String.length (a +:+ b) = (String.length a + String.length b)%nat.
Proof.
  induction a as [|c a IH]; [done|].
  rewrite append_cons. simpl. by rewrite IH.
Qed.

Lemma append_assoc (a b c : string) : (a +:+ b) +:+ c = a +:+ (b +:+ c).
Proof.
  induction a as [|x a IH]; [done|].
  rewrite !append_cons. by f_equal.
Qed.

Lemma append_cancel_l (a x y : string) : a +:+ x = a +:+ y -> x = y.
Proof.
  induction a as [|c a IH]; [done|].
  rewrite !append_cons. intros [= H]; auto.
Qed.

Lemma startswith_same_length (a b : string) :
  String.length a = String.length b -> Str.startswith a b = true -> a = b.
Proof.
  revert b; induction a as [|x a IH]; intros [|y b]; simpl; try done.
  intros [= Hl] [Hxy Hs]%andb_prop.
  apply Ascii.eqb_eq in Hxy as ->. f_equal; auto.
Qed.

(** Two ways to split one string: one head is a prefix of the other. *)
Lemma append_eq_startswith (a b x y : string) :
  a +:+ x = b +:+ y ->
  Str.startswith a b = true \/ Str.startswith b a = true.
Proof.
  revert b; induction a as [|c a IH]; intros [|d b]; simpl; auto.
  rewrite !append_cons. intros [= -> H]. rewrite Ascii.eqb_refl. simpl. eauto.
Qed.

Lemma length_lower (s : string) : String.length (Str.lower s) = String.length s.
Proof. induction s; simpl; congruence. Qed.

End StrFacts.

(** ** Facts about lists *)

Lemma elem_of_flat_map {A B : Type} (f : A -> list B) (l : list A) (y : B) :
  y ∈ flat_map f l <-> exists x, x ∈ l /\ y ∈ f x.
Proof.
  rewrite list_elem_of_In, in_flat_map.
  by setoid_rewrite list_elem_of_In.
Qed.

Lemma Sorted_weaken {A : Type} (R1 R2 : A -> A -> Prop) (l : list A) :
  (forall a b, R1 a b -> R2 a b) -> Sorted R1 l -> Sorted R2 l.
Proof.
  intros HR. induction 1 as [|x l Hs IH Hhd]; constructor; [done|].
  destruct Hhd; constructor; auto.
Qed.

Lemma take_1_cases {A : Type} (l : list A) :
  take 1 l = [] \/ exists x, take 1 l = [x].
Proof. destruct l as [|x l]; [by left|right]. by exists x. Qed.

(** ** Facts about the stable sort *)

Section SortFacts.
Context {A : Type} (before : A -> A -> bool).

Lemma insert_perm (x : A) (l : list A) : PySort.insert before x l ≡ₚ x :: l.
Proof.
  induction l as [|y l IH]; simpl; [done|].
  destruct (before y x); [|done].
  rewrite IH. apply Permutation_swap.
Qed.

Lemma sort_perm (l : list A) : PySort.sort before l ≡ₚ l.
Proof.
  induction l as [|x l IH]; simpl; [done|].
  by rewrite insert_perm, IH.
Qed.

(** Items that never have to pass one another keep their order. *)
Lemma insert_filter (P : A -> Prop) `{!forall x, Decision (P x)}
    (x : A) (l : list A) :
  (forall y, P x -> P y -> before y x = false) ->
  filter P (PySort.insert before x l) = filter P (x :: l).
Proof.
  intros Hxy. induction l as [|y l IH]; simpl; [done|].
  destruct (before y x) eqn:Hb; [|done].
  rewrite filter_cons, IH, !filter_cons.
  destruct (decide (P y)) as [Hy|Hy]; [|done].
  destruct (decide (P x)) as [Hx|Hx]; [|done].
  rewrite (Hxy y Hx Hy) in Hb. done.
Qed.

Lemma sort_filter (P : A -> Prop) `{!forall x, Decision (P x)} (l : list A) :
  (forall x y, P x -> P y -> before y x = false) ->
  filter P (PySort.sort before l) = filter P l.
Proof.
  intros Hxy. induction l as [|x l IH]; simpl; [done|].
  rewrite insert_filter by eauto.
  by rewrite !filter_cons, IH.
Qed.

(** The result is in order when [before] is asymmetric. *)
Hypothesis before_asym : forall x y, before x y = true -> before y x = false.

Lemma insert_sorted (x : A) (l : list A) :
  Sorted (PySort.in_order before) l ->
  Sorted (PySort.in_order before) (PySort.insert before x l).
Proof.
  induction 1 as [|y l Hs IH Hhd]; simpl.
  - repeat constructor.
  - destruct (before y x) eqn:Hb.
    + constructor; [done|].
      destruct Hhd as [|z l Hyz]; simpl.
      * constructor. by apply before_asym.
      * destruct (before z x); constructor; [done|].
        by apply before_asym.
    + constructor; [by constructor|]. by constructor.
Qed.

Lemma sort_sorted (l : list A) :
  Sorted (PySort.in_order before) (PySort.sort before l).
Proof.
  induction l as [|x l IH]; simpl; [constructor|].
  by apply insert_sorted.
Qed.

End SortFacts.

(** ** The pattern tables *)

Section Tables.
Import ViolationDetector.

Lemma table_patterns_compile :
  forallb (fun kv => forallb (fun p => bool_decide (is_Some (Re.compile p)))
                             (patterns kv.2))
          all_tables = true.
Proof. vm_compute. reflexivity. Qed.

(** The selection is the general table, followed by the tables whose
    condition holds. *)
Lemma select_patterns_cases (text_lower document_type : string) :
  let sel := select_patterns text_lower document_type in
  sel = violation_patterns
  \/ sel = violation_patterns ++ cps_violations
  \/ sel = violation_patterns ++ family_court_violations
  \/ sel = all_tables.
Proof.
  unfold select_patterns.
  destruct (_ || _); destruct (_ || _); vm_compute; auto.
Qed.

Lemma select_patterns_in (text_lower document_type : string) kv :
  kv ∈ select_patterns text_lower document_type -> kv ∈ all_tables.
Proof.
  pose proof (select_patterns_cases text_lower document_type) as H.
  cbv zeta in H. unfold all_tables in *.
  destruct H as [-> | [-> | [-> | ->]]]; rewrite !elem_of_app; tauto.
Qed.

(** Every record of the search loop comes from an entry of the tables. *)
Lemma raw_matches_inv (text document_type : string) (v : Violation) :
  v ∈ raw_matches text document_type ->
  exists violation_type violation_info m,
    (violation_type, violation_info) ∈ all_tables
    /\ v = match_record text (Str.lower text) violation_type violation_info m.
Proof.
  unfold raw_matches. intros Hv.
  apply elem_of_flat_map in Hv as ([k info] & Hkv & Hv).
  apply elem_of_flat_map in Hv as (p & _ & Hv).
  apply list_elem_of_fmap in Hv as (m & -> & _).
  exists k, info, m. split; [|done].
  by eapply select_patterns_in.
Qed.

Lemma table_severities kv :
  kv ∈ all_tables ->
  severity kv.2 = "high" \/ severity kv.2 = "medium" \/ severity kv.2 = "low".
Proof.
  revert kv. apply Forall_forall. unfold all_tables.
  repeat (first [apply Forall_nil_2 | apply Forall_cons_2]); simpl; auto.
Qed.

(** No type name followed by the separator starts another one followed by
    the separator. *)
Lemma type_names_separate :
  forallb (fun t1 =>
    forallb (fun t2 =>
      implb (Str.startswith (t1 +:+ "_") (t2 +:+ "_")) (String.eqb t1 t2))
      type_names) type_names = true.
Proof. vm_compute. reflexivity. Qed.

Lemma type_names_key_inj (t1 t2 c1 c2 : string) :
  t1 ∈ type_names -> t2 ∈ type_names ->
  t1 +:+ "_" +:+ c1 = t2 +:+ "_" +:+ c2 -> t1 = t2 /\ c1 = c2.
Proof.
  intros H1 H2 Heq.
  assert (Hsep : forall a b, a ∈ type_names -> b ∈ type_names ->
            Str.startswith (a +:+ "_") (b +:+ "_") = true -> a = b).
  { intros a b Ha%list_elem_of_In Hb%list_elem_of_In Hs.
    pose proof type_names_separate as Hall.
    rewrite forallb_forall in Hall. specialize (Hall a Ha).
    rewrite forallb_forall in Hall. specialize (Hall b Hb).
    rewrite Hs in Hall. simpl in Hall. by apply String.eqb_eq. }
  assert (t1 = t2) as ->.
  { rewrite <- !append_assoc in Heq.
    destruct (append_eq_startswith _ _ _ _ Heq) as [Hs|Hs].
    - by apply Hsep.
    - symmetry. by apply Hsep. }
  split; [done|].
  by apply append_cancel_l, append_cancel_l in Heq.
Qed.

End Tables.

(** ** Deduplication *)

Section Dedup.
Import ViolationDetector.

#[local] Instance same_kind_equiv : Equivalence same_kind.
Proof.
  split.
  - by intros v.
  - intros v w [? ?]. by split.
  - intros u v w [? ?] [? ?]. split; congruence.
Qed.

Lemma same_kind_key (v w : Violation) :
  same_kind v w -> dedup_key v = dedup_key w.
Proof. intros [Ht Hc]. unfold dedup_key. by rewrite Ht, Hc. Qed.

(** On records whose types are types of the tables, the key tells the
    kinds apart. *)
Lemma key_same_kind (v w : Violation) :
  v_type v ∈ type_names -> v_type w ∈ type_names ->
  dedup_key v = dedup_key w -> same_kind v w.
Proof. intros Hv Hw Hk. by apply type_names_key_inj. Qed.

Lemma raw_matches_type (text document_type : string) (v : Violation) :
  v ∈ raw_matches text document_type -> v_type v ∈ type_names.
Proof.
  intros (k & info & [ms me] & Hin & ->)%raw_matches_inv. simpl.
  unfold type_names, Dict.keys.
  apply list_elem_of_fmap. by exists (k, info).
Qed.

Lemma dedup_loop_spec (vs before : list Violation) (seen : gset string)
    (acc : list Violation) :
  Forall (fun v => v_type v ∈ type_names) (before ++ vs) ->
  seen = list_to_set (dedup_key <$> before) ->
  dedup_loop vs seen acc = acc ++ first_of_kind before vs.
Proof.
  revert before seen acc.
  induction vs as [|v vs IH]; intros before seen acc Hty ->; simpl.
  { by rewrite app_nil_r. }
  assert (Hv : v_type v ∈ type_names).
  { rewrite Forall_app, Forall_cons in Hty. tauto. }
  assert (Hiff : dedup_key v ∈ (list_to_set (dedup_key <$> before) : gset string)
                 <-> Exists (same_kind v) before).
  { rewrite elem_of_list_to_set, list_elem_of_fmap, Exists_exists.
    split.
    - intros (u & Hk & Hu). exists u. split; [done|].
      apply key_same_kind; [done| |done].
      rewrite Forall_app, Forall_forall in Hty. by apply Hty.
    - intros (u & Hu & Hs). exists u. split; [|done].
      by apply same_kind_key. }
  assert (Hty' : Forall (fun v => v_type v ∈ type_names) ((before ++ [v]) ++ vs)).
  { by rewrite <- app_assoc. }
  destruct (decide (dedup_key v ∈ _)) as [Hin|Hin];
    destruct (decide (Exists (same_kind v) before)) as [Hex|Hex];
    try tauto.
  - rewrite (IH (before ++ [v])); [done|done|].
    rewrite fmap_app, list_to_set_app_L. simpl.
    rewrite (right_id_L ∅ (∪)), (comm_L (∪)).
    symmetry. by apply subseteq_union_1_L, singleton_subseteq_l.
  - rewrite (IH (before ++ [v])); [by rewrite <- app_assoc|done|].
    rewrite fmap_app, list_to_set_app_L. simpl.
    by rewrite (right_id_L ∅ (∪)), (comm_L (∪)).
Qed.

(** Among the records of one kind, the first is the one that stays. *)
Lemma first_of_kind_filter (x : Violation) (l before : list Violation) :
  filter (same_kind x) (first_of_kind before l)
  = if decide (Exists (same_kind x) before) then []
    else take 1 (filter (same_kind x) l).
Proof.
  revert before. induction l as [|v l IH]; intros before; simpl.
  { by destruct (decide _). }
  rewrite filter_app, IH, filter_cons.
  assert (Hsnoc : Exists (same_kind x) (before ++ [v])
                  <-> Exists (same_kind x) before \/ same_kind x v).
  { rewrite Exists_app, Exists_cons, Exists_nil. tauto. }
  destruct (decide (same_kind x v)) as [Hxv|Hxv].
  - assert (Hex : Exists (same_kind v) before <-> Exists (same_kind x) before).
    { rewrite !Exists_exists.
      split; intros (u & Hu & Hs); exists u; (split; [done|]).
      + by etrans.
      + etrans; [symmetry|]; done. }
    destruct (decide (Exists (same_kind x) (before ++ [v]))) as [_|Hn];
      [|tauto].
    rewrite app_nil_r.
    destruct (decide (Exists (same_kind v) before));
      destruct (decide (Exists (same_kind x) before)); try tauto; simpl.
    rewrite filter_cons, decide_True by done. by rewrite filter_nil.
  - assert (Hhd : filter (same_kind x)
              (if decide (Exists (same_kind v) before) then [] else [v]) = []).
    { destruct (decide _); [done|].
      rewrite filter_cons, decide_False; done. }
    rewrite Hhd. simpl.
    destruct (decide (Exists (same_kind x) (before ++ [v])));
      destruct (decide (Exists (same_kind x) before)); tauto.
Qed.

Lemma dedup_first_of_kind (text document_type : string) :
  _deduplicate_violations (raw_matches text document_type)
  = first_of_kind [] (raw_matches text document_type).
Proof.
  unfold _deduplicate_violations.
  rewrite (dedup_loop_spec _ []); [done| |done].
  apply Forall_forall. intros v Hv. by eapply raw_matches_type.
Qed.

End Dedup.

(** ** The detector *)

Section Detector.
Import ViolationDetector.

Lemma detect_violations_perm (text document_type : string) :
  detect_violations text document_type
  ≡ₚ _deduplicate_violations (raw_matches text document_type).
Proof. apply sort_perm. Qed.

Lemma first_of_kind_subseteq (vs before : list Violation) (v : Violation) :
  v ∈ first_of_kind before vs -> v ∈ vs.
Proof.
  revert before. induction vs as [|w vs IH]; intros before; simpl.
  { by intros ?%elem_of_nil. }
  rewrite elem_of_app, elem_of_cons.
  intros [Hv|Hv]; [|right; by eapply IH].
  destruct (decide _); [by apply elem_of_nil in Hv|].
  apply list_elem_of_singleton in Hv. by left.
Qed.

Lemma detect_violations_raw (text document_type : string) (v : Violation) :
  v ∈ detect_violations text document_type ->
  v ∈ raw_matches text document_type.
Proof.
  rewrite detect_violations_perm, dedup_first_of_kind.
  apply first_of_kind_subseteq.
Qed.

(** C1. In the list [detect_violations] returns, the records of one kind
    (same type, same first 50 characters of context) are the first such
    record of the search, and no other: the list is the sorted list of the
    records without an earlier duplicate.  For the text of the scenario
    the search finds the pattern twice and the result is the one record of
    the first match, of severity high and score 3. *)
Theorem C1_first_of_each_kind_is_kept :
  (forall text document_type : string,
     detect_violations text document_type
     = PySort.sort_desc Z.ltb score_key
         (first_of_kind [] (raw_matches text document_type))
     /\ forall v : Violation,
          filter (same_kind v) (detect_violations text document_type)
          = take 1 (filter (same_kind v) (raw_matches text document_type)))
  /\ length (raw_matches scenario_text "unknown") = 2%nat
  /\ detect_violations scenario_text "unknown"
     = [ {| v_type := "constitutional_violation";
            v_description := Some "Constitutional rights violation";
            v_severity := Some "high";
            v_context := Some scenario_text;
            v_pattern_matched := Some "due process violation";
            v_position := Some (18, 39);
            v_severity_score := Some 3;
            v_document_hash := None;
            v_document_name := None |} ].
Proof.
  split; [|split; vm_compute; reflexivity].
  intros text document_type.
  assert (Hdet : detect_violations text document_type
                 = PySort.sort_desc Z.ltb score_key
                     (first_of_kind [] (raw_matches text document_type))).
  { unfold detect_violations. by rewrite dedup_first_of_kind. }
  split; [done|]. intros v.
  pose proof (first_of_kind_filter v (raw_matches text document_type) [])
    as Hfirst.
  rewrite decide_False in Hfirst by (by intros ?%Exists_nil).
  assert (Hperm : filter (same_kind v) (detect_violations text document_type)
                  ≡ₚ take 1 (filter (same_kind v)
                               (raw_matches text document_type))).
  { rewrite Hdet, <- Hfirst. unfold PySort.sort_desc.
    by rewrite sort_perm. }
  destruct (take_1_cases (filter (same_kind v) (raw_matches text document_type)))
    as [Hnil | [x Hx]].
  - rewrite Hnil in Hperm |- *. by apply Permutation_nil_r in Hperm.
  - rewrite Hx in Hperm |- *. by apply Permutation_singleton_r in Hperm.
Qed.

Lemma StronglySorted_Forall_impl {A : Type} (R R' : A -> A -> Prop)
    (P : A -> Prop) (l : list A) :
  (forall a b, P a -> P b -> R a b -> R' a b) ->
  Forall P l -> StronglySorted R l -> StronglySorted R' l.
Proof.
  intros HR HP Hs. induction Hs as [|x l Hs IH Hx]; [constructor|].
  apply Forall_cons in HP as [Hpx HP].
  constructor; [by apply IH|].
  rewrite Forall_forall in Hx, HP. apply Forall_forall. intros y Hy.
  apply HR; auto.
Qed.

Lemma detect_violations_scores (text document_type : string) :
  Forall (fun v =>
            (v_severity v = Some "high" /\ v_severity_score v = Some 3)
            \/ (v_severity v = Some "medium" /\ v_severity_score v = Some 2)
            \/ (v_severity v = Some "low" /\ v_severity_score v = Some 1))
         (detect_violations text document_type).
Proof.
  apply Forall_forall. intros v Hv%detect_violations_raw.
  apply raw_matches_inv in Hv as (k & info & [ms me] & Hin & ->).
  simpl. destruct (table_severities _ Hin) as [H | [H | H]];
    simpl in H; rewrite H; vm_compute; tauto.
Qed.

(** C2. Every record [detect_violations] returns carries under
    'severity_score' the score of its severity, 3 for high, 2 for medium
    and 1 for low; in the list no record has a smaller 'severity_score'
    than a record after it, and the records of one 'severity_score' are
    in the order in which deduplication left them.  For a text in which
    the search finds the scores 3, 2, 1, 1, 2, 3 the result has them as
    3, 3, 2, 2, 1, 1. *)
Theorem C2_scores_match_and_sorted_descending :
  (forall text document_type : string,
     Forall (fun v =>
               (v_severity v = Some "high" /\ v_severity_score v = Some 3)
               \/ (v_severity v = Some "medium" /\ v_severity_score v = Some 2)
               \/ (v_severity v = Some "low" /\ v_severity_score v = Some 1))
            (detect_violations text document_type)
     /\ StronglySorted score_not_below (detect_violations text document_type)
     /\ detect_violations text document_type
        ≡ₚ _deduplicate_violations (raw_matches text document_type)
     /\ forall s : Z,
          filter (fun v => v_severity_score v = Some s)
                 (detect_violations text document_type)
          = filter (fun v => v_severity_score v = Some s)
                   (_deduplicate_violations (raw_matches text document_type)))
  /\ (fun v => (v_type v, v_severity_score v))
       <$> _deduplicate_violations (raw_matches mixed_text "unknown")
     = [ ("constitutional_violation", Some 3); ("missed_hearing", Some 2);
         ("documentation_error", Some 1); ("timeline_violation", Some 1);
         ("custody_order_violation", Some 2); ("judicial_bias", Some 3) ]
  /\ (fun v => (v_type v, v_severity_score v))
       <$> detect_violations mixed_text "unknown"
     = [ ("constitutional_violation", Some 3); ("judicial_bias", Some 3);
         ("missed_hearing", Some 2); ("custody_order_violation", Some 2);
         ("documentation_error", Some 1); ("timeline_violation", Some 1) ].
Proof.
  split; [|split; vm_compute; reflexivity].
  intros text document_type.
  pose proof (detect_violations_scores text document_type) as Hsc.
  split; [done|]. split; [|split].
  - apply (StronglySorted_Forall_impl
             (fun a b => score_key b <= score_key a) _
             (fun v => exists s, v_severity_score v = Some s)).
    + intros a b [sa Ha] [sb Hb] Hab. exists sa, sb.
      unfold score_key in Hab. rewrite Ha, Hb in Hab. done.
    + eapply Forall_impl; [exact Hsc|]. intros v [[_ H]|[[_ H]|[_ H]]]; eauto.
    + apply Sorted_StronglySorted.
      { intros a b c ? ?. lia. }
      unfold detect_violations, PySort.sort_desc.
      eapply Sorted_weaken; [|apply sort_sorted].
      * unfold PySort.in_order. intros a b Hab. lia.
      * intros x y Hxy. lia.
  - apply detect_violations_perm.
  - intros s. unfold detect_violations, PySort.sort_desc.
    apply sort_filter. intros x y Hx Hy. unfold score_key.
    rewrite Hx, Hy. simpl. lia.
Qed.

End Detector.

(** ** Gaps in a timeline *)

Section Gaps.
Import ViolationDetector.

Lemma flat_map_map {A B C : Type} (f : B -> list C) (g : A -> B) (l : list A) :
  flat_map f (map g l) = flat_map (fun x => f (g x)) l.
Proof. induction l as [|x l IH]; simpl; [done | by rewrite IH]. Qed.

Lemma flat_map_ext_in {A B : Type} (f g : A -> list B) (l : list A) :
  (forall x, x ∈ l -> f x = g x) -> flat_map f l = flat_map g l.
Proof.
  induction l as [|x l IH]; intros H; simpl; [done|].
  rewrite H by left. rewrite IH; [done|]. intros y Hy. apply H. by right.
Qed.

(** A loop over the indices of a list is a loop over its items. *)
Lemma flat_map_indices {A B : Type} (h : A -> list B) (l : list A) :
  flat_map (fun i => match l !! i with Some x => h x | None => [] end)
           (seq 0 (length l))
  = flat_map h l.
Proof.
  induction l as [|x l IH]; simpl; [done|].
  f_equal. by rewrite <- seq_shift, <- IH, flat_map_map.
Qed.

Lemma adjacent_pairs_length {A : Type} (l : list A) :
  length (adjacent_pairs l) = (length l - 1)%nat.
Proof.
  unfold adjacent_pairs. rewrite length_zip_with.
  destruct l as [|x l]; [done|].
  change (length (tail (x :: l))) with (length l).
  change (length (x :: l)) with (S (length l)). lia.
Qed.

Lemma adjacent_pairs_lookup {A : Type} (l : list A) (i : nat) :
  adjacent_pairs l !! i
  = match l !! i, l !! S i with
    | Some a, Some b => Some (a, b)
    | _, _ => None
    end.
Proof.
  unfold adjacent_pairs. rewrite lookup_zip_with, lookup_tail.
  destruct (l !! i); simpl; [|done]. by destruct (l !! S i).
Qed.

(** The violations found for a pair of events with datetimes. *)
Lemma gap_of_generated_pair (pair : TimelineEvent * TimelineEvent) :
  exists found,
    gap_of_pair (generated_pair pair) = Some found
    /\ ((excessive_gap pair = true
         /\ exists tv, found = [tv]
              /\ tv_type tv = "excessive_delay" /\ tv_severity tv = "medium"
              /\ tv_severity_score tv = 2
              /\ Some (tv_time_difference tv) = gap_days pair
              /\ tv_events tv = [Generated pair.1; Generated pair.2])
        \/ (excessive_gap pair = false /\ found = [])).
Proof.
  destruct pair as [prev cur].
  unfold excessive_gap, gap_days, gap_of_pair, generated_pair, gap_step.
  cbn [fst snd lookup list_lookup Nat.sub entry_date].
  destruct (ev_date prev) as [p|], (ev_date cur) as [c|];
    cbn [truthy andb date_sub]; eauto.
  destruct (180 <? _); eexists; (split; [done|]); [left|right]; eauto 10.
Qed.

Lemma gap_loop_found (timeline : list timeline_entry)
    (f : nat -> list TimelineViolation) (indices : list nat)
    (acc : list TimelineViolation) :
  (forall i, i ∈ indices -> gap_step timeline i = Some (f i)) ->
  gap_loop timeline indices acc = Some (acc ++ flat_map f indices).
Proof.
  revert acc. induction indices as [|i indices IH]; intros acc Hf; simpl.
  { by rewrite app_nil_r. }
  rewrite (Hf i) by left. rewrite IH; [by rewrite <- app_assoc|].
  intros j Hj. apply Hf. by right.
Qed.

(** The loop over indices is a pass over the consecutive pairs. *)
Lemma analyze_timeline_violations_pairs (timeline : list TimelineEvent) :
  analyze_timeline_violations (Generated <$> timeline)
  = Some (flat_map (fun pair => default [] (gap_of_pair (generated_pair pair)))
                   (adjacent_pairs timeline)).
Proof.
  unfold analyze_timeline_violations. rewrite length_fmap.
  set (h := fun pair => default [] (gap_of_pair (generated_pair pair))).
  rewrite <- (flat_map_indices h (adjacent_pairs timeline)).
  rewrite adjacent_pairs_length.
  destruct (length timeline <? 2)%nat eqn:Hlen.
  - apply Nat.ltb_lt in Hlen.
    destruct timeline as [|a [|b l]]; simpl in *; [done|done|lia].
  - rewrite (gap_loop_found _
               (fun i => match adjacent_pairs timeline !! (i - 1)%nat with
                         | Some found => h found
                         | None => []
                         end)).
    + simpl. f_equal. rewrite <- seq_shift, flat_map_map.
      apply flat_map_ext_in. intros i _.
      by replace (S i - 1)%nat with i by lia.
    + intros i Hi%list_elem_of_In%in_seq.
      rewrite adjacent_pairs_lookup.
      replace (S (i - 1)) with i by lia.
      unfold gap_step. rewrite !list_lookup_fmap.
      destruct (timeline !! i) as [cur|], (timeline !! (i - 1)%nat) as [prev|];
        simpl; try done.
      destruct (gap_of_generated_pair (prev, cur)) as (found & Hf & _).
      unfold h. rewrite Hf. simpl.
      unfold gap_of_pair, generated_pair, gap_step in Hf.
      by cbn [fst snd lookup list_lookup Nat.sub] in Hf.
Qed.

(** The delta of two dates at midnight is the difference of their day
    numbers. *)
Lemma days_of_dates (y1 m1 d1 y2 m2 d2 : Z) :
  Datetime.days (Datetime.sub (Datetime.of_date y2 m2 d2)
                              (Datetime.of_date y1 m1 d1))
  = Datetime.toordinal (Datetime.of_date y2 m2 d2)
    - Datetime.toordinal (Datetime.of_date y1 m1 d1).
Proof.
  unfold Datetime.sub, Datetime.total_microseconds. simpl.
  set (a := Datetime.toordinal _). set (b := Datetime.toordinal _).
  replace (_ - _) with ((a - b) * 86400000000) by lia.
  by rewrite Z.div_mul.
Qed.

(** What [analyze_timeline_violations] returns for events with
    datetimes. *)
Lemma analyze_generated_timeline (timeline : list TimelineEvent) :
  exists found,
    analyze_timeline_violations (Generated <$> timeline) = Some found
    /\ tv_events <$> found
       = (fun pair => [Generated pair.1; Generated pair.2])
           <$> filter (fun pair => excessive_gap pair = true)
                      (adjacent_pairs timeline)
    /\ Forall (fun tv =>
                 tv_type tv = "excessive_delay"
                 /\ tv_severity tv = "medium"
                 /\ tv_severity_score tv = 2
                 /\ 180 < tv_time_difference tv)
              found.
Proof.
  rewrite analyze_timeline_violations_pairs. eexists. split; [done|].
  induction (adjacent_pairs timeline) as [|pair ps [IH1 IH2]]; simpl.
  { split; [done | constructor]. }
  rewrite fmap_app, Forall_app, filter_cons, IH1.
  destruct (gap_of_generated_pair pair)
    as (found & -> & [(Hex & tv & -> & ? & ? & ? & Hd & He) | (Hex & ->)]);
    rewrite Hex; cbn [from_option id].
  - rewrite decide_True by done. simpl. rewrite He. split; [done|].
    split; [|done]. repeat constructor; try done.
    unfold excessive_gap in Hex. rewrite <- Hd in Hex. lia.
  - rewrite decide_False by done. split; [done|].
    split; [constructor | done].
Qed.

Lemma str_of_datetime_nonempty (d : Datetime.datetime) :
  String.eqb (CaseManager.str_of_datetime d) "" = false.
Proof.
  apply String.eqb_neq. intros Heq.
  apply (f_equal String.length) in Heq.
  unfold CaseManager.str_of_datetime in Heq.
  rewrite !length_append in Heq. simpl in Heq. lia.
Qed.

(** After a save and a load the dates are texts, and the first pair of
    entries with both dates present ends the call. *)
Lemma analyze_reloaded_timeline (timeline : list TimelineEvent) :
  Forall (fun event => is_Some (ev_date event)) timeline ->
  (2 <= length timeline)%nat ->
  analyze_timeline_violations (reloaded_timeline timeline) = None.
Proof.
  intros Hdates Hlen. unfold analyze_timeline_violations, reloaded_timeline.
  rewrite length_map.
  destruct timeline as [|e1 [|e2 rest]]; simpl in Hlen; try lia.
  apply Forall_cons in Hdates as [[d1 Hd1] Hdates].
  apply Forall_cons in Hdates as [[d2 Hd2] _].
  replace (length (e1 :: e2 :: rest) <? 2)%nat with false
    by (symmetry; apply Nat.ltb_ge; simpl; lia).
  cbn [length Nat.sub seq gap_loop].
  unfold gap_step.
  cbn [map lookup list_lookup Nat.sub entry_date CaseManager.save_event
       sev_date].
  rewrite Hd1, Hd2. cbn [fmap option_fmap option_map truthy].
  by rewrite !str_of_datetime_nonempty.
Qed.

(** C7. For events with datetimes, as [generate_timeline] makes them,
    [analyze_timeline_violations] emits, in order, one violation for each
    consecutive pair whose dates are both present and more than 180 days
    apart, with the two events of the pair, and nothing for any other
    pair; every violation is an 'excessive_delay' of severity medium and
    score 2 that records the day delta.  Fewer than two events give the
    empty list.  Events 200 days apart give one violation, events 30 days
    apart give none.  But for the same events after the case was saved
    and loaded, whose dates are then texts, the call ends with a
    [TypeError] as soon as two consecutive dates are present: the events
    200 days apart give no violation then, and the timeline of the three
    documents of the scenario, with gaps of 275 and 318 days, gives two
    violations before the save and the error after the load. *)
Theorem C7_gaps_found_between_datetimes_but_not_after_reload :
  (forall timeline : list TimelineEvent,
     exists found : list TimelineViolation,
       analyze_timeline_violations (Generated <$> timeline) = Some found
       /\ tv_events <$> found
          = (fun pair => [Generated pair.1; Generated pair.2])
              <$> filter (fun pair => excessive_gap pair = true)
                         (adjacent_pairs timeline)
       /\ Forall (fun tv =>
                    tv_type tv = "excessive_delay"
                    /\ tv_severity tv = "medium"
                    /\ tv_severity_score tv = 2
                    /\ 180 < tv_time_difference tv)
                 found)
  /\ analyze_timeline_violations [] = Some []
  /\ (forall entry : timeline_entry,
        analyze_timeline_violations [entry] = Some [])
  /\ (forall y1 m1 d1 y2 m2 d2 : Z,
        gap_days (event_at "a.pdf" y1 m1 d1, event_at "b.pdf" y2 m2 d2)
        = Some (Datetime.toordinal (Datetime.of_date y2 m2 d2)
                - Datetime.toordinal (Datetime.of_date y1 m1 d1)))
  /\ (fmap (M := list) tv_time_difference
        <$> analyze_timeline_violations
              (Generated
                 <$> [event_at "a.pdf" 2023 1 1; event_at "b.pdf" 2023 7 20])
      = Some [200])
  /\ analyze_timeline_violations
       (Generated <$> [event_at "a.pdf" 2023 1 1; event_at "b.pdf" 2023 1 31])
     = Some []
  /\ analyze_timeline_violations
       (reloaded_timeline
          [event_at "a.pdf" 2023 1 1; event_at "b.pdf" 2023 7 20])
     = None
  /\ (forall timeline : list TimelineEvent,
        Forall (fun event => is_Some (ev_date event)) timeline ->
        (2 <= length timeline)%nat ->
        analyze_timeline_violations (reloaded_timeline timeline) = None)
  /\ (let case_data :=
        (CaseManager.generate_timeline (case_with three_documents [])).1 in
      fmap (M := list) tv_time_difference
        <$> analyze_timeline_violations
              (Generated <$> CaseManager.timeline case_data)
      = Some [275; 318]
      /\ exists loaded : CaseManager.LoadedCase,
           CaseManager.load_case_session
             (CaseManager.save_case_session (fun _ => "") heap_with_entities
                ∅ "c0ffee00" case_data).2 "c0ffee00"
           = Some loaded
           /\ CaseManager.lc_timeline loaded
              = map CaseManager.save_event (CaseManager.timeline case_data)
           /\ analyze_timeline_violations
                (Reloaded <$> CaseManager.lc_timeline loaded)
              = None).
Proof.
  split; [apply analyze_generated_timeline|].
  split; [done|]. split; [done|]. split.
  { intros. unfold gap_days, event_at. cbn [fst snd ev_date].
    by rewrite days_of_dates. }
  split; [by vm_compute|]. split; [by vm_compute|].
  split; [by vm_compute|]. split; [apply analyze_reloaded_timeline|].
  cbv zeta. split; [by vm_compute|].
  eexists. split; [by vm_compute|]. split; by vm_compute.
Qed.

End Gaps.

(** ** The order of datetimes *)

Section DatetimeOrder.

Lemma lex_ltb_asym (xs ys : list Z) :
  Datetime.lex_ltb xs ys = true -> Datetime.lex_ltb ys xs = false.
Proof.
  revert ys. induction xs as [|x xs IH]; intros [|y ys]; simpl; try done.
  intros H.
  destruct (Z.ltb_spec x y), (Z.eqb_spec x y), (Z.ltb_spec y x),
    (Z.eqb_spec y x); simpl in *; try lia; try done; eauto.
Qed.

Lemma lex_ltb_neg_trans (xs ys zs : list Z) :
  Datetime.lex_ltb ys xs = false -> Datetime.lex_ltb zs ys = false ->
  Datetime.lex_ltb zs xs = false.
Proof.
  revert ys zs.
  induction xs as [|x xs IH]; intros [|y ys] [|z zs]; simpl; try done.
  intros H1 H2.
  destruct (Z.ltb_spec y x), (Z.eqb_spec y x), (Z.ltb_spec z y),
    (Z.eqb_spec z y), (Z.ltb_spec z x), (Z.eqb_spec z x);
    simpl in *; try lia; try done; eauto.
Qed.

Lemma date_le_trans : Transitive date_le.
Proof. intros a b c. unfold date_le, Datetime.ltb. apply lex_ltb_neg_trans. Qed.

End DatetimeOrder.

(** ** The timeline *)

Section Timeline.
Import CaseManager.

Lemma parse_with_first (formats : list string) (date_str : string) :
  (parse_with formats date_str = None
   /\ Forall (fun fmt => Strptime.strptime (Str.strip date_str) fmt = None)
             formats)
  \/ exists tried fmt rest d,
       formats = tried ++ fmt :: rest
       /\ Forall (fun f => Strptime.strptime (Str.strip date_str) f = None)
                 tried
       /\ Strptime.strptime (Str.strip date_str) fmt = Some d
       /\ parse_with formats date_str = Some d.
Proof.
  induction formats as [|fmt formats IH]; simpl.
  { left. split; [done | constructor]. }
  destruct (Strptime.strptime (Str.strip date_str) fmt) as [d|] eqn:Hfmt.
  - right. exists [], fmt, formats, d. repeat split; [constructor | done].
  - destruct IH as [[Hn Hall] | (tried & f & rest & d & -> & Hall & Hf & Hp)].
    + left. split; [done | by constructor].
    + right. exists (fmt :: tried), f, rest, d.
      repeat split; [by constructor | done | done].
Qed.

(** The events of a list of date strings of one document. *)
Lemma events_of_dates (pdf_hash : string) (doc : DocEntry) (dates : list string) :
  (fun e => (ev_date_str e, ev_date e))
    <$> flat_map (event_of pdf_hash doc) dates
  = omap (fun s => (fun d => (s, Some d)) <$> _parse_date s) dates.
Proof.
  induction dates as [|s dates IH]; simpl; [done|].
  rewrite fmap_app, IH. unfold event_of.
  by destruct (_parse_date s).
Qed.

Lemma collect_events_dates (docs : Dict.t DocEntry) :
  (fun e => (ev_date_str e, ev_date e)) <$> collect_events docs
  = omap (fun s => (fun d => (s, Some d)) <$> _parse_date s)
         (all_date_strings docs).
Proof.
  unfold collect_events, all_date_strings.
  induction docs as [|[pdf_hash doc] docs IH]; simpl; [done|].
  rewrite fmap_app, omap_app, IH. f_equal.
  destruct (doc_entity doc "dates"); simpl; [|done].
  apply events_of_dates.
Qed.

(** A parsed date is a day of the calendar at midnight. *)
Lemma strptime_midnight (data_string format : string) (d : Datetime.datetime) :
  Strptime.strptime data_string format = Some d ->
  exists y m dd, d = Datetime.of_date y m dd
                 /\ Datetime.valid_date y m dd = true.
Proof.
  unfold Strptime.strptime.
  destruct (Strptime.pattern format false) as [r|]; [|done].
  destruct (Re.match_prefix r data_string) as [[rest found]|]; [|done].
  destruct (negb _); [done|].
  destruct (Datetime.valid_date _ _ _) eqn:Hv; [|done].
  intros [= <-]. eauto.
Qed.

Lemma parse_date_midnight (date_str : string) (d : Datetime.datetime) :
  _parse_date date_str = Some d ->
  exists y m dd, d = Datetime.of_date y m dd
                 /\ Datetime.valid_date y m dd = true.
Proof.
  unfold _parse_date. induction date_formats as [|fmt fmts IH]; simpl; [done|].
  destruct (Strptime.strptime _ fmt) eqn:Hs; [|done].
  intros [= <-]. by eapply strptime_midnight.
Qed.

(** Every event of a generated timeline has a date, at midnight. *)
Lemma generate_timeline_dates (case_data : Case) (e : TimelineEvent) :
  e ∈ (generate_timeline case_data).2 ->
  exists y m dd, ev_date e = Some (Datetime.of_date y m dd)
                 /\ Datetime.valid_date y m dd = true.
Proof.
  unfold generate_timeline, PySort.sort_asc. cbn [snd].
  rewrite sort_perm. unfold collect_events.
  intros ([pdf_hash doc] & _ & He)%elem_of_flat_map.
  destruct (doc_entity doc "dates") as [dates|]; [|by apply elem_of_nil in He].
  apply elem_of_flat_map in He as (s & _ & He). unfold event_of in He.
  destruct (_parse_date s) as [d|] eqn:Hd; [|by apply elem_of_nil in He].
  apply list_elem_of_singleton in He as ->. simpl.
  apply parse_date_midnight in Hd as (y & m & dd & -> & Hv). eauto.
Qed.

(** C6. [_parse_date] answers with the first format of the fixed list that
    parses the stripped string, and with nothing when none does.
    [generate_timeline] makes one event for each date string that parses,
    and none for the others; it returns the events in ascending order of
    their dates, events of equal date in the order of reading, and stores
    that list as the timeline of the case whatever the timeline was
    before.  The dates of the scenario come back as 2021-06-01,
    2022-03-03, 2023-01-15. *)
Theorem C6_timeline_parsed_sorted_replaced :
  (forall date_str : string,
     (_parse_date date_str = None
      /\ Forall (fun fmt => Strptime.strptime (Str.strip date_str) fmt = None)
                date_formats)
     \/ exists tried fmt rest d,
          date_formats = tried ++ fmt :: rest
          /\ Forall (fun f => Strptime.strptime (Str.strip date_str) f = None)
                    tried
          /\ Strptime.strptime (Str.strip date_str) fmt = Some d
          /\ _parse_date date_str = Some d)
  /\ (forall case_data : Case,
        let events := (generate_timeline case_data).2 in
        events ≡ₚ collect_events (documents case_data)
        /\ (fun e => (ev_date_str e, ev_date e))
             <$> collect_events (documents case_data)
           = omap (fun s => (fun d => (s, Some d)) <$> _parse_date s)
                  (all_date_strings (documents case_data))
        /\ StronglySorted (fun a b => date_le (date_key a) (date_key b)) events
        /\ (forall d : Datetime.datetime,
              filter (fun e => date_key e = d) events
              = filter (fun e => date_key e = d)
                       (collect_events (documents case_data)))
        /\ (generate_timeline case_data).1 = set_timeline case_data events
        /\ timeline (generate_timeline case_data).1 = events)
  /\ (forall old_timeline : list TimelineEvent,
        (fun e => (ev_document e, Datetime.fields (date_key e)))
          <$> timeline (generate_timeline
                          (case_with three_documents old_timeline)).1
        = [ ("c.pdf", [2021; 6; 1; 0; 0; 0; 0]);
            ("b.pdf", [2022; 3; 3; 0; 0; 0; 0]);
            ("a.pdf", [2023; 1; 15; 0; 0; 0; 0]) ]).
Proof.
  split; [|split].
  - intros date_str. apply parse_with_first.
  - intros case_data. cbv zeta. unfold generate_timeline. cbn [fst snd].
    unfold PySort.sort_asc. repeat split.
    + apply sort_perm.
    + apply collect_events_dates.
    + apply Sorted_StronglySorted.
      { intros a b c. apply date_le_trans. }
      apply sort_sorted. intros x y.
      unfold Datetime.ltb. apply lex_ltb_asym.
    + intros d. apply sort_filter. intros x y -> Hy. rewrite Hy.
      unfold Datetime.ltb.
      destruct (Datetime.lex_ltb _ _) eqn:H; [|done].
      by rewrite (lex_ltb_asym _ _ H) in H.
  - intros old_timeline. vm_compute. reflexivity.
Qed.

(** In a generated timeline the delta of every consecutive pair is the
    difference of the day numbers of its dates. *)
Lemma generated_timeline_gap_days (case_data : Case)
    (pair : TimelineEvent * TimelineEvent) :
  pair ∈ adjacent_pairs (generate_timeline case_data).2 ->
  exists prev cur,
    ev_date pair.1 = Some prev /\ ev_date pair.2 = Some cur
    /\ gap_days pair
       = Some (Datetime.toordinal cur - Datetime.toordinal prev).
Proof.
  destruct pair as [e1 e2]. unfold adjacent_pairs. intros Hin.
  pose proof (elem_of_zip_l _ _ _ _ Hin) as H1.
  pose proof (elem_of_zip_r _ _ _ _ Hin) as H2.
  assert (H2' : e2 ∈ (generate_timeline case_data).2).
  { destruct ((generate_timeline case_data).2); [done | by right]. }
  apply generate_timeline_dates in H1 as (y1 & m1 & d1 & Hd1 & _).
  apply generate_timeline_dates in H2' as (y2 & m2 & d2 & Hd2 & _).
  do 2 eexists. repeat split; [done | done |].
  unfold gap_days. cbn [fst snd]. rewrite Hd1, Hd2.
  by rewrite days_of_dates.
Qed.

End Timeline.

(** ** Dictionaries *)

Section DictFacts.
Context {V : Type}.

Lemma dict_get_None (d : Dict.t V) (k : string) :
  Dict.get d k = None <-> k ∉ Dict.keys d.
Proof.
  induction d as [|[k' v] d IH]; simpl.
  { split; [intros _ H; by apply elem_of_nil in H | done]. }
  rewrite not_elem_of_cons.
  destruct (String.eqb_spec k' k) as [->|Hne].
  - split; [done | tauto].
  - rewrite IH. split; [by intros ? | tauto].
Qed.

Lemma dict_get_Some_in (d : Dict.t V) (k : string) (v : V) :
  Dict.get d k = Some v -> (k, v) ∈ d.
Proof.
  induction d as [|[k' v'] d IH]; simpl; [done|].
  destruct (String.eqb_spec k' k) as [->|Hne].
  - intros [= ->]. by left.
  - intros H. right. auto.
Qed.

Lemma dict_get_in (d : Dict.t V) (k : string) (v : V) :
  Dict.wf d -> (k, v) ∈ d -> Dict.get d k = Some v.
Proof.
  unfold Dict.wf, Dict.keys.
  induction d as [|[k' v'] d IH]; simpl; intros Hnd Hin.
  { by apply elem_of_nil in Hin. }
  apply NoDup_cons in Hnd as [Hk' Hnd].
  apply elem_of_cons in Hin as [[= -> ->] | Hin].
  - by rewrite String.eqb_refl.
  - destruct (String.eqb_spec k' k) as [->|Hne]; [|auto].
    destruct Hk'. apply list_elem_of_fmap. by exists (k, v).
Qed.

Lemma dict_set_fresh (d : Dict.t V) (k : string) (v : V) :
  k ∉ Dict.keys d -> Dict.set d k v = d ++ [(k, v)].
Proof.
  induction d as [|[k' v'] d IH]; simpl; [done|].
  rewrite not_elem_of_cons. intros [Hne Hk].
  destruct (String.eqb_spec k' k) as [->|_]; [done|].
  by rewrite IH.
Qed.

Lemma dict_keys_set (d : Dict.t V) (k k' : string) (v : V) :
  k' ∈ Dict.keys (Dict.set d k v) <-> k' = k \/ k' ∈ Dict.keys d.
Proof.
  induction d as [|[k0 v0] d IH]; simpl.
  { rewrite list_elem_of_singleton. split; [auto|].
    intros [->|H]; [done | by apply elem_of_nil in H]. }
  destruct (String.eqb_spec k0 k) as [->|Hne]; simpl.
  - rewrite !elem_of_cons. tauto.
  - rewrite !elem_of_cons, IH. tauto.
Qed.

Lemma dict_get_set (d : Dict.t V) (k k' : string) (v : V) :
  Dict.get (Dict.set d k v) k' = if String.eqb k k' then Some v else Dict.get d k'.
Proof.
  induction d as [|[k0 v0] d IH]; simpl.
  { done. }
  destruct (String.eqb_spec k0 k) as [->|Hne]; simpl.
  - by destruct (String.eqb_spec k k').
  - rewrite IH. destruct (String.eqb_spec k0 k') as [->|Hne'];
      destruct (String.eqb_spec k k'); congruence.
Qed.

Lemma dict_wf_set (d : Dict.t V) (k : string) (v : V) :
  Dict.wf d -> Dict.wf (Dict.set d k v).
Proof.
  unfold Dict.wf.
  induction d as [|[k0 v0] d IH]; simpl; intros Hnd.
  { apply NoDup_singleton. }
  apply NoDup_cons in Hnd as [Hk0 Hnd].
  destruct (String.eqb_spec k0 k) as [->|Hne]; simpl.
  - by apply NoDup_cons.
  - apply NoDup_cons. split; [|auto].
    change (k0 ∉ Dict.keys (Dict.set d k v)).
    rewrite dict_keys_set. intros [->|H]; done.
Qed.

End DictFacts.

(** ** The classifier *)

Section Classifier.
Import LegalDocumentAnalyzer.

Lemma sum_from (l : list Z) (a : Z) : fold_left Z.add l a = a + sum l.
Proof.
  unfold sum. revert a. induction l as [|x l IH]; intros a; simpl; [lia|].
  rewrite (IH (a + x)), (IH (0 + x)). lia.
Qed.

Lemma sum_cons (x : Z) (l : list Z) : sum (x :: l) = x + sum l.
Proof. unfold sum at 1. simpl. rewrite sum_from. lia. Qed.

Lemma sum_nonneg (l : list Z) : Forall (fun x => 0 <= x) l -> 0 <= sum l.
Proof.
  induction 1 as [|x l Hx Hl IH]; [done|]. rewrite sum_cons. lia.
Qed.

Lemma count_from_nonneg (sub s : string) (skip : nat) :
  0 <= Str.count_from sub s skip.
Proof.
  revert skip. induction s as [|c s IH]; intros skip; simpl; [done|].
  destruct skip; [|done].
  destruct (Str.startswith sub (String c s)); [|done].
  specialize (IH (String.length sub - 1)%nat). lia.
Qed.

Lemma type_score_nonneg (text_lower : string) entry :
  0 <= type_score text_lower entry.
Proof.
  unfold type_score, keyword_score. apply sum_nonneg.
  apply Forall_forall. intros x Hx.
  apply list_elem_of_fmap in Hx as (kw & -> & _).
  apply count_from_nonneg.
Qed.

Lemma document_types_wf : Dict.wf document_types.
Proof.
  unfold Dict.wf.
  apply (bool_decide_unpack (NoDup (Dict.keys document_types))).
  vm_compute. exact I.
Qed.

(** The loop that fills [scores] appends the positive entries in the
    order of the table. *)
Lemma scores_fold (text_lower : string) (l : Dict.t (list string))
    (acc : Dict.t Z) :
  NoDup (Dict.keys l) ->
  (forall k, k ∈ Dict.keys acc -> k ∉ Dict.keys l) ->
  fold_left (fun scores '(doc_type, keywords) =>
               let score := keyword_score text_lower keywords in
               if 0 <? score then Dict.set scores doc_type score else scores)
            l acc
  = acc ++ omap (positive_entry text_lower) l.
Proof.
  revert acc. induction l as [|[t kws] l IH]; intros acc Hnd Hacc; simpl.
  { by rewrite app_nil_r. }
  apply NoDup_cons in Hnd as [Ht Hnd].
  assert (Hacc' : forall k, k ∈ Dict.keys acc -> k <> t /\ k ∉ Dict.keys l).
  { intros k Hk. specialize (Hacc k Hk).
    unfold Dict.keys in Hacc. simpl in Hacc.
    by apply not_elem_of_cons in Hacc. }
  unfold positive_entry at 1, type_score. simpl.
  destruct (0 <? keyword_score text_lower kws) eqn:Hpos.
  - rewrite dict_set_fresh.
    2:{ intros Hin. by destruct (Hacc' _ Hin). }
    rewrite IH; [by rewrite <- app_assoc | done |].
    intros k. unfold Dict.keys at 1. rewrite fmap_app, elem_of_app. simpl.
    rewrite list_elem_of_singleton.
    intros [Hk | ->]; [|done]. by destruct (Hacc' _ Hk).
  - rewrite IH; [done | done |].
    intros k Hk. by destruct (Hacc' _ Hk).
Qed.

Lemma scores_of_omap (text_lower : string) :
  scores_of text_lower = omap (positive_entry text_lower) document_types.
Proof.
  unfold scores_of. rewrite scores_fold; [done | apply document_types_wf |].
  intros k Hk. by apply elem_of_nil in Hk.
Qed.

Lemma positive_entries_sum (text_lower : string) (l : Dict.t (list string)) :
  sum (Dict.values (omap (positive_entry text_lower) l))
  = sum (map (type_score text_lower) l).
Proof.
  induction l as [|e l IH]; simpl; [done|].
  rewrite sum_cons, <- IH. unfold positive_entry at 1.
  pose proof (type_score_nonneg text_lower e).
  destruct (Z.ltb_spec 0 (type_score text_lower e)); simpl.
  - unfold Dict.values. simpl. by rewrite sum_cons.
  - replace (type_score text_lower e) with 0 by lia. reflexivity.
Qed.

Lemma positive_entries_keys (text_lower : string) (l : Dict.t (list string)) k :
  k ∈ Dict.keys (omap (positive_entry text_lower) l) -> k ∈ Dict.keys l.
Proof.
  unfold Dict.keys. rewrite !list_elem_of_fmap.
  intros ([k' v] & -> & Hin). apply list_elem_of_omap in Hin as (e & He & Hp).
  exists e. split; [|done].
  unfold positive_entry in Hp. destruct (0 <? _); by inversion Hp.
Qed.

Lemma positive_entries_wf (text_lower : string) (l : Dict.t (list string)) :
  Dict.wf l -> Dict.wf (omap (positive_entry text_lower) l).
Proof.
  unfold Dict.wf. induction l as [|e l IH]; simpl; intros Hnd.
  { constructor. }
  apply NoDup_cons in Hnd as [He Hnd].
  unfold positive_entry at 1. destruct (0 <? _); simpl; [|auto].
  apply NoDup_cons. split; [|auto].
  intros Hin. apply He. by eapply positive_entries_keys.
Qed.

(** [max] with a key answers with an item of the largest key. *)
Lemma max_key_spec (first : string * Z) (rest : Dict.t Z) :
  max_key first rest ∈ first :: rest
  /\ Forall (fun e => e.2 <= (max_key first rest).2) (first :: rest).
Proof.
  unfold max_key. revert first.
  induction rest as [|x rest IH]; intros first; simpl.
  { split; [by left | repeat constructor; lia]. }
  destruct (IH (if first.2 <? x.2 then x else first)) as [Hin Hall].
  apply Forall_cons in Hall as [Hb Hall].
  split.
  - apply elem_of_cons in Hin as [-> | Hin].
    + destruct (first.2 <? x.2); [right; left | left]; done.
    + by do 2 right.
  - destruct (Z.ltb_spec first.2 x.2); repeat constructor; try done; lia.
Qed.

Lemma sum_single {A : Type} (f : A -> Z) (l : list A) (x : A) :
  NoDup l -> x ∈ l -> (forall y, y ∈ l -> y <> x -> f y = 0) ->
  sum (map f l) = f x.
Proof.
  induction l as [|a l IH]; simpl; intros Hnd Hin Hz.
  { by apply elem_of_nil in Hin. }
  apply NoDup_cons in Hnd as [Ha Hnd]. rewrite sum_cons.
  apply elem_of_cons in Hin as [-> | Hin].
  - assert (sum (map f l) = 0) as ->; [|lia].
    clear IH. induction l as [|b l IH]; [done|].
    simpl. rewrite sum_cons.
    apply not_elem_of_cons in Ha as [Hab Ha].
    apply NoDup_cons in Hnd as [_ Hnd].
    rewrite IH; [|done|done|].
    + rewrite (Hz b); [done | by right; left | done].
    + intros y Hy. apply Hz. apply elem_of_cons in Hy as [->|Hy].
      * by left.
      * by do 2 right.
  - rewrite IH; [|done|done|].
    + rewrite (Hz a); [done | by left |]. by intros ->.
    + intros y Hy. apply Hz. by right.
Qed.

Lemma positive_entries_nil (text_lower : string) (l : Dict.t (list string)) :
  Forall (fun e => type_score text_lower e = 0) l
  <-> omap (positive_entry text_lower) l = [].
Proof.
  split.
  - intros Hall. induction Hall as [|e l He Hl IH]; simpl; [done|].
    unfold positive_entry at 1. rewrite He. exact IH.
  - intros Hnil. apply Forall_forall. intros e He.
    pose proof (type_score_nonneg text_lower e).
    destruct (Z.ltb_spec 0 (type_score text_lower e)) as [Hpos|]; [|lia].
    assert (Hin : (e.1, type_score text_lower e)
                  ∈ omap (positive_entry text_lower) l).
    { apply list_elem_of_omap. exists e. split; [done|].
      unfold positive_entry.
      by destruct (Z.ltb_spec 0 (type_score text_lower e)); [|lia]. }
    rewrite Hnil in Hin. by apply elem_of_nil in Hin.
Qed.

Lemma document_types_NoDup : NoDup document_types.
Proof. eapply NoDup_fmap_1. apply document_types_wf. Qed.

(** C8. [analyze_document_type] answers ['unknown'] with confidence 0
    exactly when the keyword score of every candidate type is zero.
    Otherwise it answers with a candidate type of the largest score, and
    the confidence is that score divided by the sum of the scores of all
    candidate types; when one type only has hits the confidence is 1. *)
Theorem C8_classifier_type_and_confidence :
  (forall text : string,
     (Forall (fun e => type_score (Str.lower text) e = 0) document_types
      <-> analyze_document_type text = unknown_type)
     /\ (analyze_document_type text = unknown_type
         \/ exists entry,
              entry ∈ document_types
              /\ dt_type (analyze_document_type text) = entry.1
              /\ 0 < type_score (Str.lower text) entry
              /\ Forall (fun e => type_score (Str.lower text) e
                                  <= type_score (Str.lower text) entry)
                        document_types
              /\ (dt_confidence (analyze_document_type text)
                  == inject_Z (type_score (Str.lower text) entry)
                     / inject_Z (total_type_score (Str.lower text)))%Q)
     /\ (forall entry,
           entry ∈ document_types ->
           0 < type_score (Str.lower text) entry ->
           (forall e, e ∈ document_types -> e <> entry ->
                      type_score (Str.lower text) e = 0) ->
           dt_type (analyze_document_type text) = entry.1
           /\ (dt_confidence (analyze_document_type text) == 1)%Q))
  /\ dt_type (analyze_document_type "MOTION to compel; second Motion")
     = "motion"
  /\ (dt_confidence (analyze_document_type "MOTION to compel; second Motion")
      == 1)%Q
  /\ analyze_document_type "Nothing of interest." = unknown_type.
Proof.
  split; [|by vm_compute].
  intros text. set (tl := Str.lower text).
  assert (Hnonzero :
    scores_of tl <> [] ->
    exists entry,
      entry ∈ document_types
      /\ dt_type (analyze_document_type text) = entry.1
      /\ 0 < type_score tl entry
      /\ Forall (fun e => type_score tl e <= type_score tl entry) document_types
      /\ (dt_confidence (analyze_document_type text)
          == inject_Z (type_score tl entry) / inject_Z (total_type_score tl))%Q).
  { intros Hne. unfold analyze_document_type. fold tl.
    pose proof (positive_entries_wf tl _ document_types_wf) as Hwf.
    pose proof (positive_entries_sum tl document_types) as Hsum.
    pose proof (scores_of_omap tl) as Homap.
    rewrite <- Homap in Hwf, Hsum.
    destruct (scores_of tl) as [|first rest]; [done|].
    cbv beta iota zeta. cbn [dt_type dt_confidence].
    destruct (max_key_spec first rest) as [Hin Hmax].
    destruct (max_key first rest) as [k v]. cbn [fst snd] in *.
    pose proof Hin as Hin'. rewrite Homap in Hin'.
    apply list_elem_of_omap in Hin' as (entry & Hentry & Hpe).
    unfold positive_entry in Hpe.
    destruct (Z.ltb_spec 0 (type_score tl entry)) as [Hpos|]; [|done].
    injection Hpe as <- <-.
    exists entry. repeat split; [done | done | |].
    - apply Forall_forall. intros e He.
      destruct (Z.ltb_spec 0 (type_score tl e)) as [Hpe|]; [|lia].
      assert (Hine : (e.1, type_score tl e) ∈ first :: rest).
      { rewrite Homap. apply list_elem_of_omap. exists e.
        split; [done|]. unfold positive_entry.
        by destruct (Z.ltb_spec 0 (type_score tl e)); [|lia]. }
      rewrite Forall_forall in Hmax. apply (Hmax _ Hine).
    - rewrite (dict_get_in _ _ _ Hwf Hin). cbn [default].
      by rewrite Hsum. }
  assert (Hzero :
    Forall (fun e => type_score tl e = 0) document_types <-> scores_of tl = []).
  { rewrite scores_of_omap. apply positive_entries_nil. }
  assert (Hunknown : scores_of tl = [] <-> analyze_document_type text = unknown_type).
  { unfold analyze_document_type. fold tl.
    destruct (scores_of tl); split; done. }
  split; [by rewrite Hzero|]. split.
  - destruct (scores_of tl) as [|first rest] eqn:Hsc.
    + left. by apply Hunknown.
    + right. by apply Hnonzero.
  - intros entry Hentry Hpos Hothers.
    destruct Hnonzero as (e & He & Hty & Hpe & _ & Hconf).
    { intros Hnil. apply Hzero in Hnil. rewrite Forall_forall in Hnil.
      specialize (Hnil _ Hentry). lia. }
    assert (e = entry) as ->.
    { destruct (decide (e = entry)) as [|Hne]; [done|].
      specialize (Hothers e He Hne). lia. }
    split; [done|]. rewrite Hconf.
    unfold total_type_score.
    rewrite (sum_single _ _ entry document_types_NoDup Hentry Hothers).
    apply Qmult_inv_r. unfold Qeq. simpl. lia.
Qed.

End Classifier.

(** ** Merging a document *)

Section Merge.
Import CaseManager.

Lemma merge_entity_get (ents : Dict.t entval) (k kind : string)
    (values : list string) :
  Dict.get (merge_entity ents k values) kind
  = if String.eqb k kind
    then (fun v => ESet (members v ∪ list_to_set values)) <$> Dict.get ents k
    else Dict.get ents kind.
Proof.
  unfold merge_entity.
  destruct (Dict.get ents k) as [[s|l]|] eqn:Hk; rewrite ?dict_get_set.
  - destruct (String.eqb_spec k kind); done.
  - destruct (String.eqb_spec k kind); [|done]. simpl.
    by rewrite list_to_set_app_L.
  - destruct (String.eqb_spec k kind) as [<-|]; [|done]. by rewrite Hk.
Qed.

Lemma merge_entities_get (doc_entities : Dict.t (list string))
    (ents : Dict.t entval) (kind : string) :
  Dict.wf doc_entities ->
  Dict.get (merge_entities doc_entities ents) kind
  = match Dict.get doc_entities kind with
    | Some values =>
        (fun v => ESet (members v ∪ list_to_set values)) <$> Dict.get ents kind
    | None => Dict.get ents kind
    end.
Proof.
  unfold merge_entities, Dict.wf. revert ents.
  induction doc_entities as [|[k values] d IH]; intros ents Hnd; simpl.
  { done. }
  apply NoDup_cons in Hnd as [Hk Hnd].
  rewrite IH by done. rewrite merge_entity_get.
  destruct (String.eqb_spec k kind) as [<-|Hne]; [|done].
  apply dict_get_None in Hk. simpl in Hk. by rewrite Hk.
Qed.

Lemma merge_entities_nil (doc_entities : Dict.t (list string)) :
  merge_entities doc_entities [] = [].
Proof.
  unfold merge_entities. induction doc_entities as [|[k v] d IH]; done.
Qed.

Lemma entities_of_alter (f : Dict.t entval -> Dict.t entval) (h : heap)
    (c c' : Case) :
  entities c' = entities c -> f [] = [] ->
  entities_of (alter f (entities c) h) c' = f (entities_of h c).
Proof.
  intros He Hf. unfold entities_of, Dict.t in *.
  rewrite He, lookup_alter_eq.
  destruct (h !! entities c); simpl; [done | by rewrite Hf].
Qed.

Lemma dict_keys_set_present {V : Type} (d : Dict.t V) (k : string) (v : V) :
  k ∈ Dict.keys d -> Dict.keys (Dict.set d k v) = Dict.keys d.
Proof.
  induction d as [|[k0 v0] d IH]; simpl.
  { by intros ?%elem_of_nil. }
  destruct (String.eqb_spec k0 k) as [->|Hne]; [done|].
  intros [?|Hin]%elem_of_cons; [congruence|].
  simpl. f_equal. by apply IH.
Qed.






End Merge.

(** ** Contradictions *)

Section Contradictions.
Import CaseManager.

Lemma size_gt_1 (X : gset string) :
  (1 < size X)%nat <-> exists x y, x ∈ X /\ y ∈ X /\ x <> y.
Proof.
  split.
  - intros Hsize.
    destruct (size_pos_elem_of X) as [x Hx]; [lia|].
    assert (Hsub : ({[x]} : gset string) ⊆ X) by by apply singleton_subseteq_l.
    pose proof (size_difference X {[x]} Hsub) as Hd.
    rewrite size_singleton in Hd.
    destruct (size_pos_elem_of (X ∖ {[x]})) as [y Hy]; [lia|].
    apply elem_of_difference in Hy as [Hy Hne].
    exists x, y. repeat split; [done | done |].
    intros ->. apply Hne. by apply elem_of_singleton.
  - intros (x & y & Hx & Hy & Hne).
    assert (Hsub : ({[x]} ∪ {[y]} : gset string) ⊆ X).
    { apply union_subseteq. split; by apply singleton_subseteq_l. }
    apply subseteq_size in Hsub.
    rewrite size_union in Hsub.
    + rewrite !size_singleton in Hsub. lia.
    + apply disjoint_singleton_l. by intros ?%elem_of_singleton.
Qed.

Lemma group_by_value_items (docs : Dict.t DocEntry) :
  group_by_value "case_numbers" docs = group_items (numbered_refs docs) [].
Proof.
  unfold group_by_value, group_items, numbered_refs.
  generalize (@nil (string * list DocRef)).
  induction docs as [|[pdf_hash doc] docs IH]; intros groups; simpl; [done|].
  rewrite fold_left_app, <- IH. f_equal.
  unfold case_numbers_of, ref_of. simpl.
  destruct (doc_entity doc "case_numbers") as [values|]; simpl; [|done].
  revert groups. induction values as [|v values IHv]; intros groups; simpl;
    [done | by rewrite IHv].
Qed.

Lemma group_append_get (groups : Dict.t (list DocRef)) (k n : string)
    (r : DocRef) :
  Dict.get (group_append groups k r) n
  = if String.eqb k n then Some (default [] (Dict.get groups k) ++ [r])
    else Dict.get groups n.
Proof.
  unfold group_append.
  destruct (Dict.get groups k) as [rs|]; rewrite dict_get_set;
    by destruct (String.eqb k n).
Qed.

Lemma group_append_wf (groups : Dict.t (list DocRef)) (k : string) (r : DocRef) :
  Dict.wf groups -> Dict.wf (group_append groups k r).
Proof.
  unfold group_append. destruct (Dict.get groups k); apply dict_wf_set.
Qed.

Lemma group_items_wf (items : list (string * DocRef))
    (groups : Dict.t (list DocRef)) :
  Dict.wf groups -> Dict.wf (group_items items groups).
Proof.
  unfold group_items. revert groups.
  induction items as [|it items IH]; intros groups Hwf; simpl; [done|].
  by apply IH, group_append_wf.
Qed.

Lemma group_items_get (items : list (string * DocRef))
    (groups : Dict.t (list DocRef)) (n : string) :
  Dict.get (group_items items groups) n
  = match Dict.get groups n, refs_of_value items n with
    | None, [] => None
    | o, rs => Some (default [] o ++ rs)
    end.
Proof.
  unfold group_items, refs_of_value. revert groups.
  induction items as [|[k r] items IH]; intros groups; simpl.
  { destruct (Dict.get groups n); simpl; [by rewrite app_nil_r | done]. }
  rewrite IH, group_append_get. simpl.
  destruct (String.eqb_spec k n) as [->|Hne]; simpl.
  - destruct (Dict.get groups n) as [rs|]; simpl.
    + by rewrite <- app_assoc.
    + done.
  - done.
Qed.

Lemma flag_case_number (docs : Dict.t DocEntry) (k : string)
    (refs : list DocRef) (c : Contradiction) :
  c ∈ flag docs k refs ->
  con_case_number c = k /\ con_type c = "case_number_inconsistency"
  /\ con_severity c = "medium".
Proof.
  unfold flag. destruct (1 <? length refs)%nat; [|by intros ?%elem_of_nil].
  destruct (1 <? size _)%nat; [|by intros ?%elem_of_nil].
  by intros ->%list_elem_of_singleton.
Qed.

Lemma filter_all {A : Type} (P : A -> Prop) `{!forall x, Decision (P x)}
    (l : list A) :
  (forall x, x ∈ l -> P x) -> filter P l = l.
Proof.
  induction l as [|x l IH]; intros Hall; [done|].
  rewrite filter_cons, decide_True by (apply Hall; by left).
  f_equal. apply IH. intros y Hy. apply Hall. by right.
Qed.

Lemma filter_none {A : Type} (P : A -> Prop) `{!forall x, Decision (P x)}
    (l : list A) :
  (forall x, x ∈ l -> ~ P x) -> filter P l = [].
Proof.
  induction l as [|x l IH]; intros Hall; [done|].
  rewrite filter_cons, decide_False by (apply Hall; by left).
  apply IH. intros y Hy. apply Hall. by right.
Qed.

(** The contradictions about one case number come from its group. *)
Lemma contradictions_of_number (docs : Dict.t DocEntry)
    (groups : Dict.t (list DocRef)) (n : string) :
  Dict.wf groups ->
  filter (fun c => con_case_number c = n)
         (flat_map (fun '(case_num, refs) => flag docs case_num refs) groups)
  = match Dict.get groups n with
    | Some refs => flag docs n refs
    | None => []
    end.
Proof.
  unfold Dict.wf.
  induction groups as [|[k refs] groups IH]; intros Hnd; simpl; [done|].
  apply NoDup_cons in Hnd as [Hk Hnd]. simpl in Hk.
  rewrite filter_app, IH by done.
  destruct (String.eqb_spec k n) as [->|Hne].
  - apply dict_get_None in Hk. rewrite Hk, app_nil_r.
    apply filter_all. intros c Hc. by apply flag_case_number in Hc as [? _].
  - rewrite filter_none; [done|].
    intros c Hc. apply flag_case_number in Hc as [? _]. congruence.
Qed.

Lemma elem_of_occurrences (docs : Dict.t DocEntry) (n : string) (r : DocRef) :
  r ∈ occurrences docs n
  <-> exists kv, kv ∈ docs /\ n ∈ case_numbers_of kv.2 /\ r = ref_of kv.
Proof.
  unfold occurrences, refs_of_value, numbered_refs.
  rewrite elem_of_flat_map. split.
  - intros ([v r'] & Hit & Hr). simpl in Hr.
    destruct (String.eqb_spec v n) as [->|]; [|by apply elem_of_nil in Hr].
    apply list_elem_of_singleton in Hr as ->.
    apply elem_of_flat_map in Hit as (kv & Hkv & Hit).
    apply list_elem_of_fmap in Hit as (v & [= -> ->] & Hv).
    by exists kv.
  - intros (kv & Hkv & Hn & ->). exists (n, ref_of kv). split.
    + apply elem_of_flat_map. exists kv. split; [done|].
      apply list_elem_of_fmap. by exists n.
    + simpl. rewrite String.eqb_refl. by left.
Qed.

Lemma type_of_hash_ref (docs : Dict.t DocEntry) (kv : string * DocEntry) :
  Dict.wf docs -> kv ∈ docs ->
  type_of_hash docs (ref_hash (ref_of kv))
  = doc_type_of (doc_legal_analysis kv.2).
Proof.
  intros Hwf Hkv. destruct kv as [h doc]. unfold type_of_hash. simpl.
  by rewrite (dict_get_in _ _ _ Hwf Hkv).
Qed.

Lemma length_gt_1 {A : Type} (l : list A) (x y : A) :
  x ∈ l -> y ∈ l -> x <> y -> (1 < length l)%nat.
Proof.
  destruct l as [|a [|b l]]; simpl; intros Hx Hy Hne; try lia.
  - by apply elem_of_nil in Hx.
  - apply list_elem_of_singleton in Hx, Hy. congruence.
Qed.

(** The flag is raised for the group of a case number exactly when its
    documents are of different types. *)
Lemma flag_occurrences (docs : Dict.t DocEntry) (n : string) :
  Dict.wf docs ->
  (types_differ docs n ->
   flag docs n (occurrences docs n) = [inconsistency docs n])
  /\ (~ types_differ docs n -> flag docs n (occurrences docs n) = []).
Proof.
  intros Hwf.
  set (types := list_to_set
                  (map (fun doc_info => type_of_hash docs (ref_hash doc_info))
                       (occurrences docs n)) : gset string).
  assert (Hiff : (1 < size types)%nat <-> types_differ docs n).
  { rewrite size_gt_1. unfold types. split.
    - intros (x & y & Hx & Hy & Hne).
      apply elem_of_list_to_set, list_elem_of_fmap in Hx as (r1 & -> & Hr1).
      apply elem_of_list_to_set, list_elem_of_fmap in Hy as (r2 & -> & Hr2).
      apply elem_of_occurrences in Hr1 as (kv1 & Hkv1 & Hn1 & ->).
      apply elem_of_occurrences in Hr2 as (kv2 & Hkv2 & Hn2 & ->).
      rewrite !type_of_hash_ref in Hne by done.
      by exists kv1, kv2.
    - intros (kv1 & kv2 & Hkv1 & Hkv2 & Hn1 & Hn2 & Hne).
      exists (doc_type_of (doc_legal_analysis kv1.2)),
             (doc_type_of (doc_legal_analysis kv2.2)).
      repeat split; [| |done].
      + apply elem_of_list_to_set, list_elem_of_fmap.
        exists (ref_of kv1). split; [by rewrite type_of_hash_ref|].
        apply elem_of_occurrences. by exists kv1.
      + apply elem_of_list_to_set, list_elem_of_fmap.
        exists (ref_of kv2). split; [by rewrite type_of_hash_ref|].
        apply elem_of_occurrences. by exists kv2. }
  unfold flag. fold types. split.
  - intros Hdiff. pose proof Hdiff as Hsize. apply Hiff in Hsize.
    destruct Hdiff as (kv1 & kv2 & Hkv1 & Hkv2 & Hn1 & Hn2 & Hne).
    assert (Hlen : (1 < length (occurrences docs n))%nat).
    { apply (length_gt_1 _ (ref_of kv1) (ref_of kv2)).
      - apply elem_of_occurrences. by exists kv1.
      - apply elem_of_occurrences. by exists kv2.
      - intros Heq. apply Hne.
        rewrite <- (type_of_hash_ref docs kv1), <- (type_of_hash_ref docs kv2)
          by done.
        by rewrite Heq. }
    apply Nat.ltb_lt in Hlen, Hsize. by rewrite Hlen, Hsize.
  - intros Hsame. destruct (1 <? length _)%nat; [|done].
    destruct (Nat.ltb_spec 1 (size types)) as [Hsize|]; [|done].
    by apply Hiff in Hsize.
Qed.

(** C4. For a case whose documents are filed under different hashes,
    [detect_contradictions] reports only medium-severity
    'case_number_inconsistency' contradictions, and for each case number:
    exactly one, naming the documents the number appears in, when the
    number appears in documents of different classified types, and none
    otherwise.  The list is stored as the contradictions of the case. *)
Theorem C4_one_contradiction_per_inconsistent_case_number :
  forall case_data : Case,
    Dict.wf (documents case_data) ->
    let out := (detect_contradictions case_data).2 in
    Forall (fun c => con_type c = "case_number_inconsistency"
                     /\ con_severity c = "medium") out
    /\ (forall n : string,
          (types_differ (documents case_data) n ->
           filter (fun c => con_case_number c = n) out
           = [inconsistency (documents case_data) n])
          /\ (~ types_differ (documents case_data) n ->
              filter (fun c => con_case_number c = n) out = []))
    /\ contradictions (detect_contradictions case_data).1 = out.
Proof.
  intros case_data Hwf out. split; [|split; [|done]].
  - apply Forall_forall. intros c Hc.
    unfold out, detect_contradictions in Hc. cbn [snd] in Hc.
    apply elem_of_flat_map in Hc as ([k refs] & _ & Hc).
    apply flag_case_number in Hc. tauto.
  - intros n. unfold out, detect_contradictions. cbn [snd].
    rewrite contradictions_of_number, group_by_value_items, group_items_get.
    2:{ rewrite group_by_value_items. by apply group_items_wf, NoDup_nil. }
    cbn [Dict.get default app].
    destruct (flag_occurrences (documents case_data) n Hwf) as [Hyes Hno].
    fold (occurrences (documents case_data) n).
    destruct (occurrences (documents case_data) n) as [|r rs] eqn:Hocc.
    + split; [|done]. intros Hdiff. specialize (Hyes Hdiff). done.
    + done.
Qed.

(** The theorem at a motion and an order that share a case number, with
    the lists the code returns for them and for two motions. *)
Lemma C4_witness_motion_and_order :
  (let out := (detect_contradictions (case_with motion_and_order [])).2 in
   Forall (fun c => con_type c = "case_number_inconsistency"
                    /\ con_severity c = "medium") out
   /\ (forall n : string,
         (types_differ motion_and_order n ->
          filter (fun c => con_case_number c = n) out
          = [inconsistency motion_and_order n])
         /\ (~ types_differ motion_and_order n ->
             filter (fun c => con_case_number c = n) out = []))
   /\ contradictions (detect_contradictions (case_with motion_and_order [])).1
      = out)
  /\ (detect_contradictions (case_with motion_and_order [])).2
     = [ {| con_type := "case_number_inconsistency";
            con_severity := "medium";
            con_description :=
              "Case number CV-2023-001 appears in documents of different types";
            con_documents := ["motion.pdf"; "order.pdf"];
            con_case_number := "CV-2023-001" |} ]
  /\ (detect_contradictions (case_with two_motions [])).2 = [].
Proof.
  split; [|split; vm_compute; reflexivity].
  apply (C4_one_contradiction_per_inconsistent_case_number
           (case_with motion_and_order [])).
  apply (bool_decide_unpack _). vm_compute. exact I.
Defined.

End Contradictions.

(** ** Rebuilding the actors and the contradictions *)

Section Idempotence.
Import CaseManager.

(** C5. [track_repeat_actors] computes its result from the documents and
    the violations of the case alone: a second call returns what the first
    returned and leaves the case as the first left it, whatever
    [actor_tracking] held before and also with [detect_contradictions] or
    [generate_timeline] in between.  The same holds for
    [detect_contradictions]. *)
Theorem C5_rebuilds_are_idempotent :
  forall case_data : Case,
    (track_repeat_actors (track_repeat_actors case_data).1
     = track_repeat_actors case_data
     /\ actor_tracking (track_repeat_actors case_data).1
        = (track_repeat_actors case_data).2
     /\ (forall stale : Dict.t Actor,
           (track_repeat_actors (set_actor_tracking case_data stale)).2
           = (track_repeat_actors case_data).2)
     /\ (track_repeat_actors (detect_contradictions case_data).1).2
        = (track_repeat_actors case_data).2
     /\ (track_repeat_actors (generate_timeline case_data).1).2
        = (track_repeat_actors case_data).2)
    /\ (detect_contradictions (detect_contradictions case_data).1
        = detect_contradictions case_data
        /\ contradictions (detect_contradictions case_data).1
           = (detect_contradictions case_data).2
        /\ (forall stale : list Contradiction,
              (detect_contradictions (set_contradictions case_data stale)).2
              = (detect_contradictions case_data).2)
        /\ (detect_contradictions (track_repeat_actors case_data).1).2
           = (detect_contradictions case_data).2
        /\ (detect_contradictions (generate_timeline case_data).1).2
           = (detect_contradictions case_data).2).
Proof.
  intros case_data. destruct case_data. repeat split.
Qed.

(** The actors of a case with two documents and three violations: the
    rebuild is not empty, and a second call returns it again. *)
Lemma track_repeat_actors_example :
  (fun '(k, a) => (k, act_severity_score a, length (act_violations a)))
    <$> (track_repeat_actors case_with_actors).2
  = [("Smith", 6, 3%nat); ("Jones", 4, 2%nat)]
  /\ (track_repeat_actors (track_repeat_actors case_with_actors).1).2
     = (track_repeat_actors case_with_actors).2.
Proof. split; vm_compute; reflexivity. Qed.

End Idempotence.

(** ** Saving and loading *)

Section Persistence.
Import CaseManager.
Variable str_of_set : gset string -> string.

Lemma entities_after_save (h : heap) (fs : files) (case_id : string)
    (case_data : Case) :
  entities_of (save_case_session str_of_set h fs case_id case_data).1 case_data
  = map (fun '(key, value) => (key, set_to_list value))
        (entities_of h case_data).
Proof.
  unfold save_case_session, _prepare_for_serialization, dict_copy.
  cbn [fst]. by apply entities_of_alter.
Qed.

Lemma reload_entity (v : entval) :
  list_to_set_entity (save_entity str_of_set (set_to_list v)) = reloaded v.
Proof.
  destruct v as [s|l]; simpl; [|done].
  unfold reloaded, list_of_set. simpl. by rewrite list_to_set_elements_L.
Qed.

(** What [load_case_session] reads from the directory that
    [save_case_session] has written. *)
Lemma load_after_save (h : heap) (fs : files) (case_id : string)
    (case_data : Case) :
  exists loaded : LoadedCase,
    load_case_session
      (save_case_session str_of_set h fs case_id case_data).2 case_id
    = Some loaded
    /\ lc_entities loaded
       = map (fun '(kind, v) => (kind, reloaded v)) (entities_of h case_data)
    /\ lc_violations loaded = violations case_data.
Proof.
  unfold load_case_session, save_case_session, _prepare_for_serialization,
    dict_copy.
  cbn [snd]. rewrite lookup_insert_eq.
  eexists. split; [done|]. split; [|done].
  unfold _prepare_from_serialization, json_dump. cbn [lc_entities sc_entities].
  rewrite (entities_of_alter _ h case_data case_data) by done.
  rewrite !map_map. apply map_ext. intros [kind v].
  by rewrite reload_entity.
Qed.

(** C9. A case that is saved and loaded again has, under each entity
    kind, the set of the members that the kind had before the save, be
    the value a set or a list then; and it has the same list of
    violations, in the same order. *)
Theorem C9_save_load_round_trip :
  forall (h : heap) (fs : files) (case_id : string) (case_data : Case),
    exists loaded : LoadedCase,
      load_case_session
        (save_case_session str_of_set h fs case_id case_data).2 case_id
      = Some loaded
      /\ Dict.keys (lc_entities loaded) = Dict.keys (entities_of h case_data)
      /\ (forall (kind : string) (v : entval),
            Dict.get (entities_of h case_data) kind = Some v ->
            Dict.get (lc_entities loaded) kind = Some (LSet (members v)))
      /\ lc_entities loaded
         = map (fun '(kind, v) => (kind, reloaded v)) (entities_of h case_data)
      /\ lc_violations loaded = violations case_data.
Proof.
  intros h fs case_id case_data.
  destruct (load_after_save h fs case_id case_data)
    as (loaded & Hload & Hents & Hviol).
  exists loaded. repeat split; try done; rewrite Hents.
  - unfold Dict.keys. rewrite map_map. by apply map_ext; intros [? ?].
  - intros kind v. clear Hload Hents.
    induction (entities_of h case_data) as [|[k v0] d IH]; simpl; [done|].
    destruct (String.eqb k kind); [|done]. by intros [= ->].
Qed.

(** A case whose entities are a set and a list with a repeated member:
    the file holds two arrays, and loading gives two sets. *)
Lemma save_load_example :
  let saved :=
    save_case_session str_of_set heap_with_entities ∅ "c0ffee00"
                      case_with_actors in
  sc_entities <$> (saved.2 !! case_file "c0ffee00")
  = Some [("judges", SArray (list_of_set {[ "Smith"; "Jones" ]}));
          ("case_numbers", SArray ["CV-1"; "CV-1"])]
  /\ lc_entities <$> load_case_session saved.2 "c0ffee00"
     = Some [("judges", LSet {[ "Smith"; "Jones" ]});
             ("case_numbers", LSet {[ "CV-1" ]})]
  /\ lc_violations <$> load_case_session saved.2 "c0ffee00"
     = Some (violations case_with_actors).
Proof. repeat split; vm_compute; reflexivity. Qed.

(** C10. After [save_case_session] the entities of the caller's case are
    the lists that were written: no value is a set any more, and a kind
    that held a set holds the list of its members.  Loading the saved
    case gives sets again.  A new case that is saved holds six empty
    lists. *)
Theorem C10_save_turns_sets_into_lists_in_memory :
  forall (h : heap) (fs : files) (case_id : string) (case_data : Case),
    let h' := (save_case_session str_of_set h fs case_id case_data).1 in
    entities_of h' case_data
    = map (fun '(kind, v) => (kind, set_to_list v)) (entities_of h case_data)
    /\ Forall (fun kv => is_set kv.2 = false) (entities_of h' case_data)
    /\ (forall (kind : string) (s : gset string),
          Dict.get (entities_of h case_data) kind = Some (ESet s) ->
          Dict.get (entities_of h' case_data) kind
          = Some (EList (list_of_set s)))
    /\ (exists loaded : LoadedCase,
          load_case_session
            (save_case_session str_of_set h fs case_id case_data).2 case_id
          = Some loaded
          /\ Forall (fun kv => exists s, kv.2 = LSet s) (lc_entities loaded))
    /\ entities_of
         (save_case_session str_of_set new_case.1 fs case_id new_case.2).1
         new_case.2
       = [("judges", EList []); ("attorneys", EList []);
          ("caseworkers", EList []); ("children", EList []);
          ("case_numbers", EList []); ("courts", EList [])].
Proof.
  intros h fs case_id case_data h'. unfold h'.
  rewrite !entities_after_save.
  split; [done|]. split; [|split; [|split; [|by vm_compute]]].
  3:{ destruct (load_after_save h fs case_id case_data)
        as (loaded & Hload & Hents & _).
      exists loaded. split; [done|]. rewrite Hents.
      apply Forall_forall. intros [k v] Hin.
      apply list_elem_of_fmap in Hin as ([k0 v0] & [= -> ->] & _).
      by eexists. }
  - apply Forall_forall. intros [k v] Hin.
    apply list_elem_of_fmap in Hin as ([k0 v0] & [= -> ->] & _).
    by destruct v0.
  - intros kind s.
    induction (entities_of h case_data) as [|[k v] d IH]; simpl; [done|].
    destruct (String.eqb k kind); [|done]. by intros [= ->].
Qed.

End Persistence.

(* ===================================================================== *)
(** * Further properties *)
(* ===================================================================== *)

(** ** Lengths of strings *)

Section StrLengths.

Lemma length_take (n : nat) (s : string) :
  String.length (Str.take n s) = Nat.min n (String.length s).
Proof.
  revert s. induction n as [|n IH]; intros [|c s]; simpl; try done.
  by rewrite IH.
Qed.

Lemma length_drop (n : nat) (s : string) :
  String.length (Str.drop n s) = (String.length s - n)%nat.
Proof.
  revert s. induction n as [|n IH]; intros [|c s]; simpl; try done.
Qed.

Lemma length_lstrip (s : string) :
  (String.length (Str.lstrip s) <= String.length s)%nat.
Proof.
  induction s as [|c s IH]; simpl; [done|].
  destruct (Str.isspace c); simpl; lia.
Qed.

Lemma length_rstrip (s : string) :
  (String.length (Str.rstrip s) <= String.length s)%nat.
Proof.
  induction s as [|c s IH]; simpl; [done|].
  destruct (Str.rstrip s) as [|d r]; simpl in *.
  - destruct (Str.isspace c); simpl; lia.
  - lia.
Qed.

Lemma length_strip (s : string) :
  (String.length (Str.strip s) <= String.length s)%nat.
Proof.
  unfold Str.strip.
  pose proof (length_rstrip (Str.lstrip s)). pose proof (length_lstrip s). lia.
Qed.

Lemma length_slice (a b : Z) (s : string) :
  0 <= a -> a <= b -> b <= Str.len s ->
  Z.of_nat (String.length (Str.slice a b s)) = b - a.
Proof.
  unfold Str.slice, Str.len. intros Ha Hab Hb.
  rewrite length_take, length_drop. lia.
Qed.

Lemma length_slice_le (a b : Z) (s : string) :
  a <= b -> Z.of_nat (String.length (Str.slice a b s)) <= b - a.
Proof.
  unfold Str.slice. intros Hab. rewrite length_take. lia.
Qed.

End StrLengths.

(** ** Where a match can lie *)

Section Matches.
Import Re.

Lemma star_class_shorter {R : Type} (p : charclass) (s : string)
    (k : string -> option R) (res : R) :
  star_class p s k = Some res ->
  exists s', k s' = Some res /\ (String.length s' <= String.length s)%nat.
Proof.
  induction s as [|c s IH]; simpl.
  - intros H. by exists "".
  - destruct (in_class p c).
    + destruct (star_class p s k) as [r|] eqn:Hs.
      * intros [= ->]. destruct (IH eq_refl) as (s' & Hk & Hl).
        exists s'. split; [done | lia].
      * intros H. exists (String c s). by split.
    + intros H. exists (String c s). by split.
Qed.

(** A match ends where the rest of the pattern took over, and that is
    further on when the expression matches no empty text. *)
Lemma rmatch_shorter {R : Type} (r : regex) :
  forall (s : string) (cs : captures)
         (k : string -> captures -> option R) (res : R),
    rmatch r s cs k = Some res ->
    exists s' cs',
      k s' cs' = Some res
      /\ (String.length s' <= String.length s)%nat
      /\ (nonempty r = true -> (String.length s' < String.length s)%nat).
Proof.
  induction r as [|c|p|r1 IH1 r2 IH2|r1 IH1 r2 IH2|r1 IH1|p|name r1 IH1];
    intros s cs k res; simpl.
  - intros H. exists s, cs. repeat split; [done | lia | done].
  - destruct s as [|x s]; [done|].
    destruct (Ascii.eqb _ _); [|done].
    intros H. exists s, cs. repeat split; simpl; [done | lia | lia].
  - destruct s as [|x s]; [done|].
    destruct (in_class p x); [|done].
    intros H. exists s, cs. repeat split; simpl; [done | lia | lia].
  - intros H. apply IH1 in H as (s1 & cs1 & H & Hl1 & Hn1).
    apply IH2 in H as (s2 & cs2 & H & Hl2 & Hn2).
    exists s2, cs2. repeat split; [done | lia |].
    intros [Hne|Hne]%orb_true_iff; [specialize (Hn1 Hne) | specialize (Hn2 Hne)];
      lia.
  - destruct (rmatch r1 s cs k) as [x|] eqn:H1.
    + intros [= ->]. apply IH1 in H1 as (s1 & cs1 & H & Hl1 & Hn1).
      exists s1, cs1. repeat split; [done | done |].
      intros [Hne _]%andb_true_iff. auto.
    + intros H. apply IH2 in H as (s2 & cs2 & H & Hl2 & Hn2).
      exists s2, cs2. repeat split; [done | done |].
      intros [_ Hne]%andb_true_iff. auto.
  - destruct (rmatch r1 s cs k) as [x|] eqn:H1.
    + intros [= ->]. apply IH1 in H1 as (s1 & cs1 & H & Hl1 & _).
      exists s1, cs1. repeat split; [done | done | done].
    + intros H. exists s, cs. repeat split; [done | lia | done].
  - destruct s as [|x s]; [done|].
    destruct (in_class p x); [|done].
    intros H. apply star_class_shorter in H as (s' & H & Hl).
    exists s', cs. repeat split; simpl; [done | lia | lia].
  - intros H. apply IH1 in H as (s1 & cs1 & H & Hl1 & Hn1).
    eexists s1, _. repeat split; [exact H | done | done].
Qed.

Lemma match_prefix_shorter (r : regex) (s rest : string) (cs : captures) :
  match_prefix r s = Some (rest, cs) ->
  (String.length rest <= String.length s)%nat
  /\ (nonempty r = true -> (String.length rest < String.length s)%nat).
Proof.
  unfold match_prefix. intros H.
  apply rmatch_shorter in H as (s' & cs' & [= -> ->] & Hl & Hn). done.
Qed.

(** The matches of a scan lie in the text that is scanned, behind the
    part that is skipped. *)
Lemma finditer_from_bounds (r : regex) (s : string) (pos : Z) (skip : nat) :
  Forall (fun m => pos + Z.of_nat skip <= m.1 /\ m.1 <= m.2
                   /\ m.2 <= pos + Str.len s
                   /\ (nonempty r = true -> m.1 < m.2))
         (finditer_from r s pos skip).
Proof.
  revert pos skip. unfold Str.len.
  induction s as [|c s IH]; intros pos skip; simpl.
  - destruct skip; [|constructor].
    destruct (match_prefix r "") as [[rest cs]|] eqn:Hm; [|constructor].
    apply match_prefix_shorter in Hm as [_ Hn]. simpl in Hn.
    constructor; [|constructor]. simpl. repeat split; try lia.
    intros Hne. specialize (Hn Hne). lia.
  - destruct skip as [|k].
    + destruct (match_prefix r (String c s)) as [[rest cs]|] eqn:Hm.
      * apply match_prefix_shorter in Hm as [Hl Hn]. simpl in Hl, Hn.
        constructor.
        -- simpl. repeat split; try lia.
           intros Hne. specialize (Hn Hne). lia.
        -- eapply Forall_impl; [apply IH|].
           intros [a b] (H1 & H2 & H3 & H4). simpl in *.
           repeat split; [lia | lia | lia | exact H4].
      * eapply Forall_impl; [apply IH|].
        intros [a b] (H1 & H2 & H3 & H4). simpl in *.
        repeat split; [lia | lia | lia | exact H4].
    + eapply Forall_impl; [apply IH|].
      intros [a b] (H1 & H2 & H3 & H4). simpl in *.
      repeat split; [lia | lia | lia | exact H4].
Qed.

End Matches.

(** ** The detector: positions, tables and hints *)

Section DetectorMore.
Import ViolationDetector.

Lemma flat_map_app_l {A B : Type} (f : A -> list B) (l1 l2 : list A) :
  flat_map f (l1 ++ l2) = flat_map f l1 ++ flat_map f l2.
Proof. induction l1 as [|x l1 IH]; simpl; [done|]. by rewrite IH, app_assoc. Qed.

Lemma select_patterns_spec (text document_type : string) :
  select_patterns (Str.lower text) document_type
  = violation_patterns
    ++ (if cps_selected text document_type then cps_violations else [])
    ++ (if family_selected text document_type
        then family_court_violations else []).
Proof.
  unfold select_patterns, cps_selected, family_selected.
  destruct (_ || _); destruct (_ || _); vm_compute; reflexivity.
Qed.

Lemma raw_matches_tables (text document_type : string) :
  raw_matches text document_type
  = table_matches text violation_patterns
    ++ (if cps_selected text document_type
        then table_matches text cps_violations else [])
    ++ (if family_selected text document_type
        then table_matches text family_court_violations else []).
Proof.
  unfold raw_matches. rewrite select_patterns_spec.
  fold (table_matches text
          (violation_patterns
           ++ (if cps_selected text document_type then cps_violations else [])
           ++ (if family_selected text document_type
               then family_court_violations else []))).
  unfold table_matches. rewrite !flat_map_app_l.
  by destruct (cps_selected _ _), (family_selected _ _).
Qed.

Lemma table_matches_inv (text : string) (table : Dict.t PatternInfo)
    (v : Violation) :
  v ∈ table_matches text table ->
  exists violation_type violation_info pattern m,
    (violation_type, violation_info) ∈ table
    /\ pattern ∈ patterns violation_info
    /\ m ∈ pattern_matches pattern (Str.lower text)
    /\ v = match_record text (Str.lower text) violation_type violation_info m.
Proof.
  unfold table_matches. intros Hv.
  apply elem_of_flat_map in Hv as ([k info] & Hkv & Hv).
  apply elem_of_flat_map in Hv as (p & Hp & Hv).
  apply list_elem_of_fmap in Hv as (m & -> & Hm).
  by exists k, info, p, m.
Qed.

Lemma raw_matches_in_table (text document_type : string) (v : Violation) :
  v ∈ raw_matches text document_type ->
  v ∈ table_matches text violation_patterns
  \/ (cps_selected text document_type = true
      /\ v ∈ table_matches text cps_violations)
  \/ (family_selected text document_type = true
      /\ v ∈ table_matches text family_court_violations).
Proof.
  rewrite raw_matches_tables, !elem_of_app.
  destruct (cps_selected _ _), (family_selected _ _);
    intros [?|[?|?]]; auto; by apply elem_of_nil in H.
Qed.

Lemma raw_matches_from_tables (text document_type : string) (v : Violation) :
  v ∈ raw_matches text document_type -> v ∈ table_matches text all_tables.
Proof.
  intros Hv. unfold all_tables, table_matches. rewrite !flat_map_app_l.
  rewrite !elem_of_app.
  apply raw_matches_in_table in Hv as [?|[[_ ?]|[_ ?]]]; auto.
Qed.

(** Every pattern of the tables compiles to an expression that matches no
    empty text. *)
Lemma table_patterns_nonempty :
  forallb (fun kv =>
             forallb (fun p => match Re.compile p with
                               | Some r => nonempty r
                               | None => false
                               end) (patterns kv.2))
          all_tables = true.
Proof. vm_compute. reflexivity. Qed.

Lemma pattern_matches_bounds (kv : string * PatternInfo) (p s : string) :
  kv ∈ all_tables -> p ∈ patterns kv.2 ->
  Forall (fun m => 0 <= m.1 /\ m.1 < m.2 /\ m.2 <= Str.len s)
         (pattern_matches p s).
Proof.
  intros Hkv%list_elem_of_In Hp%list_elem_of_In.
  pose proof table_patterns_nonempty as Hall.
  rewrite forallb_forall in Hall. specialize (Hall kv Hkv).
  rewrite forallb_forall in Hall. specialize (Hall p Hp).
  unfold pattern_matches. destruct (Re.compile p) as [r|]; [|done].
  unfold Re.finditer.
  eapply Forall_impl; [apply finditer_from_bounds|].
  intros [a b] (H1 & H2 & H3 & H4). simpl in *. specialize (H4 Hall). lia.
Qed.

Lemma detect_violations_from_tables (text document_type : string)
    (v : Violation) :
  v ∈ detect_violations text document_type ->
  v ∈ table_matches text all_tables.
Proof. intros Hv%detect_violations_raw. by eapply raw_matches_from_tables. Qed.

(** The record of a match found in any lowered text: nothing here rests
    on the lowered text being as long as the text. *)
Lemma match_record_bounds (text text_lower k : string) (info : PatternInfo)
    (p : string) (m : Z * Z) :
  (k, info) ∈ all_tables -> p ∈ patterns info ->
  m ∈ pattern_matches p text_lower ->
  exists (a b : Z) (matched context : string),
    v_position (match_record text text_lower k info m) = Some (a, b)
    /\ 0 <= a /\ a < b /\ b <= Str.len text_lower
    /\ v_pattern_matched (match_record text text_lower k info m)
       = Some matched
    /\ matched = Str.slice a b text_lower
    /\ Str.len matched = b - a
    /\ v_context (match_record text text_lower k info m) = Some context
    /\ context
       = Str.strip (Str.slice (Z.max 0 (a - 100))
                              (Z.min (Str.len text) (b + 100)) text)
    /\ Str.len context <= b - a + 200.
Proof.
  intros Hkv Hp Hm. destruct m as [a b].
  pose proof (pattern_matches_bounds (k, info) p text_lower Hkv Hp) as Hb.
  rewrite Forall_forall in Hb. specialize (Hb _ Hm). simpl in Hb.
  destruct Hb as (Ha & Hab & Hbl).
  exists a, b. do 2 eexists. simpl.
  repeat split; try done.
  - unfold Str.len at 1. rewrite length_slice; [done | done | lia | done].
  - unfold Str.len at 1.
    pose proof (length_strip
                  (Str.slice (Z.max 0 (a - 100))
                             (Z.min (Str.len text) (b + 100)) text)) as Hs.
    assert (Hsl : Z.of_nat (String.length
                              (Str.slice (Z.max 0 (a - 100))
                                 (Z.min (Str.len text) (b + 100)) text))
                  <= Z.max 0 (Z.min (Str.len text) (b + 100)
                              - Z.max 0 (a - 100))).
    { unfold Str.slice. rewrite length_take. lia. }
    lia.
Qed.

(** X1. Every violation that [detect_violations] returns records a match
    that is not empty and lies in the lower-cased text, in which it was
    found; the matched text is that part of the lower-cased text and has
    the length of the match; the context is cut from the text itself at
    the positions of the match, widened by 100 to each side, and is at
    most 200 characters longer than the match.  A text without characters
    has no violations. *)
Theorem detect_violations_positions :
  forall text document_type : string,
    Forall (fun v =>
              exists (a b : Z) (matched context : string),
                v_position v = Some (a, b)
                /\ 0 <= a /\ a < b /\ b <= Str.len (Str.lower text)
                /\ v_pattern_matched v = Some matched
                /\ matched = Str.slice a b (Str.lower text)
                /\ Str.len matched = b - a
                /\ v_context v = Some context
                /\ context
                   = Str.strip
                       (Str.slice (Z.max 0 (a - 100))
                                  (Z.min (Str.len text) (b + 100)) text)
                /\ Str.len context <= b - a + 200)
           (detect_violations text document_type)
    /\ detect_violations "" document_type = [].
Proof.
  assert (Hpos : forall text document_type,
    Forall (fun v =>
              exists (a b : Z) (matched context : string),
                v_position v = Some (a, b)
                /\ 0 <= a /\ a < b /\ b <= Str.len (Str.lower text)
                /\ v_pattern_matched v = Some matched
                /\ matched = Str.slice a b (Str.lower text)
                /\ Str.len matched = b - a
                /\ v_context v = Some context
                /\ context
                   = Str.strip
                       (Str.slice (Z.max 0 (a - 100))
                                  (Z.min (Str.len text) (b + 100)) text)
                /\ Str.len context <= b - a + 200)
           (detect_violations text document_type)).
  { intros text document_type. apply Forall_forall. intros v Hv.
    apply detect_violations_from_tables, table_matches_inv in Hv
      as (k & info & p & m & Hkv & Hp & Hm & ->).
    by eapply match_record_bounds. }
  intros text document_type. split; [apply Hpos|].
  specialize (Hpos "" document_type).
  destruct (detect_violations "" document_type) as [|v l]; [done|].
  apply Forall_cons in Hpos as [(a & b & ? & ? & _ & ? & ? & Hb & _) _].
  change (Str.len (Str.lower "")) with 0 in Hb. lia.
Qed.

Lemma table_keys_disjoint :
  forallb (fun k => negb (bool_decide (k ∈ Dict.keys violation_patterns)))
          (Dict.keys cps_violations ++ Dict.keys family_court_violations)
  && forallb (fun k => negb (bool_decide (k ∈ Dict.keys cps_violations)))
             (Dict.keys family_court_violations) = true.
Proof. vm_compute. reflexivity. Qed.

Lemma table_matches_type (text : string) (table : Dict.t PatternInfo)
    (v : Violation) :
  v ∈ table_matches text table -> v_type v ∈ Dict.keys table.
Proof.
  intros (k & info & p & [a b] & Hkv & _ & _ & ->)%table_matches_inv.
  simpl. unfold Dict.keys. apply list_elem_of_fmap. by exists (k, info).
Qed.

Lemma keys_apart (k : string) :
  (k ∈ Dict.keys cps_violations -> k ∉ Dict.keys violation_patterns)
  /\ (k ∈ Dict.keys family_court_violations ->
      (k ∉ Dict.keys violation_patterns) /\ (k ∉ Dict.keys cps_violations)).
Proof.
  pose proof table_keys_disjoint as [H1 H2]%andb_true_iff.
  rewrite forallb_forall in H1, H2.
  split.
  - intros Hk Hk'. specialize (H1 k).
    rewrite in_app_iff, <- !list_elem_of_In in H1.
    specialize (H1 (or_introl Hk)).
    apply negb_true_iff, bool_decide_eq_false in H1. done.
  - intros Hk. split; intros Hk'.
    + specialize (H1 k). rewrite in_app_iff, <- !list_elem_of_In in H1.
      specialize (H1 (or_intror Hk)).
      apply negb_true_iff, bool_decide_eq_false in H1. done.
    + specialize (H2 k). rewrite <- list_elem_of_In in H2.
      specialize (H2 Hk).
      apply negb_true_iff, bool_decide_eq_false in H2. done.
Qed.

(** X2. A violation of the CPS/DHR table is returned only when the hint
    contains 'cps' or the text mentions CPS, child protective services or
    DHR; a violation of the family-court table only when the hint contains
    'custody' or the text mentions a family court. *)
Theorem special_tables_need_their_trigger :
  forall text document_type : string,
    Forall (fun v =>
              (v_type v ∈ Dict.keys cps_violations ->
               cps_selected text document_type = true)
              /\ (v_type v ∈ Dict.keys family_court_violations ->
                  family_selected text document_type = true))
           (detect_violations text document_type).
Proof.
  intros text document_type. apply Forall_forall.
  intros v Hv%detect_violations_raw%raw_matches_in_table.
  destruct (keys_apart (v_type v)) as [Hc Hf].
  destruct Hv as [Hv | [[Hsel Hv] | [Hsel Hv]]];
    apply table_matches_type in Hv; split; intros Hk; tauto.
Qed.

End DetectorMore.

(** ** Sorting by a numeric key and selecting *)

Section SortSelect.
Context {A : Type} (key : A -> Z).
Context (P : A -> Prop) `{!forall x, Decision (P x)}.

Lemma insert_desc_head (x : A) (l : list A) :
  Forall (fun y => key y <= key x) l ->
  PySort.insert (fun y x => key x <? key y) x l = x :: l.
Proof.
  destruct l as [|y l]; [done|]. intros [Hy _]%Forall_cons. simpl.
  destruct (Z.ltb_spec (key x) (key y)); [lia|done].
Qed.

Lemma insert_desc_sorted (x : A) (l : list A) :
  StronglySorted (fun a b => key b <= key a) l ->
  StronglySorted (fun a b => key b <= key a)
                 (PySort.insert (fun y x => key x <? key y) x l).
Proof.
  induction 1 as [|y l Hs IH Hhd]; simpl.
  - repeat constructor.
  - destruct (Z.ltb_spec (key x) (key y)) as [Hlt|Hge].
    + constructor; [done|].
      rewrite (insert_perm _ x l). constructor; [lia|done].
    + constructor; [by constructor|].
      constructor; [done|].
      eapply Forall_impl; [exact Hhd|]. simpl. lia.
Qed.

Lemma sort_desc_sorted (l : list A) :
  StronglySorted (fun a b => key b <= key a) (PySort.sort_desc Z.ltb key l).
Proof.
  induction l as [|x l IH]; simpl; [constructor|].
  by apply insert_desc_sorted.
Qed.

Lemma filter_insert_desc (x : A) (l : list A) :
  StronglySorted (fun a b => key b <= key a) l ->
  filter P (PySort.insert (fun y x => key x <? key y) x l)
  = if decide (P x)
    then PySort.insert (fun y x => key x <? key y) x (filter P l)
    else filter P l.
Proof.
  induction 1 as [|y l Hs IH Hhd]; simpl.
  { rewrite filter_cons. by destruct (decide (P x)). }
  destruct (Z.ltb_spec (key x) (key y)) as [Hlt|Hge].
  - rewrite !filter_cons, IH.
    destruct (decide (P y)), (decide (P x)); simpl; try done.
    destruct (Z.ltb_spec (key x) (key y)); [done|lia].
  - rewrite (filter_cons _ x). destruct (decide (P x)); [|done].
    rewrite insert_desc_head; [done|].
    apply Forall_forall. intros z Hz%list_elem_of_filter.
    destruct Hz as [_ Hz]. apply elem_of_cons in Hz as [->|Hz]; [done|].
    rewrite Forall_forall in Hhd. specialize (Hhd z Hz). simpl in Hhd. lia.
Qed.

(** Selecting from the sorted list is sorting the selection. *)
Lemma filter_sort_desc (l : list A) :
  filter P (PySort.sort_desc Z.ltb key l)
  = PySort.sort_desc Z.ltb key (filter P l).
Proof.
  induction l as [|x l IH]; [done|].
  change (PySort.sort_desc Z.ltb key (x :: l))
    with (PySort.insert (fun y x => key x <? key y) x
            (PySort.sort_desc Z.ltb key l)).
  rewrite filter_insert_desc by apply sort_desc_sorted.
  rewrite filter_cons, IH. by destruct (decide (P x)).
Qed.

End SortSelect.

Section HintIndependence.
Import ViolationDetector.

Lemma filter_first_of_kind (P : Violation -> Prop)
    `{!forall v, Decision (P v)} (before l : list Violation) :
  (forall v w, same_kind v w -> P v -> P w) ->
  filter P (first_of_kind before l)
  = first_of_kind (filter P before) (filter P l).
Proof.
  intros HP. revert before.
  induction l as [|v l IH]; intros before; simpl; [done|].
  rewrite filter_app, IH, filter_app, !filter_cons, filter_nil.
  destruct (decide (P v)) as [Hv|Hv]; simpl.
  - assert (Hiff : Exists (same_kind v) before
                   <-> Exists (same_kind v) (filter P before)).
    { rewrite !Exists_exists. split.
      - intros (u & Hu & Hs). exists u. split; [|done].
        apply list_elem_of_filter. split; [by eapply HP|done].
      - intros (u & Hu%list_elem_of_filter & Hs). exists u. tauto. }
    destruct (decide (Exists (same_kind v) before)),
             (decide (Exists (same_kind v) (filter P before))); try tauto;
      rewrite ?filter_cons, ?filter_nil; try rewrite decide_True by done;
      done.
  - rewrite app_nil_r.
    destruct (decide (Exists (same_kind v) before)); [done|].
    by rewrite filter_cons, decide_False, filter_nil by done.
Qed.

Lemma filter_all_in {A : Type} (P : A -> Prop) `{!forall x, Decision (P x)}
    (l : list A) :
  (forall x, x ∈ l -> P x) -> filter P l = l.
Proof.
  induction l as [|x l IH]; intros Hall; [done|].
  rewrite filter_cons, decide_True by (apply Hall; left).
  rewrite IH; [done|]. intros y Hy. apply Hall. by right.
Qed.

Lemma filter_none_in {A : Type} (P : A -> Prop) `{!forall x, Decision (P x)}
    (l : list A) :
  (forall x, x ∈ l -> ~ P x) -> filter P l = [].
Proof.
  induction l as [|x l IH]; intros Hall; [done|].
  rewrite filter_cons, decide_False by (apply Hall; left).
  apply IH. intros y Hy. apply Hall. by right.
Qed.

Lemma raw_matches_general (text document_type : string) :
  filter general_type (raw_matches text document_type)
  = table_matches text violation_patterns.
Proof.
  rewrite raw_matches_tables, !filter_app.
  rewrite (filter_all_in general_type (table_matches text violation_patterns)).
  2:{ intros v Hv. by apply table_matches_type in Hv. }
  rewrite (filter_none_in general_type
             (if cps_selected text document_type
              then table_matches text cps_violations else [])).
  2:{ intros v Hv Hg. destruct (cps_selected _ _); [|by apply elem_of_nil in Hv].
      apply table_matches_type in Hv.
      destruct (keys_apart (v_type v)) as [Hc _]. by apply Hc in Hv. }
  rewrite (filter_none_in general_type
             (if family_selected text document_type
              then table_matches text family_court_violations else [])).
  2:{ intros v Hv Hg.
      destruct (family_selected _ _); [|by apply elem_of_nil in Hv].
      apply table_matches_type in Hv.
      destruct (keys_apart (v_type v)) as [_ Hf]. apply Hf in Hv. tauto. }
  by rewrite !app_nil_r.
Qed.

Lemma detect_violations_general (text document_type : string) :
  filter general_type (detect_violations text document_type)
  = PySort.sort_desc Z.ltb score_key
      (first_of_kind [] (table_matches text violation_patterns)).
Proof.
  unfold detect_violations. rewrite dedup_first_of_kind.
  rewrite filter_sort_desc, filter_first_of_kind.
  - by rewrite raw_matches_general.
  - intros v w [Ht _]. unfold general_type. by rewrite Ht.
Qed.

(** X3. The hint never changes what is found of the general table: for
    any two hints the violations of the general types are the same
    records in the same order. *)
Theorem general_violations_ignore_the_hint :
  forall text hint1 hint2 : string,
    filter general_type (detect_violations text hint1)
    = filter general_type (detect_violations text hint2).
Proof. intros. by rewrite !detect_violations_general. Qed.

End HintIndependence.

(** ** Counting by severity *)

Section Counting.
Import ViolationDetector.

Lemma count_sev_cons (sev : string) (v : Violation) (vs : list Violation) :
  count_sev sev (v :: vs)
  = (if decide (sev_of v = sev) then 1 else 0) + count_sev sev vs.
Proof.
  unfold count_sev. rewrite filter_cons.
  destruct (decide (sev_of v = sev)); simpl length; lia.
Qed.

Lemma count_sev_app (sev : string) (l1 l2 : list Violation) :
  count_sev sev (l1 ++ l2) = count_sev sev l1 + count_sev sev l2.
Proof. unfold count_sev. rewrite filter_app, length_app. lia. Qed.

Lemma count_sev_total (vs : list Violation) :
  Forall known_severity vs ->
  count_sev "high" vs + count_sev "medium" vs + count_sev "low" vs
  = Z.of_nat (length vs).
Proof.
  induction 1 as [|v vs Hv _ IH]; [done|].
  rewrite !count_sev_cons. simpl length.
  destruct Hv as [Hv|[Hv|Hv]]; rewrite Hv; simpl; lia.
Qed.

Lemma known_severity_key (d : Dict.t Z) (v : Violation) :
  Dict.keys d = ["high"; "medium"; "low"] ->
  known_severity v <-> sev_of v ∈ Dict.keys d.
Proof.
  intros ->. unfold known_severity.
  rewrite !elem_of_cons, elem_of_nil. tauto.
Qed.

Lemma breakdown_loop_cons (d : Dict.t Z) (v : Violation)
    (vs : list Violation) :
  ReportGenerator.breakdown_loop d (v :: vs)
  = match Dict.get d (sev_of v) with
    | Some n =>
        ReportGenerator.breakdown_loop (Dict.set d (sev_of v) (n + 1)) vs
    | None => None
    end.
Proof. reflexivity. Qed.

(** The counting loop of [_get_severity_breakdown]. *)
Lemma breakdown_loop_spec (vs : list Violation) (d : Dict.t Z) :
  Dict.keys d = ["high"; "medium"; "low"] ->
  match ReportGenerator.breakdown_loop d vs with
  | Some d' =>
      Forall known_severity vs
      /\ Dict.keys d' = ["high"; "medium"; "low"]
      /\ forall sev, default 0 (Dict.get d' sev)
                     = default 0 (Dict.get d sev) + count_sev sev vs
  | None => ~ Forall known_severity vs
  end.
Proof.
  revert d. induction vs as [|v vs IH]; intros d Hk.
  { simpl. split; [done|]. split; [done|].
    intros sev. unfold count_sev. simpl. lia. }
  rewrite breakdown_loop_cons.
  destruct (Dict.get d _) as [n|] eqn:Hget.
  - assert (Hin : sev_of v ∈ Dict.keys d).
    { destruct (decide (sev_of v ∈ Dict.keys d)) as [|Hn]; [done|].
      apply dict_get_None in Hn. congruence. }
    specialize (IH (Dict.set d (sev_of v) (n + 1))).
    rewrite dict_keys_set_present in IH by done. specialize (IH Hk).
    destruct (ReportGenerator.breakdown_loop _ vs) as [d'|].
    + destruct IH as (Hall & Hk' & Hcount).
      split; [constructor; [by eapply known_severity_key|done]|].
      split; [done|]. intros sev.
      rewrite Hcount, dict_get_set, count_sev_cons.
      destruct (String.eqb_spec (sev_of v) sev) as [Heq|Hne].
      * rewrite decide_True by done. rewrite <- Heq, Hget. simpl. lia.
      * rewrite decide_False by done. lia.
    + intros Hall. apply Forall_cons in Hall as [_ Hall]. done.
  - apply dict_get_None in Hget.
    intros Hall. apply Forall_cons in Hall as [Hv _].
    by apply (known_severity_key d) in Hv.
Qed.

(** The heatmap loop counts as the loop of the report does. *)
Lemma heatmap_loop_counts (vs : list Violation) (hm : Heatmap) :
  hm_severity_counts <$> heatmap_loop hm vs
  = ReportGenerator.breakdown_loop (hm_severity_counts hm) vs.
Proof.
  revert hm. induction vs as [|v vs IH]; intros hm; simpl; [done|].
  unfold heatmap_step.
  destruct (Dict.get (hm_severity_counts hm) (default "low" (v_severity v)));
    [|done].
  by rewrite IH.
Qed.

Lemma heatmap_loop_score (vs : list Violation) (hm hm' : Heatmap) :
  heatmap_loop hm vs = Some hm' ->
  hm_total_score hm' = hm_total_score hm + score_sum vs
  /\ hm_risk_level hm' = hm_risk_level hm.
Proof.
  revert hm. induction vs as [|v vs IH]; intros hm; simpl.
  { intros [= <-]. unfold score_sum. simpl. split; [lia|done]. }
  destruct (heatmap_step hm v) as [hm1|] eqn:Hstep; [|done].
  intros [Hs Hr]%IH. unfold heatmap_step in Hstep.
  destruct (Dict.get (hm_severity_counts hm) _); [|done].
  injection Hstep as <-. simpl in *.
  split; [|done]. rewrite Hs. unfold score_sum. simpl. lia.
Qed.

(** What one round of the loop does to the entry of a type. *)
Lemma heatmap_step_types (hm hm' : Heatmap) (v : Violation) (t : string) :
  heatmap_step hm v = Some hm' ->
  Dict.get (hm_violation_types hm') t
  = if decide (v_type v = t)
    then Some match Dict.get (hm_violation_types hm) t with
              | Some st => {| ts_count := ts_count st + 1;
                              ts_severity := ts_severity st;
                              ts_description := ts_description st |}
              | None => {| ts_count := 0 + 1;
                           ts_severity := sev_of v;
                           ts_description := default "" (v_description v) |}
              end
    else Dict.get (hm_violation_types hm) t.
Proof.
  unfold heatmap_step.
  destruct (Dict.get (hm_severity_counts hm) _); [|done].
  intros [= <-]. simpl.
  destruct (Dict.get (hm_violation_types hm) (v_type v)) as [st|] eqn:Hget.
  - rewrite Hget, dict_get_set.
    destruct (decide (v_type v = t)) as [<-|Hne].
    + by rewrite String.eqb_refl, Hget.
    + by apply String.eqb_neq in Hne as ->.
  - rewrite dict_get_set, String.eqb_refl, !dict_get_set.
    destruct (decide (v_type v = t)) as [<-|Hne].
    + by rewrite String.eqb_refl, Hget.
    + by apply String.eqb_neq in Hne as ->.
Qed.

Lemma heatmap_loop_types (vs : list Violation) (hm hm' : Heatmap)
    (t : string) :
  heatmap_loop hm vs = Some hm' ->
  Dict.get (hm_violation_types hm') t
  = match Dict.get (hm_violation_types hm) t with
    | Some st =>
        Some {| ts_count :=
                  ts_count st
                  + Z.of_nat (length (filter (fun v => v_type v = t) vs));
                ts_severity := ts_severity st;
                ts_description := ts_description st |}
    | None => type_stat t vs
    end.
Proof.
  revert hm. induction vs as [|v vs IH]; intros hm; simpl.
  { intros [= <-]. unfold type_stat. rewrite filter_nil. simpl.
    destruct (Dict.get _ t) as [[c s d]|]; [|done]. simpl.
    by rewrite Z.add_0_r. }
  destruct (heatmap_step hm v) as [hm1|] eqn:Hstep; [|done].
  intros Hloop. rewrite (IH _ Hloop), (heatmap_step_types _ _ _ t Hstep).
  unfold type_stat. rewrite filter_cons.
  destruct (decide (v_type v = t)) as [Ht|Ht].
  - destruct (Dict.get (hm_violation_types hm) t) as [st|]; simpl;
      do 2 f_equal; lia.
  - by destruct (Dict.get (hm_violation_types hm) t).
Qed.

Lemma three_counts (d : Dict.t Z) :
  Dict.keys d = ["high"; "medium"; "low"] ->
  d = [("high", default 0 (Dict.get d "high"));
       ("medium", default 0 (Dict.get d "medium"));
       ("low", default 0 (Dict.get d "low"))].
Proof.
  destruct d as [|[k1 x] [|[k2 y] [|[k3 z] [|? ?]]]]; try done.
  unfold Dict.keys. simpl. by intros [= -> -> ->].
Qed.

Lemma init_counts (sev : string) :
  default 0 (Dict.get (hm_severity_counts heatmap_init) sev) = 0.
Proof.
  unfold heatmap_init. cbn [hm_severity_counts Dict.get].
  repeat destruct (String.eqb _ sev); reflexivity.
Qed.

(** The state of the heatmap after the loop. *)
Lemma heatmap_loop_init (vs : list Violation) :
  match heatmap_loop heatmap_init vs with
  | Some hm =>
      Forall known_severity vs
      /\ Dict.keys (hm_severity_counts hm) = ["high"; "medium"; "low"]
      /\ (forall sev, count_of hm sev = count_sev sev vs)
      /\ hm_total_score hm = score_sum vs
      /\ hm_risk_level hm = "low"
      /\ forall t, Dict.get (hm_violation_types hm) t = type_stat t vs
  | None => ~ Forall known_severity vs
  end.
Proof.
  pose proof (heatmap_loop_counts vs heatmap_init) as Hc.
  pose proof (breakdown_loop_spec vs (hm_severity_counts heatmap_init)
                eq_refl) as Hb.
  rewrite <- Hc in Hb.
  destruct (heatmap_loop heatmap_init vs) as [hm|] eqn:Hloop;
    cbn [fmap option_fmap option_map] in Hb; [|done].
  destruct Hb as (Hall & Hk & Hcount).
  split; [done|]. split; [done|].
  split.
  { intros sev. unfold count_of. rewrite Hcount, init_counts. lia. }
  destruct (heatmap_loop_score _ _ _ Hloop) as [Hs Hr].
  split; [rewrite Hs; simpl; lia|].
  split; [by rewrite Hr|].
  intros t. by rewrite (heatmap_loop_types _ _ _ t Hloop).
Qed.

(** X4. On violations whose severities are 'high', 'medium' or 'low',
    [generate_violation_heatmap_data] returns the three counts by
    severity, which add up to the number of violations; the sum of the
    severity scores, with 1 for a violation without a score; and for every
    type the number of its violations with the severity and the
    description of the first of them. *)
Theorem heatmap_counts_violations :
  forall vs : list Violation,
    Forall known_severity vs ->
    exists hm,
      generate_violation_heatmap_data vs = Some hm
      /\ hm_severity_counts hm
         = [("high", count_sev "high" vs);
            ("medium", count_sev "medium" vs);
            ("low", count_sev "low" vs)]
      /\ count_sev "high" vs + count_sev "medium" vs + count_sev "low" vs
         = Z.of_nat (length vs)
      /\ hm_total_score hm = score_sum vs
      /\ forall t, Dict.get (hm_violation_types hm) t = type_stat t vs.
Proof.
  intros vs Hall. unfold generate_violation_heatmap_data.
  pose proof (heatmap_loop_init vs) as Hinit.
  destruct (heatmap_loop heatmap_init vs) as [hm|]; [|done].
  destruct Hinit as (_ & Hk & Hcount & Hs & _ & Ht).
  eexists. split; [done|]. cbn [hm_severity_counts hm_total_score
                                hm_violation_types].
  split.
  { rewrite (three_counts _ Hk). unfold count_of in Hcount.
    by rewrite !Hcount. }
  split; [by apply count_sev_total|]. done.
Qed.

(** X4, on three violations of two documents. *)
Lemma heatmap_counts_violations_witness :
  exists hm,
    generate_violation_heatmap_data
      [violation_of "a" "high"; violation_of "b" "low";
       violation_of "a" "high"] = Some hm
    /\ hm_severity_counts hm = [("high", 2); ("medium", 0); ("low", 1)].
Proof.
  destruct (heatmap_counts_violations
              [violation_of "a" "high"; violation_of "b" "low";
               violation_of "a" "high"]) as (hm & Hgen & Hc & _).
  - apply (bool_decide_unpack _). vm_compute. exact I.
  - exists hm. split; [exact Hgen|]. rewrite Hc. reflexivity.
Defined.

(** X5. [generate_violation_heatmap_data] fails with a [KeyError] exactly
    when some violation has a severity that is not 'high', 'medium' or
    'low'. *)
Theorem heatmap_fails_on_unknown_severity :
  forall vs : list Violation,
    generate_violation_heatmap_data vs = None
    <-> Exists (fun v => ~ known_severity v) vs.
Proof.
  intros vs. unfold generate_violation_heatmap_data.
  pose proof (heatmap_loop_init vs) as Hinit.
  destruct (heatmap_loop heatmap_init vs) as [hm|].
  - destruct Hinit as (Hall & _). split; [done|].
    intros Hex. by apply (Exists_not_Forall known_severity) in Hex.
  - split; [|done]. intros _.
    by apply (not_Forall_Exists known_severity).
Qed.

(** X6. The severity breakdown of the report is the table of counts of
    the heatmap, and one fails when the other does. *)
Theorem breakdown_is_heatmap_counts :
  forall vs : list Violation,
    ReportGenerator._get_severity_breakdown vs
    = hm_severity_counts <$> generate_violation_heatmap_data vs.
Proof.
  intros vs.
  unfold ReportGenerator._get_severity_breakdown,
    generate_violation_heatmap_data.
  change [("high", 0); ("medium", 0); ("low", 0)]
    with (hm_severity_counts heatmap_init).
  rewrite <- heatmap_loop_counts.
  by destruct (heatmap_loop heatmap_init vs).
Qed.

Lemma count_sev_explicit (sev : string) (vs : list Violation) :
  sev <> "low" ->
  count_sev sev vs
  = Z.of_nat (length (filter (fun v => v_severity v = Some sev) vs)).
Proof.
  intros Hsev. induction vs as [|v vs IH]; [done|].
  rewrite count_sev_cons, filter_cons, IH.
  unfold sev_of.
  destruct (v_severity v) as [s|]; simpl.
  - destruct (decide (s = sev)) as [->|Hne].
    + rewrite decide_True by done. simpl length. lia.
    + rewrite decide_False by congruence. lia.
  - rewrite decide_False by congruence.
    destruct (decide ("low" = sev)); [congruence|lia].
Qed.

(** X7. Where the heatmap is defined, its risk level is the risk level of
    the report in lower case. *)
Theorem heatmap_risk_is_report_risk :
  forall (vs : list Violation) (hm : Heatmap),
    generate_violation_heatmap_data vs = Some hm ->
    hm_risk_level hm = Str.lower (ReportGenerator._calculate_risk_level vs).
Proof.
  intros vs hm. unfold generate_violation_heatmap_data.
  pose proof (heatmap_loop_init vs) as Hinit.
  destruct (heatmap_loop heatmap_init vs) as [hm0|]; [|done].
  destruct Hinit as (_ & _ & Hcount & _ & Hrisk & _).
  intros [= <-]. cbn [hm_risk_level].
  unfold risk_of. rewrite !Hcount, Hrisk.
  rewrite !count_sev_explicit by done.
  unfold ReportGenerator._calculate_risk_level.
  destruct vs as [|v vs]; [done|].
  set (high := length (filter (fun v => v_severity v = Some "high") (v :: vs))).
  set (medium :=
         length (filter (fun v => v_severity v = Some "medium") (v :: vs))).
  destruct (Z.leb_spec 3 (Z.of_nat high)), (Nat.leb_spec 3 high);
    try lia; [done|].
  destruct (Z.leb_spec 1 (Z.of_nat high)), (Nat.leb_spec 1 high);
    try lia; [done|]. cbn [orb].
  destruct (Z.leb_spec 5 (Z.of_nat medium)), (Nat.leb_spec 5 medium);
    try lia; [done|].
  destruct (Z.leb_spec 2 (Z.of_nat medium)), (Nat.leb_spec 2 medium);
    try lia; done.
Qed.

(** X7, on one violation of high severity. *)
Lemma heatmap_risk_is_report_risk_witness :
  exists hm,
    generate_violation_heatmap_data [violation_of "a" "high"] = Some hm
    /\ hm_risk_level hm = "high".
Proof.
  eexists. split; [reflexivity|].
  apply (heatmap_risk_is_report_risk [violation_of "a" "high"]).
  reflexivity.
Defined.

End Counting.

(** ** The indicators of the analyzer *)

Section Indicators.
Import LegalDocumentAnalyzer.

Lemma dot_run_le (n : nat) (s : string) : (dot_run n s <= n)%nat.
Proof.
  revert s. induction n as [|n IH]; intros [|c s]; simpl; try lia.
  destruct (is_dot c); [|lia]. specialize (IH s). lia.
Qed.

Lemma context_match_upto_eq (k : nat) (indicator s : string) :
  context_match_upto k indicator s
  = if startswith_ci indicator (Str.drop k s)
    then Some (k + String.length indicator
               + dot_run 100 (Str.drop (k + String.length indicator) s))%nat
    else match k with
         | S k' => context_match_upto k' indicator s
         | O => None
         end.
Proof. by destruct k. Qed.

Lemma context_match_upto_bound (k : nat) (indicator s : string) (n : nat) :
  context_match_upto k indicator s = Some n ->
  (n <= k + String.length indicator + 100)%nat.
Proof.
  induction k as [|k IH]; rewrite context_match_upto_eq;
    (destruct (startswith_ci indicator _);
     [match goal with
      | |- context [dot_run ?m ?x] =>
          pose proof (dot_run_le m x); generalize dependent (dot_run m x)
      end; intros r Hr [= <-]; lia|]).
  - done.
  - intros Hk%IH. lia.
Qed.

Lemma context_match_bound (indicator s : string) (n : nat) :
  context_match indicator s = Some n ->
  (n <= 200 + String.length indicator)%nat.
Proof.
  unfold context_match. intros Hn%context_match_upto_bound.
  pose proof (dot_run_le 100 s). lia.
Qed.

Lemma findall_context_bound (indicator s : string) (skip : nat) :
  Forall (fun m => (String.length m <= 200 + String.length indicator)%nat)
         (findall_context indicator s skip).
Proof.
  revert skip. induction s as [|c s IH]; intros skip.
  - cbn [findall_context]. destruct skip; [|done].
    destruct (context_match indicator "") as [n|] eqn:Hn; [|done].
    repeat constructor. destruct n; simpl; lia.
  - cbn [findall_context]. destruct skip as [|k]; [|apply IH].
    destruct (context_match indicator (String c s)) as [n|] eqn:Hn;
      [|apply IH].
    constructor; [|apply IH].
    rewrite length_take. apply context_match_bound in Hn. lia.
Qed.

Lemma startswith_ci_exact (p s : string) :
  Str.startswith p s = true -> startswith_ci p s = true.
Proof.
  revert s. induction p as [|a p IH]; intros [|b s]; simpl; try done.
  intros [Hab Hp]%andb_true_iff. apply Ascii.eqb_eq in Hab as ->.
  by rewrite Ascii.eqb_refl, IH.
Qed.

Lemma context_match_upto_found (k : nat) (indicator s : string) :
  startswith_ci indicator s = true ->
  is_Some (context_match_upto k indicator s).
Proof.
  intros Hs. induction k as [|k IH]; rewrite context_match_upto_eq.
  - change (Str.drop 0 s) with s. rewrite Hs. by eexists.
  - destruct (startswith_ci indicator (Str.drop (S k) s)); [by eexists|done].
Qed.

(** Where the indicator occurs, [re.findall] finds a match. *)
Lemma findall_context_found (indicator s : string) :
  Str.contains indicator s = true -> findall_context indicator s 0 <> [].
Proof.
  induction s as [|c s IH].
  - cbn [Str.contains findall_context]. rewrite orb_false_r.
    intros Hs%startswith_ci_exact.
    destruct (context_match_upto_found (dot_run 100 "") indicator "" Hs)
      as [n Hn].
    unfold context_match. by rewrite Hn.
  - cbn [Str.contains findall_context].
    intros [Hs%startswith_ci_exact|Hc]%orb_true_iff.
    + destruct (context_match_upto_found (dot_run 100 (String c s))
                  indicator (String c s) Hs) as [n Hn].
      unfold context_match. by rewrite Hn.
    + destruct (context_match indicator (String c s)); [done|]. by apply IH.
Qed.

Lemma assessed_severity (indicator : string) :
  _assess_violation_severity indicator = "high"
  \/ _assess_violation_severity indicator = "medium"
  \/ _assess_violation_severity indicator = "low".
Proof.
  unfold _assess_violation_severity.
  destruct (existsb _ _); [by left|].
  destruct (existsb _ _); [right; by left|right; by right].
Qed.

Lemma detect_potential_violations_inv (text : string) (v : Violation) :
  v ∈ detect_potential_violations text ->
  exists indicator matched,
    indicator ∈ violation_indicators
    /\ Str.contains indicator (Str.lower text) = true
    /\ matched ∈ findall_context indicator (Str.lower text) 0
    /\ v = potential_violation indicator matched.
Proof.
  unfold detect_potential_violations.
  intros (ind & Hind & Hv)%elem_of_flat_map.
  destruct (Str.contains ind (Str.lower text)) eqn:Hc;
    [|by apply elem_of_nil in Hv].
  apply list_elem_of_fmap in Hv as (m & -> & Hm).
  by exists ind, m.
Qed.

Lemma potential_violations_unscored (text : string) :
  Forall (fun v => known_severity v /\ v_severity_score v = None)
         (detect_potential_violations text).
Proof.
  apply Forall_forall.
  intros v (ind & m & _ & _ & _ & ->)%detect_potential_violations_inv.
  split; [|done]. unfold known_severity, sev_of. simpl.
  apply assessed_severity.
Qed.

(** X8. Every violation that [detect_potential_violations] returns is of
    an indicator that occurs in the text in lower case, has the severity
    that [_assess_violation_severity] gives the indicator, which is
    'high', 'medium' or 'low', has no severity score, and has a context of
    at most 200 characters more than the indicator.  An indicator occurs
    in the text in lower case exactly when some violation is of it. *)
Theorem potential_violations_of_indicators :
  forall text : string,
    Forall (fun v =>
              v_type v ∈ violation_indicators
              /\ Str.contains (v_type v) (Str.lower text) = true
              /\ v_severity v = Some (_assess_violation_severity (v_type v))
              /\ known_severity v
              /\ v_severity_score v = None
              /\ exists context,
                   v_context v = Some context
                   /\ Str.len context <= 200 + Str.len (v_type v))
           (detect_potential_violations text)
    /\ forall indicator,
         indicator ∈ violation_indicators ->
         (Str.contains indicator (Str.lower text) = true
          <-> exists v, v ∈ detect_potential_violations text
                        /\ v_type v = indicator).
Proof.
  intros text. split.
  - apply Forall_forall.
    intros v (ind & m & Hind & Hc & Hm & ->)%detect_potential_violations_inv.
    simpl. repeat split; try done.
    + unfold known_severity, sev_of. simpl. apply assessed_severity.
    + eexists. split; [done|].
      pose proof (findall_context_bound ind (Str.lower text) 0) as Hb.
      rewrite Forall_forall in Hb. specialize (Hb m Hm).
      pose proof (length_strip m). unfold Str.len. lia.
  - intros ind Hind. split.
    + intros Hc.
      pose proof (findall_context_found _ _ Hc) as Hne.
      destruct (findall_context ind (Str.lower text) 0) as [|m ms] eqn:Hf;
        [done|].
      exists (potential_violation ind m). split; [|done].
      unfold detect_potential_violations.
      apply elem_of_flat_map. exists ind. split; [done|].
      rewrite Hc, Hf. left.
    + intros (v & Hv & <-).
      by apply detect_potential_violations_inv
        in Hv as (ind' & m & _ & Hc & _ & ->).
Qed.

End Indicators.

(** ** The violations of one document, as the application counts them *)

Section Pipeline.
Import ViolationDetector.

Lemma score_sum_cons (v : Violation) (vs : list Violation) :
  score_sum (v :: vs) = default 1 (v_severity_score v) + score_sum vs.
Proof. reflexivity. Qed.

Lemma score_sum_app (l1 l2 : list Violation) :
  score_sum (l1 ++ l2) = score_sum l1 + score_sum l2.
Proof.
  induction l1 as [|v l1 IH]; [done|].
  rewrite <- app_comm_cons, !score_sum_cons, IH. lia.
Qed.

Lemma score_sum_unscored (vs : list Violation) :
  Forall (fun v => v_severity_score v = None) vs ->
  score_sum vs = Z.of_nat (length vs).
Proof.
  induction 1 as [|v vs Hv _ IH]; [done|].
  rewrite score_sum_cons, IH, Hv. cbn [default length]. lia.
Qed.

Lemma score_sum_scored (vs : list Violation) :
  Forall (fun v => known_severity v
                   /\ v_severity_score v
                      = Some (_get_severity_score (sev_of v))) vs ->
  score_sum vs
  = 3 * count_sev "high" vs + 2 * count_sev "medium" vs + count_sev "low" vs.
Proof.
  induction 1 as [|v vs [Hk Hv] _ IH].
  { unfold count_sev, score_sum. simpl. lia. }
  rewrite score_sum_cons, IH, Hv, !count_sev_cons. cbn [default]. unfold id.
  destruct Hk as [Hk|[Hk|Hk]]; rewrite Hk.
  - change (_get_severity_score "high") with 3.
    rewrite decide_True, !decide_False by done. lia.
  - change (_get_severity_score "medium") with 2.
    rewrite decide_False, decide_True, decide_False by done. lia.
  - change (_get_severity_score "low") with 1.
    rewrite !decide_False, decide_True by done. lia.
Qed.

Lemma detect_violations_scored (text document_type : string) :
  Forall (fun v => known_severity v
                   /\ v_severity_score v
                      = Some (_get_severity_score (sev_of v)))
         (detect_violations text document_type).
Proof.
  apply Forall_forall. intros v Hv.
  apply detect_violations_from_tables, table_matches_inv in Hv
    as (k & info & p & [a b] & Hkv & _ & _ & ->).
  split; [|done].
  unfold known_severity, sev_of. simpl.
  apply (table_severities (k, info) Hkv).
Qed.

(** X9. On the list that the application builds for a document, the
    violations of the analyzer followed by those of the detector,
    [generate_violation_heatmap_data] does not fail, and its total score
    is 1 for each violation of the analyzer and 3, 2 or 1 for each of the
    detector by severity. *)
Theorem heatmap_of_document_violations :
  forall text document_type : string,
    let potential := LegalDocumentAnalyzer.detect_potential_violations text in
    let advanced := detect_violations text document_type in
    exists hm,
      generate_violation_heatmap_data (potential ++ advanced) = Some hm
      /\ hm_total_score hm
         = Z.of_nat (length potential)
           + 3 * count_sev "high" advanced
           + 2 * count_sev "medium" advanced
           + count_sev "low" advanced.
Proof.
  intros text document_type potential advanced.
  pose proof (heatmap_loop_init (potential ++ advanced)) as Hinit.
  unfold generate_violation_heatmap_data.
  destruct (heatmap_loop heatmap_init (potential ++ advanced)) as [hm|].
  - destruct Hinit as (_ & _ & _ & Hs & _).
    eexists. split; [done|]. cbn [hm_total_score].
    rewrite Hs, score_sum_app.
    rewrite (score_sum_scored advanced)
      by apply detect_violations_scored.
    rewrite (score_sum_unscored potential); [lia|].
    eapply Forall_impl; [apply potential_violations_unscored|].
    simpl. tauto.
  - exfalso. apply Hinit. apply Forall_app. split.
    + eapply Forall_impl; [apply potential_violations_unscored|].
      simpl. tauto.
    + eapply Forall_impl; [apply detect_violations_scored|]. simpl. tauto.
Qed.

End Pipeline.

(** ** The confidence of the classifier *)

Section Confidence.
Import LegalDocumentAnalyzer.

(** The answer when some keyword occurs. *)
Lemma analyze_document_type_positive (text : string) :
  scores_of (Str.lower text) <> [] ->
  exists entry,
    entry ∈ document_types
    /\ dt_type (analyze_document_type text) = entry.1
    /\ 0 < type_score (Str.lower text) entry
    /\ Forall (fun e => type_score (Str.lower text) e
                        <= type_score (Str.lower text) entry) document_types
    /\ (dt_confidence (analyze_document_type text)
        == inject_Z (type_score (Str.lower text) entry)
           / inject_Z (total_type_score (Str.lower text)))%Q
    /\ dt_all_scores (analyze_document_type text)
       = Some (omap (positive_entry (Str.lower text)) document_types).
Proof.
  set (tl := Str.lower text).
  intros Hne. unfold analyze_document_type. fold tl.
  pose proof (positive_entries_wf tl _ document_types_wf) as Hwf.
  pose proof (positive_entries_sum tl document_types) as Hsum.
  pose proof (scores_of_omap tl) as Homap.
  rewrite <- Homap in Hwf, Hsum. rewrite <- Homap.
  destruct (scores_of tl) as [|first rest]; [done|].
  cbv beta iota zeta. cbn [dt_type dt_confidence dt_all_scores].
  destruct (max_key_spec first rest) as [Hin Hmax].
  destruct (max_key first rest) as [k v]. cbn [fst snd] in *.
  pose proof Hin as Hin'. rewrite Homap in Hin'.
  apply list_elem_of_omap in Hin' as (entry & Hentry & Hpe).
  unfold positive_entry in Hpe.
  destruct (Z.ltb_spec 0 (type_score tl entry)) as [Hpos|]; [|done].
  injection Hpe as <- <-.
  exists entry. repeat split; try done.
  - apply Forall_forall. intros e He.
    destruct (Z.ltb_spec 0 (type_score tl e)) as [Hpe|]; [|lia].
    assert (Hine : (e.1, type_score tl e) ∈ first :: rest).
    { rewrite Homap. apply list_elem_of_omap. exists e.
      split; [done|]. unfold positive_entry.
      by destruct (Z.ltb_spec 0 (type_score tl e)); [|lia]. }
    rewrite Forall_forall in Hmax. apply (Hmax _ Hine).
  - rewrite (dict_get_in _ _ _ Hwf Hin). cbn [default].
    by rewrite Hsum.
Qed.

Lemma sum_upper (l : list Z) (m : Z) :
  Forall (fun x => x <= m) l -> sum l <= Z.of_nat (length l) * m.
Proof.
  induction 1 as [|x l Hx _ IH]; [done|].
  rewrite sum_cons. simpl length. lia.
Qed.

Lemma sum_lower (l : list Z) (x : Z) :
  Forall (fun y => 0 <= y) l -> x ∈ l -> x <= sum l.
Proof.
  induction 1 as [|y l Hy Hl IH]; [by intros ?%elem_of_nil|].
  rewrite sum_cons. pose proof (sum_nonneg l Hl).
  intros [->|Hin%IH]%elem_of_cons; lia.
Qed.

(** X10. When [analyze_document_type] does not answer 'unknown', the type
    is one of the eight candidate types, the confidence lies between 1/8
    and 1, and the scores returned are those of the candidate types with
    a keyword in the text, all positive and in the order of the table. *)
Theorem classifier_confidence_bounds :
  forall text : string,
    analyze_document_type text = unknown_type
    \/ (dt_type (analyze_document_type text) ∈ Dict.keys document_types
        /\ (1 # 8 <= dt_confidence (analyze_document_type text))%Q
        /\ (dt_confidence (analyze_document_type text) <= 1)%Q
        /\ exists scores,
             dt_all_scores (analyze_document_type text) = Some scores
             /\ scores = omap (positive_entry (Str.lower text)) document_types
             /\ Forall (fun kv => 0 < kv.2) scores
             /\ Dict.keys scores ⊆ Dict.keys document_types).
Proof.
  intros text.
  destruct (scores_of (Str.lower text)) as [|first rest] eqn:Hsc.
  { left. unfold analyze_document_type. by rewrite Hsc. }
  right.
  destruct (analyze_document_type_positive text)
    as (entry & Hentry & Hty & Hpos & Hmax & Hconf & Hall).
  { by rewrite Hsc. }
  set (tl := Str.lower text) in *.
  assert (Hlow : type_score tl entry <= total_type_score tl).
  { unfold total_type_score. apply sum_lower.
    - apply Forall_forall. intros x (e & -> & _)%list_elem_of_fmap.
      apply type_score_nonneg.
    - apply list_elem_of_fmap. by exists entry. }
  assert (Hup : total_type_score tl <= 8 * type_score tl entry).
  { unfold total_type_score.
    etrans; [apply (sum_upper _ (type_score tl entry))|].
    - apply Forall_forall. intros x Hx.
      change (map (type_score tl) document_types)
        with (type_score tl <$> document_types) in Hx.
      apply list_elem_of_fmap in Hx as (e & -> & He).
      rewrite Forall_forall in Hmax. by apply Hmax.
    - rewrite length_map. change (length document_types) with 8%nat. lia. }
  split.
  { rewrite Hty. unfold Dict.keys. apply list_elem_of_fmap. by exists entry. }
  split.
  { rewrite Hconf. apply Qle_shift_div_l.
    - unfold Qlt. simpl. lia.
    - unfold Qle. simpl. lia. }
  split.
  { rewrite Hconf. apply Qle_shift_div_r.
    - unfold Qlt. simpl. lia.
    - unfold Qle. simpl. lia. }
  eexists. split; [exact Hall|]. split; [done|]. split.
  - apply Forall_forall. intros [k v] (e & _ & Hp)%list_elem_of_omap.
    unfold positive_entry in Hp.
    destruct (Z.ltb_spec 0 (type_score tl e)); [|done].
    by injection Hp as <- <-.
  - intros k Hk. by eapply positive_entries_keys.
Qed.

End Confidence.

(** ** New cases and filed documents *)

Section Filing.
Import CaseManager.
Variable md5_hexdigest : string -> string.

Lemma add_document_heap_frame (h : heap) (c : Case) (pdf_hash : string)
    (da : DocumentAnalysis) (la : LegalAnalysis) (upload_date now : string)
    (l : loc) :
  l <> entities c ->
  (add_document_to_case h c pdf_hash da la upload_date now).1 !! l = h !! l.
Proof.
  intros Hl. unfold add_document_to_case. cbn [fst].
  destruct (la_legal_entities la); [|done].
  by rewrite lookup_alter_ne.
Qed.

(** X11. [create_case_session] gives the case an entities dict of its
    own: six empty sets at a location that no earlier case refers to.
    Every earlier case keeps its entities, also when documents are then
    added to the new case.  The id has at most eight characters. *)
Theorem create_case_session_shares_nothing :
  forall (h : heap) (case_name now_id now_created now_updated : string),
    let created :=
      create_case_session md5_hexdigest h case_name now_id now_created
                          now_updated in
    let h' := created.1 in
    let case_id := created.2.1 in
    let c := created.2.2 in
    h !! entities c = None
    /\ Dict.keys (entities_of h' c)
       = ["judges"; "attorneys"; "caseworkers"; "children"; "case_numbers";
          "courts"]
    /\ Forall (fun kv => kv.2 = ESet ∅) (entities_of h' c)
    /\ (forall c0 : Case,
          is_Some (h !! entities c0) ->
          entities_of h' c0 = entities_of h c0
          /\ forall pdf_hash da la upload_date now',
               entities_of
                 (add_document_to_case h' c pdf_hash da la upload_date now').1
                 c0
               = entities_of h c0)
    /\ CaseManager.case_id c = case_id
    /\ (String.length case_id <= 8)%nat.
Proof.
  intros h case_name now_id now_created now_updated. cbn zeta.
  unfold create_case_session. cbn [fst snd].
  cbn [entities CaseManager.case_id].
  assert (Hfresh : h !! fresh (dom h) = None).
  { apply not_elem_of_dom. apply is_fresh. }
  split; [done|].
  unfold entities_of. cbn [entities]. rewrite lookup_insert_eq. cbn [default].
  split; [done|]. split; [by repeat constructor|].
  split; [|split; [done|rewrite length_take; lia]].
  intros c0 [d Hd].
  assert (Hne : fresh (dom h) <> entities c0) by congruence.
  split.
  - by rewrite lookup_insert_ne.
  - intros pdf_hash da la upload_date now'.
    rewrite add_document_heap_frame by (cbn [entities]; congruence).
    by rewrite lookup_insert_ne.
Qed.

Lemma dict_keys_set_cases {V : Type} (d : Dict.t V) (k : string) (v : V) :
  Dict.keys (Dict.set d k v)
  = if decide (k ∈ Dict.keys d) then Dict.keys d else Dict.keys d ++ [k].
Proof.
  destruct (decide (k ∈ Dict.keys d)) as [Hin|Hin].
  - by apply dict_keys_set_present.
  - rewrite dict_set_fresh by done. unfold Dict.keys.
    by rewrite map_app.
Qed.

Lemma stamp_all_lookup (pdf_hash filename : string)
    (refs : list Shared.vloc) (vs : Shared.vstore) (l : Shared.vloc) :
  Shared.stamp_all pdf_hash filename refs vs !! l
  = if decide (l ∈ refs) then stamp pdf_hash filename <$> vs !! l
    else vs !! l.
Proof.
  unfold Shared.stamp_all. revert vs.
  induction refs as [|r refs IH]; intros vs; simpl; [done|].
  rewrite IH. unfold Shared.stamp_at.
  destruct (decide (l = r)) as [->|Hne].
  - rewrite lookup_alter_eq.
    rewrite (decide_True (P := r ∈ r :: refs)) by left.
    destruct (decide (r ∈ refs)); [|done].
    by destruct (vs !! r).
  - rewrite lookup_alter_ne by done.
    destruct (decide (l ∈ refs)) as [Hin|Hin].
    + by rewrite decide_True by (by right).
    + rewrite decide_False; [done|].
      intros [?|?]%elem_of_cons; done.
Qed.

Lemma read_violations_within (pdf_hash filename : string)
    (refs part : list Shared.vloc) (vs : Shared.vstore) :
  (forall l, l ∈ part -> l ∈ refs) ->
  read_violations (Shared.stamp_all pdf_hash filename refs vs) part
  = map (stamp pdf_hash filename) (read_violations vs part).
Proof.
  unfold read_violations. intros Hsub.
  induction part as [|l part IH]; [done|].
  change (omap ?f (l :: part))
    with (match f l with Some y => y :: omap f part | None => omap f part end).
  cbv beta.
  rewrite stamp_all_lookup, decide_True by (apply Hsub; left).
  rewrite IH by (intros l' Hl'; apply Hsub; by right).
  by destruct (vs !! l).
Qed.

Lemma read_violations_stamped (pdf_hash filename : string)
    (refs : list Shared.vloc) (vs : Shared.vstore) :
  read_violations (Shared.stamp_all pdf_hash filename refs vs) refs
  = map (stamp pdf_hash filename) (read_violations vs refs).
Proof. by apply read_violations_within. Qed.

Lemma read_violations_apart (pdf_hash filename : string)
    (refs others : list Shared.vloc) (vs : Shared.vstore) :
  (forall l, l ∈ others -> l ∉ refs) ->
  read_violations (Shared.stamp_all pdf_hash filename refs vs) others
  = read_violations vs others.
Proof.
  unfold read_violations. intros Hapart.
  induction others as [|l others IH]; [done|].
  change (omap ?f (l :: others))
    with (match f l with Some y => y :: omap f others | None => omap f others
          end).
  cbv beta.
  rewrite stamp_all_lookup, decide_False by (apply Hapart; left).
  rewrite IH; [done|]. intros l' Hl'. apply Hapart. by right.
Qed.

Lemma read_violations_app (vs : Shared.vstore) (l1 l2 : list Shared.vloc) :
  read_violations vs (l1 ++ l2)
  = read_violations vs l1 ++ read_violations vs l2.
Proof. unfold read_violations. apply omap_app. Qed.

Lemma dict_map_set {V W : Type} (f : V -> W) (d : Dict.t V) (k : string)
    (v : V) :
  map (fun kv => (kv.1, f kv.2)) (Dict.set d k v)
  = Dict.set (map (fun kv => (kv.1, f kv.2)) d) k (f v).
Proof.
  induction d as [|[k0 v0] d IH]; simpl; [done|].
  destruct (String.eqb k0 k); simpl; [done|]. by rewrite IH.
Qed.

(** X12. With the violation dicts as objects, [add_document_to_case]
    files the entry with the analysis it was given under the hash, leaves
    the entries of the other hashes in place and keeps the order of the
    documents, a new hash going to the end.  It appends the violation
    dicts of the analysis to the violations of the case and writes the
    hash and the file name (default 'Unknown') into each of them; it
    writes to no other dict.  So a dict of the analysis that the case or
    another document already refers to shows the new hash there as well:
    after one analysis was filed under 'h1' and then under 'h2', the
    entry of 'h1' and both violations of the case show 'h2'.  When the
    analysis shares no dict with the case, the case read as a value is
    what [CaseManager.add_document_to_case] gives for the values.  Of the
    entities the call changes those of the case only. *)
Theorem add_document_files_the_entry :
  (forall (h : heap) (vs : Shared.vstore) (c : Shared.Case)
          (pdf_hash : string) (da : DocumentAnalysis)
          (la : Shared.LegalAnalysis) (upload_date now : string),
     let filename := default "Unknown" (da_filename da) in
     let r :=
       Shared.add_document_to_case h vs c pdf_hash da la upload_date now in
     let h' := r.1.1 in
     let vs' := r.1.2 in
     let c' := r.2 in
     Dict.get (Shared.documents c') pdf_hash
     = Some {| Shared.doc_pdf_hash := pdf_hash;
               Shared.doc_upload_date := upload_date;
               Shared.doc_document_analysis := da;
               Shared.doc_legal_analysis := la;
               Shared.doc_filename := filename |}
     /\ (forall k, k <> pdf_hash ->
                   Dict.get (Shared.documents c') k
                   = Dict.get (Shared.documents c) k)
     /\ Dict.keys (Shared.documents c')
        = (if decide (pdf_hash ∈ Dict.keys (Shared.documents c))
           then Dict.keys (Shared.documents c)
           else Dict.keys (Shared.documents c) ++ [pdf_hash])
     /\ (Dict.wf (Shared.documents c) -> Dict.wf (Shared.documents c'))
     /\ Shared.violations c' = Shared.violations c ++ refs_of_analysis la
     /\ (forall l,
           vs' !! l
           = if decide (l ∈ refs_of_analysis la)
             then stamp pdf_hash filename <$> vs !! l
             else vs !! l)
     /\ Forall (fun v => v_document_hash v = Some pdf_hash
                         /\ v_document_name v = Some filename)
               (read_violations vs' (refs_of_analysis la))
     /\ ((forall l, l ∈ refs_of_analysis la -> l ∉ refs_of_case c) ->
         (h', read_case vs' c')
         = CaseManager.add_document_to_case h (read_case vs c) pdf_hash da
             (read_analysis vs la) upload_date now)
     /\ (forall l, l <> Shared.entities c -> h' !! l = h !! l)
     /\ Shared.entities c' = Shared.entities c
     /\ Shared.last_updated c' = now)
  /\ (let vs2 := filed_twice.1.2 in
      let c2 := filed_twice.2 in
      Dict.keys (Shared.documents c2) = ["h1"; "h2"]
      /\ (fun e =>
            v_document_hash
              <$> read_violations vs2
                    (refs_of_analysis (Shared.doc_legal_analysis e)))
           <$> Dict.get (Shared.documents c2) "h1"
         = Some [Some "h2"]
      /\ v_document_hash <$> read_violations vs2 (Shared.violations c2)
         = [Some "h2"; Some "h2"]
      /\ v_document_name <$> read_violations vs2 (Shared.violations c2)
         = [Some "second.pdf"; Some "second.pdf"]).
Proof.
  split; [|by vm_compute].
  intros h vs c pdf_hash da la upload_date now filename r h' vs' c'.
  subst r h' vs' c'. unfold Shared.add_document_to_case.
  cbn [fst snd Shared.documents Shared.violations Shared.entities
       Shared.last_updated].
  fold filename. fold (refs_of_analysis la).
  split.
  { by rewrite dict_get_set, String.eqb_refl. }
  split.
  { intros k Hk. rewrite dict_get_set.
    destruct (String.eqb_spec pdf_hash k); [congruence|done]. }
  split; [apply dict_keys_set_cases|].
  split; [apply dict_wf_set|].
  split; [done|].
  split; [intros l; apply stamp_all_lookup|].
  split.
  { rewrite read_violations_stamped. apply Forall_forall.
    by intros v (v0 & -> & _)%list_elem_of_fmap. }
  split.
  { intros Hapart. unfold CaseManager.add_document_to_case.
    cbn [la_legal_entities read_analysis la_potential_violations da_filename
         read_case CaseManager.entities CaseManager.documents
         CaseManager.violations CaseManager.case_id CaseManager.case_name
         CaseManager.created_date CaseManager.timeline
         CaseManager.contradictions CaseManager.actor_tracking].
    fold filename. f_equal. unfold read_case.
    cbn [Shared.case_id Shared.case_name Shared.created_date
         Shared.documents Shared.timeline Shared.entities Shared.violations
         Shared.contradictions Shared.actor_tracking Shared.last_updated].
    f_equal.
    - rewrite (dict_map_set
                 (read_entry (Shared.stamp_all pdf_hash filename
                                (refs_of_analysis la) vs))).
      f_equal.
      + apply map_ext_in. intros [k e] Hin%list_elem_of_In. simpl.
        f_equal. unfold read_entry, read_analysis. do 2 f_equal.
        destruct (Shared.la_potential_violations (Shared.doc_legal_analysis e))
          as [refs|] eqn:Hrefs; [|done].
        simpl. f_equal. apply read_violations_apart.
        intros l Hl Hla. apply (Hapart l Hla).
        unfold refs_of_case. apply elem_of_app. right.
        apply elem_of_flat_map. exists (k, e). split; [done|].
        unfold refs_of_analysis. simpl. by rewrite Hrefs.
      + unfold read_entry, read_analysis.
        cbn [Shared.doc_pdf_hash Shared.doc_upload_date
             Shared.doc_document_analysis Shared.doc_legal_analysis
             Shared.doc_filename]. do 2 f_equal.
        unfold refs_of_analysis.
        destruct (Shared.la_potential_violations la) as [refs|]; [|done].
        simpl. f_equal. apply read_violations_stamped.
    - rewrite read_violations_app. f_equal.
      + apply read_violations_apart. intros l Hl Hla.
        apply (Hapart l Hla). unfold refs_of_case. apply elem_of_app.
        by left.
      + rewrite read_violations_stamped. unfold refs_of_analysis.
        by destruct (Shared.la_potential_violations la). }
  split; [|done].
  intros l Hl. destruct (Shared.la_legal_entities la); [|done].
  by rewrite lookup_alter_ne.
Qed.

Lemma add_document_documents (h : heap) (c : Case) (pdf_hash : string)
    (da : DocumentAnalysis) (la : LegalAnalysis) (upload_date now : string) :
  documents (add_document_to_case h c pdf_hash da la upload_date now).2
  = Dict.set (documents c) pdf_hash (filed_entry pdf_hash da la upload_date).
Proof. reflexivity. Qed.

Lemma add_document_violations (h : heap) (c : Case) (pdf_hash : string)
    (da : DocumentAnalysis) (la : LegalAnalysis) (upload_date now : string) :
  violations (add_document_to_case h c pdf_hash da la upload_date now).2
  = violations c ++ filed_violations pdf_hash da la.
Proof.
  unfold add_document_to_case, filed_violations. cbn [snd violations].
  by destruct (la_potential_violations la).
Qed.

(** X13. Adding a document a second time under the same hash keeps one
    entry for it, the newer one, and appends its violations once more:
    the violations of a case are not deduplicated. *)
Theorem readded_document_doubles_its_violations :
  forall (h : heap) (c : Case) (pdf_hash : string) (da : DocumentAnalysis)
         (la : LegalAnalysis) (t1 t2 t3 t4 : string),
    let r1 := add_document_to_case h c pdf_hash da la t1 t2 in
    let r2 := add_document_to_case r1.1 r1.2 pdf_hash da la t3 t4 in
    Dict.keys (documents r2.2) = Dict.keys (documents r1.2)
    /\ Dict.get (documents r2.2) pdf_hash
       = Some (filed_entry pdf_hash da la t3)
    /\ violations r2.2
       = violations c ++ filed_violations pdf_hash da la
         ++ filed_violations pdf_hash da la
    /\ length (violations r2.2)
       = (length (violations c)
          + 2 * length (default [] (la_potential_violations la)))%nat.
Proof.
  intros h c pdf_hash da la t1 t2 t3 t4 r1 r2. subst r1 r2.
  rewrite !add_document_documents, !add_document_violations.
  split.
  { apply dict_keys_set_present. apply dict_keys_set. by left. }
  split.
  { by rewrite dict_get_set, String.eqb_refl. }
  split; [by rewrite <- app_assoc|].
  rewrite !length_app. unfold filed_violations. rewrite length_map. lia.
Qed.

Lemma attributed_set (docs : Dict.t DocEntry) (k : string) (e : DocEntry)
    (vs : list Violation) :
  Forall (fun v => exists h, v_document_hash v = Some h
                             /\ h ∈ Dict.keys docs) vs ->
  Forall (fun v => exists h, v_document_hash v = Some h
                             /\ h ∈ Dict.keys (Dict.set docs k e)) vs.
Proof.
  intros Hall. eapply Forall_impl; [exact Hall|].
  intros v (h & Hh & Hin). exists h. split; [done|].
  apply dict_keys_set. by right.
Qed.

(** X14. Every violation of a case names a document of the case: this
    holds of a new case, and [add_document_to_case] keeps it. *)
Theorem violations_name_documents_of_the_case :
  (forall (h : heap) (case_name now_id now_created now_updated : string),
     attributed
       (create_case_session md5_hexdigest h case_name now_id now_created
                            now_updated).2.2)
  /\ (forall (h : heap) (c : Case) (pdf_hash : string)
             (da : DocumentAnalysis) (la : LegalAnalysis)
             (upload_date now : string),
        attributed c ->
        attributed
          (add_document_to_case h c pdf_hash da la upload_date now).2).
Proof.
  split.
  { intros h case_name now_id now_created now_updated.
    unfold attributed. by constructor. }
  intros h c pdf_hash da la upload_date now Hc. unfold attributed.
  rewrite add_document_documents, add_document_violations.
  apply Forall_app. split.
  - by apply attributed_set.
  - unfold filed_violations. apply Forall_forall.
    intros v (v0 & -> & _)%list_elem_of_fmap.
    exists pdf_hash. split; [done|]. apply dict_keys_set. by left.
Qed.

End Filing.

(** ** The exported case *)

Section ExportedCase.
Import CaseManager ReportGenerator.

Lemma dict_get_map_values {V W : Type} (f : V -> W) (d : Dict.t V)
    (k : string) :
  Dict.get (map (fun '(key, value) => (key, f value)) d) k
  = f <$> Dict.get d k.
Proof.
  induction d as [|[k0 v0] d IH]; simpl; [done|].
  by destruct (String.eqb k0 k).
Qed.

Lemma members_entity_list (v : entval) :
  list_to_set (entity_list v) = members v.
Proof.
  destruct v as [s|l]; simpl; [|done].
  unfold list_of_set. by rewrite list_to_set_elements_L.
Qed.

Lemma total_of_zeros {A : Type} (l : list A) :
  fold_right Z.add 0 (map (fun _ => 0) l) = 0.
Proof. induction l as [|x l IH]; simpl; [done|]. by rewrite IH. Qed.

Lemma total_of_sums {A : Type} (f g : A -> Z) (l : list A) :
  fold_right Z.add 0 (map (fun x => f x + g x) l)
  = fold_right Z.add 0 (map f l) + fold_right Z.add 0 (map g l).
Proof. induction l as [|x l IH]; simpl; [done|]. rewrite IH. lia. Qed.

Lemma total_of_indicator (keys : list string) (h : string) :
  NoDup keys -> h ∈ keys ->
  fold_right Z.add 0 (map (fun k => if decide (Some h = Some k) then 1 else 0)
                          keys) = 1.
Proof.
  induction 1 as [|k keys Hk Hnd IH]; [by intros ?%elem_of_nil|].
  simpl. intros [->|Hin]%elem_of_cons.
  - rewrite decide_True by done.
    assert (Hz : fold_right Z.add 0
                   (map (fun k0 => if decide (Some k = Some k0) then 1 else 0)
                        keys) = 0).
    { clear IH Hnd. induction keys as [|k0 keys IH]; simpl; [done|].
      rewrite decide_False.
      - rewrite IH; [done|]. intros Hin. apply Hk. by right.
      - intros [= ->]. apply Hk. by left. }
    rewrite Hz. lia.
  - rewrite decide_False; [by rewrite IH|].
    intros [= ->]. done.
Qed.

(** Every violation is counted with one document when it names one of
    them and no two of them share a hash. *)
Lemma count_by_document (keys : list string) (vs : list Violation) :
  NoDup keys ->
  Forall (fun v => exists h, v_document_hash v = Some h /\ h ∈ keys) vs ->
  fold_right Z.add 0
    (map (fun k =>
            Z.of_nat (length (filter (fun v => v_document_hash v = Some k) vs)))
         keys)
  = Z.of_nat (length vs).
Proof.
  intros Hnd. induction 1 as [|v vs (h & Hh & Hin) _ IH].
  { simpl. apply total_of_zeros. }
  simpl length. rewrite Nat2Z.inj_succ, <- Z.add_1_l, <- IH.
  rewrite <- (total_of_indicator keys h Hnd Hin).
  rewrite <- total_of_sums. f_equal. apply map_ext. intros k.
  rewrite filter_cons, Hh.
  destruct (decide (Some h = Some k)); simpl length; lia.
Qed.

(** X15. [export_case_data] fails exactly when a violation of the case
    has a severity that is not 'high', 'medium' or 'low'.  Otherwise it
    lists the documents in the order of the case, gives each entity kind
    as a list with the members the kind has, and reports the counts by
    severity; and when the documents have distinct hashes and every
    violation names one of them, the violation counts of the documents
    add up to the total. *)
Theorem export_counts_the_case :
  forall (h : heap) (c : Case) (now : string),
    (export_case_data h c now = None
     <-> Exists (fun v => ~ known_severity v) (violations c))
    /\ forall x,
         export_case_data h c now = Some x ->
         map xd_hash (x_documents x) = Dict.keys (documents c)
         /\ st_total_documents (x_statistics x)
            = Z.of_nat (length (x_documents x))
         /\ st_severity_breakdown (x_statistics x)
            = [("high", count_sev "high" (violations c));
               ("medium", count_sev "medium" (violations c));
               ("low", count_sev "low" (violations c))]
         /\ (forall kind,
               list_to_set <$> Dict.get (x_entities x) kind
               = members <$> Dict.get (entities_of h c) kind)
         /\ (Dict.wf (documents c) -> attributed c ->
             fold_right Z.add 0 (map xd_violation_count (x_documents x))
             = st_total_violations (x_statistics x)).
Proof.
  intros h c now. unfold export_case_data, _get_severity_breakdown.
  pose proof (breakdown_loop_spec (violations c)
                [("high", 0); ("medium", 0); ("low", 0)] eq_refl) as Hb.
  destruct (breakdown_loop _ (violations c)) as [d|].
  - destruct Hb as (Hall & Hk & Hcount). split.
    { split; [done|]. intros Hex.
      by apply (Exists_not_Forall known_severity) in Hex. }
    intros x [= <-].
    cbn [x_documents x_statistics st_total_documents st_severity_breakdown
         st_total_violations x_entities].
    split.
    { rewrite map_map. unfold Dict.keys. apply map_ext. by intros [k e]. }
    split; [by rewrite length_map|].
    split.
    { rewrite (three_counts _ Hk), !Hcount. done. }
    split.
    { intros kind. rewrite dict_get_map_values.
      destruct (Dict.get (entities_of h c) kind) as [v|]; [|done].
      simpl. by rewrite members_entity_list. }
    intros Hwf Hatt. rewrite map_map.
    rewrite <- (count_by_document (Dict.keys (documents c)) (violations c)
                  Hwf Hatt).
    unfold Dict.keys. rewrite map_map. f_equal. apply map_ext.
    by intros [k e].
  - split; [|done]. split; [|done]. intros _.
    by apply (not_Forall_Exists known_severity).
Qed.

End ExportedCase.

(** ** The actors of a case *)

Section Actors.
Import CaseManager.

Lemma actor_score_sum_snoc (vs : list Violation) (v : Violation) :
  actor_score_sum (vs ++ [v]) = actor_score_sum vs + actor_score v.
Proof.
  unfold actor_score_sum. induction vs as [|x vs IH]; simpl; [lia|].
  rewrite IH. lia.
Qed.

Lemma actor_score_range (v : Violation) : 1 <= actor_score v <= 3.
Proof.
  unfold actor_score.
  destruct (String.eqb _ "high"); [lia|].
  destruct (String.eqb _ "medium"); [lia|].
  destruct (String.eqb _ "low"); lia.
Qed.

Lemma actor_score_sum_range (vs : list Violation) :
  Z.of_nat (length vs) <= actor_score_sum vs <= 3 * Z.of_nat (length vs).
Proof.
  unfold actor_score_sum. induction vs as [|v vs IH]; simpl; [lia|].
  pose proof (actor_score_range v). lia.
Qed.

Lemma dict_set_Forall {V : Type} (Q : string * V -> Prop) (d : Dict.t V)
    (k : string) (v : V) :
  Forall Q d -> Q (k, v) -> Forall Q (Dict.set d k v).
Proof.
  intros Hd Hkv. induction Hd as [|[k0 v0] d H0 Hd IH]; simpl.
  { by repeat constructor. }
  destruct (String.eqb_spec k0 k) as [->|Hne]; constructor; done.
Qed.

Lemma track_judges_tracked (docs : Dict.t DocEntry) (vs : list Violation)
    (v : Violation) (h : string) (doc : DocEntry) (all judges : list string)
    (tracking : Dict.t ActorAcc) :
  v ∈ vs -> Dict.get docs h = Some doc ->
  doc_entity doc "judge_names" = Some all ->
  (forall j, j ∈ judges -> j ∈ all) ->
  Dict.wf tracking /\ Forall (tracked docs vs) tracking ->
  Dict.wf (fold_left (track_judge v (doc_filename doc)) judges tracking)
  /\ Forall (tracked docs vs)
            (fold_left (track_judge v (doc_filename doc)) judges tracking).
Proof.
  intros Hv Hdoc Hall. revert tracking.
  induction judges as [|j judges IH]; intros tracking Hsub [Hwf Ht];
    simpl; [done|].
  apply IH.
  { intros j' Hj'. apply Hsub. by right. }
  unfold track_judge. split; [by apply dict_wf_set|].
  apply dict_set_Forall; [done|].
  assert (Hj : exists h doc judges,
             Dict.get docs h = Some doc
             /\ doc_entity doc "judge_names" = Some judges /\ j ∈ judges).
  { exists h, doc, all. split; [done|]. split; [done|]. apply Hsub. by left. }
  destruct (Dict.get tracking j) as [a|] eqn:Hget; simpl.
  - apply dict_get_Some_in in Hget. rewrite Forall_forall in Ht.
    destruct (Ht _ Hget) as (Hty & Hne & Hin & Hsc & _). simpl in *.
    unfold tracked. simpl. split; [done|]. split.
    { by destruct (acc_violations a). }
    split.
    { apply Forall_app. split; [done|]. by repeat constructor. }
    split; [|done]. rewrite actor_score_sum_snoc. lia.
  - unfold tracked. simpl. split; [done|]. split; [done|]. split.
    { by repeat constructor. }
    split; [|done]. unfold actor_score_sum. simpl. lia.
Qed.

Lemma track_violations_tracked (docs : Dict.t DocEntry)
    (all vs : list Violation) (tracking : Dict.t ActorAcc) :
  (forall v, v ∈ vs -> v ∈ all) ->
  Dict.wf tracking /\ Forall (tracked docs all) tracking ->
  Dict.wf (fold_left (track_violation docs) vs tracking)
  /\ Forall (tracked docs all) (fold_left (track_violation docs) vs tracking).
Proof.
  revert tracking. induction vs as [|v vs IH]; intros tracking Hsub Ht;
    simpl; [done|].
  apply IH.
  { intros v' Hv'. apply Hsub. by right. }
  unfold track_violation.
  destruct (Dict.get docs (default "" (v_document_hash v))) as [doc|] eqn:Hdoc;
    [|done].
  destruct (doc_entity doc "judge_names") as [judges|] eqn:Hj; [|done].
  simpl. eapply track_judges_tracked; try done.
  apply Hsub. by left.
Qed.

(** X16. Every actor that [track_repeat_actors] returns is a judge whom
    a document of the case names, has at least one violation, all of them
    violations of the case, and has as score the sum of 3, 2 or 1 for
    each of them by severity, so a score between the number of its
    violations and three times that number.  No two actors share a
    name, and the result is stored in the case. *)
Theorem tracked_actors_are_scored_judges :
  forall case_data : Case,
    let out := (track_repeat_actors case_data).2 in
    Dict.wf out
    /\ Forall (fun kv =>
                 act_type kv.2 = "judge"
                 /\ act_violations kv.2 <> []
                 /\ Forall (fun v => v ∈ violations case_data)
                           (act_violations kv.2)
                 /\ act_severity_score kv.2
                    = actor_score_sum (act_violations kv.2)
                 /\ Z.of_nat (length (act_violations kv.2))
                    <= act_severity_score kv.2
                    <= 3 * Z.of_nat (length (act_violations kv.2))
                 /\ NoDup (act_documents kv.2)
                 /\ exists h doc judges,
                      Dict.get (documents case_data) h = Some doc
                      /\ doc_entity doc "judge_names" = Some judges
                      /\ kv.1 ∈ judges)
              out
    /\ actor_tracking (track_repeat_actors case_data).1 = out.
Proof.
  intros case_data out. subst out. unfold track_repeat_actors. cbn [fst snd].
  destruct (track_violations_tracked (documents case_data)
              (violations case_data) (violations case_data) [])
    as [Hwf Ht].
  { done. }
  { split; [apply NoDup_nil_2 | constructor]. }
  set (tracking := fold_left _ _ _) in *.
  split.
  { unfold Dict.wf, Dict.keys in *. rewrite map_map.
    erewrite map_ext; [exact Hwf|]. by intros [k a]. }
  split; [|done].
  apply Forall_forall. intros [k a'] Hin.
  change (map (fun '(k, a) => (k, finish_actor a)) tracking)
    with ((fun '(k, a) => (k, finish_actor a)) <$> tracking) in Hin.
  apply list_elem_of_fmap in Hin as ([k0 a] & [= -> ->] & Hin).
  rewrite Forall_forall in Ht.
  destruct (Ht _ Hin) as (Hty & Hne & Hvs & Hsc & Hj). simpl in *.
  repeat split; try done.
  - rewrite Hsc. apply actor_score_sum_range.
  - rewrite Hsc. apply actor_score_sum_range.
  - apply NoDup_elements.
Qed.

End Actors.

(** ** The directory of saved cases *)

Section Directory.
Import CaseManager.
Variable str_of_set : gset string -> string.

Lemma append_cancel_r (a b t : string) : a +:+ t = b +:+ t -> a = b.
Proof.
  revert b. induction a as [|x a IH]; intros [|y b];
    rewrite ?append_nil, ?append_cons; try done.
  - intros H. apply (f_equal String.length) in H.
    simpl in H. rewrite length_append in H. lia.
  - intros H. apply (f_equal String.length) in H.
    simpl in H. rewrite length_append in H. lia.
  - intros [= -> H]. f_equal. by apply IH.
Qed.

Lemma case_file_inj (a b : string) : case_file a = case_file b -> a = b.
Proof. apply append_cancel_r. Qed.

Lemma drop_append (a b : string) : Str.drop (String.length a) (a +:+ b) = b.
Proof. induction a as [|c a IH]; [by destruct b|]. by rewrite append_cons. Qed.

Lemma case_file_json (case_id : string) :
  endswith (case_file case_id) ".json" = true.
Proof.
  unfold endswith, case_file. rewrite length_append.
  replace (String.length case_id + String.length ".json"
           - String.length ".json")%nat
    with (String.length case_id) by lia.
  rewrite drop_append, String.eqb_refl. cbn [andb].
  apply Nat.leb_le. lia.
Qed.

Lemma set_to_list_idemp (d : Dict.t entval) :
  map (fun '(key, value) => (key, set_to_list value))
      (map (fun '(key, value) => (key, set_to_list value)) d)
  = map (fun '(key, value) => (key, set_to_list value)) d.
Proof.
  rewrite map_map. apply map_ext. intros [k v]. by destruct v.
Qed.

Lemma save_heap_idemp (h : heap) (c : Case) :
  (_prepare_for_serialization (_prepare_for_serialization h c).1 c).1
  = (_prepare_for_serialization h c).1.
Proof.
  unfold _prepare_for_serialization. cbn [fst].
  apply map_eq. intros l.
  destruct (decide (l = entities c)) as [->|Hne].
  - rewrite !lookup_alter_eq. destruct (h !! entities c) as [d|]; [|done].
    simpl. f_equal. apply set_to_list_idemp.
  - by rewrite !lookup_alter_ne.
Qed.

(** X17. For an id of lower-case hexadecimal digits, as
    [create_case_session] makes them, [save_case_session] writes the
    file of the id and no other: loading any other such id gives what it
    gave before, and the directory has the file of the id beside the
    files it had.  In memory the call changes the entities of the saved
    case and no other object.  Saving the same case again under the same
    id changes neither the memory nor the directory. *)
Theorem save_writes_one_file :
  forall (h : heap) (fs : files) (case_id : string) (case_data : Case),
    hex_id case_id = true ->
    let saved := save_case_session str_of_set h fs case_id case_data in
    (forall other : string,
       hex_id other = true ->
       other <> case_id ->
       load_case_session saved.2 other = load_case_session fs other)
    /\ dom saved.2 = {[ case_file case_id ]} ∪ dom fs
    /\ (forall l, l <> entities case_data -> saved.1 !! l = h !! l)
    /\ save_case_session str_of_set saved.1 saved.2 case_id case_data = saved.
Proof.
  intros h fs case_id case_data _ saved. subst saved.
  unfold save_case_session, dict_copy.
  split.
  { intros other _ Hne. unfold load_case_session.
    cbn [_prepare_for_serialization snd].
    rewrite lookup_insert_ne; [done|].
    intros Heq%case_file_inj. done. }
  split.
  { cbn [_prepare_for_serialization snd]. by rewrite dom_insert_L. }
  split.
  { intros l Hl. cbn [_prepare_for_serialization fst].
    by rewrite lookup_alter_ne. }
  pose proof (save_heap_idemp h case_data) as Hh.
  unfold _prepare_for_serialization in *. cbn [fst snd] in *.
  by rewrite Hh, insert_insert_eq.
Qed.

Lemma string_ltb_asym (a b : string) :
  String.ltb a b = true -> String.ltb b a = false.
Proof.
  unfold String.ltb. rewrite (String.compare_antisym b a).
  by destruct (String.compare a b).
Qed.

Lemma string_ltb_neg_trans (a b c : string) :
  String.ltb b a = false -> String.ltb c b = false -> String.ltb c a = false.
Proof.
  unfold String.ltb. revert b c.
  induction a as [|x a IH]; intros [|y b] [|z c]; simpl; try done.
  unfold Ascii.compare.
  destruct (N.compare_spec (N_of_ascii y) (N_of_ascii x)),
    (N.compare_spec (N_of_ascii z) (N_of_ascii y)),
    (N.compare_spec (N_of_ascii z) (N_of_ascii x));
    try lia; try done.
  apply IH.
Qed.

Lemma length_omap_le {A B : Type} (f : A -> option B) (l : list A) :
  (length (omap f l) <= length l)%nat.
Proof.
  induction l as [|x l IH]; [done|].
  change (omap f (x :: l))
    with (match f x with Some y => y :: omap f l | None => omap f l end).
  destruct (f x); simpl length; lia.
Qed.

Lemma glob_json_elem (fs : directory) (name : string) (file : content) :
  (name, file) ∈ glob_json fs
  <-> fs !! name = Some file /\ endswith name ".json" = true.
Proof.
  unfold glob_json. rewrite list_elem_of_In, filter_In, <- list_elem_of_In.
  by rewrite elem_of_map_to_list.
Qed.

Lemma read_summary_written (data : SavedCase) :
  read_summary (written data) = Some (summary_of data).
Proof. done. Qed.

Lemma list_case_sessions_perm (fs : directory) :
  list_case_sessions fs
  ≡ₚ omap (fun kv => read_summary kv.2) (glob_json fs).
Proof. apply sort_perm. Qed.

Lemma list_case_sessions_elem (fs : directory) (summary : CaseSummary) :
  summary ∈ list_case_sessions fs
  <-> exists name file,
        fs !! name = Some file /\ endswith name ".json" = true
        /\ read_summary file = Some summary.
Proof.
  rewrite list_case_sessions_perm, list_elem_of_omap. split.
  - intros ([name file] & Hin%glob_json_elem & Hread).
    exists name, file. tauto.
  - intros (name & file & Hfile & Hname & Hread).
    exists (name, file). split; [|done]. by apply glob_json_elem.
Qed.

(** X18. In a directory whose files hold strings under the keys of the
    id, the name and the two times, where they have these keys,
    [list_case_sessions] returns one entry for each file whose name ends
    in '.json' and for which the body of the [try] does not raise, and
    no other entry; the entries are in descending order of their
    'last_updated' strings.  The body raises
    for a file that cannot be read, for an object without 'case_id',
    'case_name' or 'created_date', and for documents without a length,
    and for no other file; an object without 'last_updated' is listed
    with its creation time, one without 'documents' with the count 0.
    A case that has just been saved under an id of hexadecimal digits is
    listed with its name, its times and the number of its documents,
    whatever other files the directory holds. *)
Theorem listed_sessions_newest_first :
  (forall fs : directory,
     list_case_sessions fs
     ≡ₚ omap (fun kv => read_summary kv.2) (glob_json fs)
     /\ (forall summary : CaseSummary,
           summary ∈ list_case_sessions fs
           <-> exists name file,
                 fs !! name = Some file /\ endswith name ".json" = true
                 /\ read_summary file = Some summary)
     /\ StronglySorted
          (fun a b =>
             String.ltb (cs_last_updated a) (cs_last_updated b) = false)
          (list_case_sessions fs)
     /\ (length (list_case_sessions fs) <= size fs)%nat)
  /\ read_summary Unreadable = None
  /\ (forall data : JsonFields,
        read_summary (Object data) = None
        <-> jf_case_id data = None \/ jf_case_name data = None
            \/ jf_created_date data = None
            \/ jf_documents data = Some Unsized)
  /\ (forall data : SavedCase,
        read_summary (written data) = Some (summary_of data))
  /\ list_case_sessions mixed_directory
     = [ {| cs_case_id := "0000000d";
            cs_case_name := "Roe";
            cs_created_date := "2024-02-01T09:00:00";
            cs_last_updated := "2024-02-01T09:00:00";
            cs_document_count := 0 |};
         {| cs_case_id := "0000000a";
            cs_case_name := "Doe";
            cs_created_date := "2024-01-01T09:00:00";
            cs_last_updated := "2024-01-02T09:00:00";
            cs_document_count := 2 |} ]
  /\ forall (others : directory) (h : heap) (fs : files)
            (case_id : string) (case_data : Case),
       hex_id case_id = true ->
       {| cs_case_id := CaseManager.case_id case_data;
          cs_case_name := case_name case_data;
          cs_created_date := created_date case_data;
          cs_last_updated := last_updated case_data;
          cs_document_count :=
            Z.of_nat (length (documents case_data)) |}
       ∈ list_case_sessions
           (directory_of
              (save_case_session str_of_set h fs case_id case_data).2
              others).
Proof.
  split.
  { intros fs.
    split; [apply list_case_sessions_perm|].
    split; [apply list_case_sessions_elem|]. split.
    { apply Sorted_StronglySorted.
      - intros a b c Hab Hbc. by eapply string_ltb_neg_trans.
      - unfold list_case_sessions, PySort.sort_desc.
        apply sort_sorted. intros x y. apply string_ltb_asym. }
    rewrite list_case_sessions_perm.
    etrans; [apply length_omap_le|]. unfold glob_json.
    rewrite <- length_map_to_list.
    induction (map_to_list fs) as [|kv l IH]; simpl; [done|].
    destruct (endswith kv.1 ".json"); simpl; lia. }
  split; [done|]. split.
  { intros [i n c u d]. unfold read_summary, document_count.
    cbn [jf_case_id jf_case_name jf_created_date jf_last_updated
         jf_documents].
    destruct i, n, c, d as [[?|]|]; simpl; intuition congruence. }
  split; [apply read_summary_written|].
  split; [by vm_compute|].
  intros others h fs case_id case_data _.
  apply list_case_sessions_elem.
  exists (case_file case_id),
    (written (json_dump str_of_set
                (save_case_session str_of_set h fs case_id case_data).1
                case_data)).
  split; [|split; [apply case_file_json|done]].
  unfold directory_of. apply lookup_union_Some_l.
  rewrite lookup_fmap. unfold save_case_session, dict_copy.
  cbn [_prepare_for_serialization fst snd]. by rewrite lookup_insert_eq.
Qed.

End Directory.

Lemma save_writes_one_file_witness :
  let saved :=
    CaseManager.save_case_session (fun _ => "") heap_with_entities ∅
      "c0ffee00" (case_with three_documents []) in
  hex_id "c0ffee00" = true
  /\ (forall other : string,
        hex_id other = true ->
        other <> "c0ffee00" ->
        CaseManager.load_case_session saved.2 other
        = CaseManager.load_case_session ∅ other)
  /\ dom saved.2 = {[ CaseManager.case_file "c0ffee00" ]} ∪ dom (∅ : CaseManager.files).
Proof.
  split; [reflexivity|].
  pose proof (save_writes_one_file (fun _ => "") heap_with_entities ∅
                "c0ffee00" (case_with three_documents []) eq_refl) as (H1 & H2 & _).
  split; [exact H1|exact H2].
Defined.

(** ** Day numbers along a generated timeline *)

Section DayNumbers.
Import CaseManager.

Ltac month_cases m :=
  let H := fresh in
  assert (H : m = 1 \/ m = 2 \/ m = 3 \/ m = 4 \/ m = 5 \/ m = 6 \/ m = 7
              \/ m = 8 \/ m = 9 \/ m = 10 \/ m = 11 \/ m = 12) by lia;
  repeat (destruct H as [H|H]; [subst m|]); [..|subst m].

Lemma days_in_year (y m d : Z) :
  Datetime.valid_date y m d = true ->
  0 <= Datetime.days_before_month y m
  /\ Datetime.days_before_month y m + d
     <= 365 + (if Datetime.is_leap y then 1 else 0).
Proof.
  unfold Datetime.valid_date. intros Hv.
  repeat (apply andb_true_iff in Hv as [Hv ?]).
  assert (1 <= m <= 12) by lia.
  month_cases m;
    unfold Datetime.days_before_month, Datetime.days_in_month in *;
    simpl in *; destruct (Datetime.is_leap y); lia.
Qed.

Lemma days_before_later_month (y m1 d1 m2 : Z) :
  Datetime.valid_date y m1 d1 = true -> m1 < m2 -> m2 <= 12 ->
  Datetime.days_before_month y m1 + d1 <= Datetime.days_before_month y m2.
Proof.
  unfold Datetime.valid_date. intros Hv Hlt Hle.
  repeat (apply andb_true_iff in Hv as [Hv ?]).
  assert (1 <= m1 <= 12) by lia.
  month_cases m1; month_cases m2; try lia;
    unfold Datetime.days_before_month, Datetime.days_in_month in *;
    simpl in *; destruct (Datetime.is_leap y); lia.
Qed.

Lemma days_before_next_year (y : Z) :
  1 <= y ->
  Datetime.days_before_year (y + 1)
  = Datetime.days_before_year y + 365
    + (if Datetime.is_leap y then 1 else 0).
Proof.
  intros Hy. unfold Datetime.days_before_year, Datetime.is_leap.
  replace (y + 1 - 1) with y by lia.
  destruct (Z.eqb_spec (y mod 4) 0), (Z.eqb_spec (y mod 100) 0),
    (Z.eqb_spec (y mod 400) 0); simpl;
    Z.div_mod_to_equations; lia.
Qed.

Lemma days_before_year_mono (y1 y2 : Z) :
  y1 <= y2 -> Datetime.days_before_year y1 <= Datetime.days_before_year y2.
Proof.
  intros Hy. unfold Datetime.days_before_year.
  Z.div_mod_to_equations. lia.
Qed.

(** The day number follows the order of the dates. *)
Lemma toordinal_mono (y1 m1 d1 y2 m2 d2 : Z) :
  Datetime.valid_date y1 m1 d1 = true ->
  Datetime.valid_date y2 m2 d2 = true ->
  date_le (Datetime.of_date y1 m1 d1) (Datetime.of_date y2 m2 d2) ->
  Datetime.toordinal (Datetime.of_date y1 m1 d1)
  <= Datetime.toordinal (Datetime.of_date y2 m2 d2).
Proof.
  intros Hv1 Hv2 Hle.
  pose proof (days_in_year _ _ _ Hv1) as [Hm1 Hd1].
  pose proof (days_in_year _ _ _ Hv2) as [Hm2 Hd2].
  assert (Hr1 : 1 <= y1 /\ 1 <= d1 /\ 1 <= m1 <= 12).
  { unfold Datetime.valid_date in Hv1.
    repeat (apply andb_true_iff in Hv1 as [Hv1 ?]). lia. }
  assert (Hr2 : 1 <= y2 /\ 1 <= d2 /\ 1 <= m2 <= 12).
  { unfold Datetime.valid_date in Hv2.
    repeat (apply andb_true_iff in Hv2 as [Hv2 ?]). lia. }
  unfold date_le, Datetime.ltb, Datetime.of_date, Datetime.fields in Hle.
  cbn [Datetime.year Datetime.month Datetime.day Datetime.hour
       Datetime.minute Datetime.second Datetime.microsecond
       Datetime.lex_ltb] in Hle.
  unfold Datetime.toordinal, Datetime.of_date.
  cbn [Datetime.year Datetime.month Datetime.day].
  destruct (Z.ltb_spec y2 y1) as [|Hy]; [done|].
  destruct (Z.eqb_spec y2 y1) as [->|Hyne].
  - destruct (Z.ltb_spec m2 m1) as [|Hm]; [done|].
    destruct (Z.eqb_spec m2 m1) as [->|Hmne].
    + destruct (Z.ltb_spec d2 d1) as [|Hd]; [done|]. lia.
    + pose proof (days_before_later_month y1 m1 d1 m2 Hv1). lia.
  - pose proof (days_before_next_year y1).
    pose proof (days_before_year_mono (y1 + 1) y2). lia.
Qed.

Lemma adjacent_sorted {A : Type} (R : A -> A -> Prop) (l : list A) :
  StronglySorted R l -> Forall (fun p => R p.1 p.2) (adjacent_pairs l).
Proof.
  unfold adjacent_pairs. induction 1 as [|x l Hs IH Hx]; [constructor|].
  destruct l as [|y l]; [constructor|]. simpl.
  constructor; [|exact IH]. simpl. by apply Forall_cons in Hx as [? _].
Qed.

Lemma generate_timeline_sorted (case_data : Case) :
  StronglySorted (fun a b => date_le (date_key a) (date_key b))
                 (generate_timeline case_data).2.
Proof.
  unfold generate_timeline, PySort.sort_asc. cbn [snd].
  apply Sorted_StronglySorted.
  { intros a b c. apply date_le_trans. }
  apply sort_sorted. intros x y. unfold Datetime.ltb. apply lex_ltb_asym.
Qed.

Lemma generate_timeline_ordinals (case_data : Case) :
  StronglySorted (fun a b => ordinal_of a <= ordinal_of b)
                 (generate_timeline case_data).2.
Proof.
  pose proof (generate_timeline_sorted case_data) as Hs.
  assert (Hd : Forall (fun e => exists y m dd,
                         ev_date e = Some (Datetime.of_date y m dd)
                         /\ Datetime.valid_date y m dd = true)
                      (generate_timeline case_data).2).
  { apply Forall_forall. intros e. apply generate_timeline_dates. }
  induction Hs as [|e l Hs IH Hhd]; [constructor|].
  apply Forall_cons in Hd as [(y & m & dd & He & Hv) Hd].
  constructor; [by apply IH|].
  rewrite Forall_forall in Hhd, Hd. apply Forall_forall. intros e' Hin.
  destruct (Hd _ Hin) as (y' & m' & dd' & He' & Hv').
  specialize (Hhd _ Hin). unfold ordinal_of, date_key in *.
  rewrite He, He' in *. simpl in *. by apply toordinal_mono.
Qed.

(** X19. In the timeline that [generate_timeline] returns the day
    numbers of the dates never decrease: the delta of every consecutive
    pair of events is a number of days that is not negative, so
    [analyze_timeline_violations], which returns for these events,
    measures every delay of the case forwards. *)
Theorem generated_timeline_runs_forwards :
  forall case_data : Case,
    let events := (generate_timeline case_data).2 in
    StronglySorted (fun a b => ordinal_of a <= ordinal_of b) events
    /\ Forall (fun pair =>
                 exists delta, gap_days pair = Some delta
                               /\ delta = ordinal_of pair.2 - ordinal_of pair.1
                               /\ 0 <= delta)
              (adjacent_pairs events)
    /\ exists found,
         ViolationDetector.analyze_timeline_violations (Generated <$> events)
         = Some found
         /\ Forall (fun tv => 180 < tv_time_difference tv) found.
Proof.
  intros case_data events. subst events.
  pose proof (generate_timeline_ordinals case_data) as Hs.
  assert (Hpairs : Forall (fun pair =>
                 exists delta, gap_days pair = Some delta
                               /\ delta = ordinal_of pair.2 - ordinal_of pair.1
                               /\ 0 <= delta)
              (adjacent_pairs (generate_timeline case_data).2)).
  { pose proof (adjacent_sorted _ _ Hs) as Hadj.
    rewrite Forall_forall in Hadj. apply Forall_forall. intros pair Hin.
    destruct (generated_timeline_gap_days case_data pair Hin)
      as (prev & cur & Hp & Hc & Hgap).
    specialize (Hadj _ Hin). unfold ordinal_of, date_key in *.
    rewrite Hp, Hc in *. simpl in *.
    eexists. split; [exact Hgap|]. split; [done|lia]. }
  split; [done|]. split; [done|].
  destruct (analyze_generated_timeline (generate_timeline case_data).2)
    as (found & Hfound & _ & Hall).
  exists found. split; [done|].
  eapply Forall_impl; [exact Hall|]. simpl. tauto.
Qed.

End DayNumbers.

(** ** Searching the violations of a case *)

Section Search.
Import GlobalSearch.

Lemma count_loop_breakdown (vs : list Violation) (d : Dict.t Z) :
  count_loop d vs = ReportGenerator.breakdown_loop d vs.
Proof.
  revert d. induction vs as [|v vs IH]; intros d; simpl; [done|].
  destruct (Dict.get d _); [apply IH|done].
Qed.

Lemma group_step_get (d : Dict.t DocGroup) (v : Violation) (k : string) :
  Dict.get (group_step d v) k
  = if decide (filed_under v = k)
    then Some match Dict.get d k with
              | Some g => {| dg_document_name := dg_document_name g;
                             dg_violations := dg_violations g ++ [v] |}
              | None => {| dg_document_name :=
                             default "Unknown" (v_document_name v);
                           dg_violations := [v] |}
              end
    else Dict.get d k.
Proof.
  unfold group_step. fold (filed_under v).
  destruct (Dict.get d (filed_under v)) as [g|] eqn:Hget.
  - rewrite Hget, dict_get_set.
    destruct (decide (filed_under v = k)) as [<-|Hne].
    + by rewrite String.eqb_refl, Hget.
    + by apply String.eqb_neq in Hne as ->.
  - rewrite dict_get_set, String.eqb_refl, !dict_get_set.
    destruct (decide (filed_under v = k)) as [<-|Hne].
    + by rewrite String.eqb_refl, Hget.
    + by apply String.eqb_neq in Hne as ->.
Qed.

Lemma group_step_wf (d : Dict.t DocGroup) (v : Violation) :
  Dict.wf d -> Dict.wf (group_step d v).
Proof.
  intros Hwf. unfold group_step.
  destruct (Dict.get d _); [|rewrite dict_get_set, String.eqb_refl];
    repeat apply dict_wf_set; try done.
  destruct (Dict.get d _); [by apply dict_wf_set|done].
Qed.

Lemma group_loop_get (vs : list Violation) (d : Dict.t DocGroup)
    (k : string) :
  Dict.get (fold_left group_step vs d) k
  = match Dict.get d k with
    | Some g =>
        Some {| dg_document_name := dg_document_name g;
                dg_violations :=
                  dg_violations g ++ filter (fun v => filed_under v = k) vs |}
    | None => group_of k vs
    end.
Proof.
  revert d. induction vs as [|v vs IH]; intros d; simpl.
  { unfold group_of. rewrite filter_nil.
    destruct (Dict.get d k) as [[n l]|]; [|done]. simpl.
    by rewrite app_nil_r. }
  rewrite IH, group_step_get. unfold group_of. rewrite filter_cons.
  destruct (decide (filed_under v = k)) as [Hk|Hk]; [|done].
  destruct (Dict.get d k) as [g|]; simpl; [|done].
  by rewrite <- app_assoc.
Qed.

Lemma group_loop_wf (vs : list Violation) (d : Dict.t DocGroup) :
  Dict.wf d -> Dict.wf (fold_left group_step vs d).
Proof.
  revert d. induction vs as [|v vs IH]; intros d Hwf; simpl; [done|].
  by apply IH, group_step_wf.
Qed.

(** The number of violations in the groups. *)
Lemma dict_set_total {V : Type} (f : V -> Z) (d : Dict.t V) (k : string)
    (v : V) :
  fold_right Z.add 0 (map (fun kv => f kv.2) (Dict.set d k v))
  = fold_right Z.add 0 (map (fun kv => f kv.2) d)
    + f v - from_option f 0 (Dict.get d k).
Proof.
  induction d as [|[k0 v0] d IH]; simpl; [lia|].
  destruct (String.eqb k0 k); simpl; [lia|]. rewrite IH. lia.
Qed.

Lemma group_step_total (d : Dict.t DocGroup) (v : Violation) :
  fold_right Z.add 0
    (map (fun kv => Z.of_nat (length (dg_violations kv.2))) (group_step d v))
  = fold_right Z.add 0
      (map (fun kv => Z.of_nat (length (dg_violations kv.2))) d) + 1.
Proof.
  unfold group_step.
  destruct (Dict.get d _) as [g|] eqn:Hget.
  - rewrite Hget.
    rewrite (dict_set_total (fun g => Z.of_nat (length (dg_violations g)))).
    rewrite Hget. simpl. rewrite length_app. simpl. lia.
  - rewrite dict_get_set, String.eqb_refl.
    rewrite !(dict_set_total (fun g => Z.of_nat (length (dg_violations g)))).
    rewrite dict_get_set, String.eqb_refl, Hget. simpl. lia.
Qed.

Lemma group_loop_total (vs : list Violation) (d : Dict.t DocGroup) :
  fold_right Z.add 0
    (map (fun kv => Z.of_nat (length (dg_violations kv.2)))
         (fold_left group_step vs d))
  = fold_right Z.add 0
      (map (fun kv => Z.of_nat (length (dg_violations kv.2))) d)
    + Z.of_nat (length vs).
Proof.
  revert d. induction vs as [|v vs IH]; intros d; simpl fold_left.
  { simpl. lia. }
  rewrite IH, group_step_total. simpl length. lia.
Qed.

(** X20. [search_violations] fails exactly when a violation it selected
    has a severity that is not 'high', 'medium' or 'low'.  Otherwise it
    reports the number of the selected violations and their counts by
    severity, as the report does; it files every selected violation
    under the hash of its document, in order, each group under the
    document name of its first violation; and the groups together hold
    as many violations as were selected.  For the type 'all' every
    violation of the case is selected. *)
Theorem search_violations_groups_by_document :
  forall (case_data : CaseManager.Case) (violation_type now : string),
    let selected :=
      filter_violations (CaseManager.violations case_data) violation_type in
    (search_violations case_data violation_type now = None
     <-> Exists (fun v => ~ known_severity v) selected)
    /\ (forall r,
          search_violations case_data violation_type now = Some r ->
          vs_total_violations r = Z.of_nat (length selected)
          /\ vs_severity_breakdown r
             = [("high", count_sev "high" selected);
                ("medium", count_sev "medium" selected);
                ("low", count_sev "low" selected)]
          /\ ReportGenerator._get_severity_breakdown selected
             = Some (vs_severity_breakdown r)
          /\ Dict.wf (vs_violations_by_document r)
          /\ (forall k, Dict.get (vs_violations_by_document r) k
                        = group_of k selected)
          /\ fold_right Z.add 0
               (map (fun kv => Z.of_nat (length (dg_violations kv.2)))
                    (vs_violations_by_document r))
             = vs_total_violations r)
    /\ filter_violations (CaseManager.violations case_data) "all"
       = CaseManager.violations case_data.
Proof.
  intros case_data violation_type now selected.
  split; [|split; [|done]].
  - unfold search_violations. fold selected.
    rewrite count_loop_breakdown.
    pose proof (breakdown_loop_spec selected
                  [("high", 0); ("medium", 0); ("low", 0)] eq_refl) as Hb.
    destruct (ReportGenerator.breakdown_loop _ selected) as [d|].
    + destruct Hb as (Hall & _). split; [done|].
      intros Hex. by apply (Exists_not_Forall known_severity) in Hex.
    + split; [|done]. intros _.
      by apply (not_Forall_Exists known_severity).
  - intros r. unfold search_violations. fold selected.
    rewrite count_loop_breakdown.
    unfold ReportGenerator._get_severity_breakdown.
    pose proof (breakdown_loop_spec selected
                  [("high", 0); ("medium", 0); ("low", 0)] eq_refl) as Hb.
    destruct (ReportGenerator.breakdown_loop _ selected) as [d|]; [|done].
    destruct Hb as (_ & Hk & Hcount). intros [= <-].
    cbn [vs_total_violations vs_severity_breakdown vs_violations_by_document].
    split; [done|]. split.
    { rewrite (three_counts _ Hk), !Hcount. done. }
    split; [done|]. split.
    { apply group_loop_wf. apply NoDup_nil_2. }
    split.
    { intros k. by rewrite group_loop_get. }
    rewrite group_loop_total. simpl. lia.
Qed.

End Search.

(** ** The recommendations of the report *)

Section Recommendations.
Import ReportGenerator.

Lemma filter_nil_Forall {A : Type} (P : A -> Prop)
    `{!forall x, Decision (P x)} (l : list A) :
  filter P l = [] <-> Forall (fun x => ~ P x) l.
Proof.
  induction l as [|x l IH]; [by split|].
  rewrite filter_cons, Forall_cons.
  destruct (decide (P x)); [split; [done|tauto]|].
  rewrite IH. tauto.
Qed.

Lemma List_filter_nil {A : Type} (f : A -> bool) (l : list A) :
  List.filter f l = [] <-> Forall (fun x => f x = false) l.
Proof.
  induction l as [|x l IH]; [by split|].
  simpl. rewrite Forall_cons.
  destruct (f x); [split; [done|intros [? _]; done]|].
  rewrite IH. tauto.
Qed.

Lemma string_neq (a b : string) : String.eqb a b = false -> a <> b.
Proof. apply String.eqb_neq. Qed.

Lemma request_recusal_head (names : list string) :
  exists rest, request_recusal names = String "R" rest.
Proof. unfold request_recusal. rewrite append_cons. by eexists. Qed.

(** No indicator of the analyzer has 'timeline' or 'due_process' in its
    name. *)
Lemma indicators_trigger_nothing :
  forallb (fun t => negb (Str.contains "timeline" (Str.lower t))
                    && negb (Str.contains "due_process" (Str.lower t)))
          LegalDocumentAnalyzer.violation_indicators = true.
Proof. vm_compute. reflexivity. Qed.

(** The list before the last test, part by part. *)
Lemma recommendations_parts (violations : list Violation)
    (actor_tracking : Dict.t CaseManager.Actor) :
  exists (high many repeat late denied : bool) (names : list string),
    let parts :=
      (if high then [consult_attorney; document_violations] else [])
      ++ (if many then [comprehensive_motion] else [])
      ++ (if repeat then [request_recusal names] else [])
      ++ (if late then [timeline_motion] else [])
      ++ (if denied then [civil_rights_action] else []) in
    _generate_recommendations violations actor_tracking
    = match parts with
      | [] => [continue_monitoring; maintain_records]
      | _ => parts
      end
    /\ (high = false
        <-> Forall (fun v => v_severity v <> Some "high") violations)
    /\ many = (10 <? length violations)%nat
    /\ (repeat = false
        <-> Forall (fun kv => (5 <? CaseManager.act_severity_score kv.2)
                              = false) actor_tracking)
    /\ (late = false
        <-> Forall (fun v => Str.contains "timeline" (Str.lower (v_type v))
                             = false) violations)
    /\ (denied = false
        <-> Forall (fun v => Str.contains "due_process" (Str.lower (v_type v))
                             = false) violations).
Proof.
  unfold _generate_recommendations.
  pose proof (filter_nil_Forall (fun v => v_severity v = Some "high")
                violations) as Hhigh.
  pose proof (List_filter_nil
                (fun kv : string * CaseManager.Actor =>
                   5 <? CaseManager.act_severity_score kv.2)
                actor_tracking) as Hrep.
  pose proof (List_filter_nil
                (fun v => Str.contains "timeline" (Str.lower (v_type v)))
                violations) as Hlate.
  pose proof (List_filter_nil
                (fun v => Str.contains "due_process" (Str.lower (v_type v)))
                violations) as Hden.
  exists (match filter (fun v => v_severity v = Some "high") violations with
          | [] => false | _ => true end),
         (10 <? length violations)%nat,
         (match List.filter
                  (fun kv : string * CaseManager.Actor =>
                     5 <? CaseManager.act_severity_score kv.2)
                  actor_tracking with
          | [] => false | _ => true end),
         (match List.filter
                  (fun v => Str.contains "timeline" (Str.lower (v_type v)))
                  violations with
          | [] => false | _ => true end),
         (match List.filter
                  (fun v => Str.contains "due_process" (Str.lower (v_type v)))
                  violations with
          | [] => false | _ => true end),
         (take 3 (map fst
                    (List.filter
                       (fun kv : string * CaseManager.Actor =>
                          5 <? CaseManager.act_severity_score kv.2)
                       actor_tracking))).
  cbv zeta.
  split.
  { destruct (filter _ violations) as [|? ?];
      destruct (10 <? length violations)%nat;
      (destruct actor_tracking as [|kv0 actors]; [simpl List.filter|]);
      try destruct (List.filter _ (kv0 :: actors)) as [|? ?];
      destruct (List.filter (fun v => Str.contains "timeline" _) violations)
        as [|? ?];
      destruct (List.filter (fun v => Str.contains "due_process" _) violations)
        as [|? ?];
      reflexivity. }
  split.
  { rewrite <- Hhigh. by destruct (filter _ violations). }
  split; [done|]. split.
  { rewrite <- Hrep. by destruct (List.filter _ actor_tracking). }
  split.
  { rewrite <- Hlate.
    by destruct (List.filter
                   (fun v => Str.contains "timeline" (Str.lower (v_type v)))
                   violations). }
  rewrite <- Hden.
  by destruct (List.filter
                 (fun v => Str.contains "due_process" (Str.lower (v_type v)))
                 violations).
Qed.

(** X21. [_generate_recommendations] never returns an empty list, and
    never more than six entries.  It returns the two entries on
    monitoring and record keeping exactly when nothing calls for another:
    no violation of high severity, at most ten violations, no actor with
    a score above 5, and no violation with 'timeline' or 'due_process' in
    its type.  For violations of the analyzer's indicators, which are the
    violations that a case collects, it recommends neither the motion on
    timelines nor the civil rights action. *)
Theorem recommendations_are_never_empty :
  forall (violations : list Violation)
         (actor_tracking : Dict.t CaseManager.Actor),
    let out := _generate_recommendations violations actor_tracking in
    out <> []
    /\ (length out <= 6)%nat
    /\ (out = [continue_monitoring; maintain_records]
        <-> Forall (fun v => v_severity v <> Some "high") violations
            /\ (length violations <= 10)%nat
            /\ Forall (fun kv => CaseManager.act_severity_score kv.2 <= 5)
                      actor_tracking
            /\ Forall (fun v => Str.contains "timeline" (Str.lower (v_type v))
                                = false) violations
            /\ Forall (fun v =>
                         Str.contains "due_process" (Str.lower (v_type v))
                         = false) violations)
    /\ (Forall (fun v => v_type v ∈ LegalDocumentAnalyzer.violation_indicators)
               violations ->
        (timeline_motion ∉ out) /\ (civil_rights_action ∉ out)).
Proof.
  intros violations actor_tracking out. subst out.
  destruct (recommendations_parts violations actor_tracking)
    as (high & many & rep & late & denied & names & Heq & Hhigh & Hmany
        & Hrep & Hlate & Hden).
  cbv zeta in Heq. rewrite Heq. clear Heq.
  destruct (request_recusal_head names) as [rest Hr].
  split.
  { destruct high, many, rep, late, denied; done. }
  split.
  { destruct high, many, rep, late, denied; simpl; lia. }
  split.
  { rewrite <- Hhigh, <- Hlate, <- Hden.
    assert (Hrep' : rep = false
              <-> Forall (fun kv => CaseManager.act_severity_score kv.2 <= 5)
                         actor_tracking).
    { rewrite Hrep. apply Forall_iff. intros kv.
      destruct (Z.ltb_spec 5 (CaseManager.act_severity_score kv.2));
        split; (done || lia). }
    rewrite <- Hrep'.
    assert (Hmany' : many = false <-> (length violations <= 10)%nat).
    { rewrite Hmany.
      destruct (Nat.ltb_spec 10 (length violations)); split; (done || lia). }
    rewrite <- Hmany'.
    split.
    - destruct high, many, rep, late, denied; simpl; try done;
        rewrite ?Hr; intros [= H]; revert H;
        try (apply string_neq; vm_compute; reflexivity).
    - by intros (-> & -> & -> & -> & ->). }
  intros Hind.
  assert (Hno : late = false /\ denied = false).
  { rewrite Hlate, Hden.
    pose proof indicators_trigger_nothing as Hall.
    rewrite forallb_forall in Hall.
    split; apply Forall_forall; intros v Hv;
      rewrite Forall_forall in Hind; specialize (Hind v Hv);
      apply list_elem_of_In, Hall in Hind;
      apply andb_true_iff in Hind as [H1 H2];
      by apply negb_true_iff in H1, H2. }
  destruct Hno as [-> ->].
  assert (Ht : timeline_motion <> consult_attorney
               /\ timeline_motion <> document_violations
               /\ timeline_motion <> comprehensive_motion
               /\ timeline_motion <> continue_monitoring
               /\ timeline_motion <> maintain_records
               /\ timeline_motion <> String "R" rest).
  { repeat split; apply string_neq; vm_compute; reflexivity. }
  assert (Hc : civil_rights_action <> consult_attorney
               /\ civil_rights_action <> document_violations
               /\ civil_rights_action <> comprehensive_motion
               /\ civil_rights_action <> continue_monitoring
               /\ civil_rights_action <> maintain_records
               /\ civil_rights_action <> String "R" rest).
  { repeat split; apply string_neq; vm_compute; reflexivity. }
  rewrite Hr.
  destruct high, many, rep; simpl;
    rewrite ?elem_of_cons, !elem_of_nil; tauto.
Qed.

End Recommendations.

(** ** Where the events of a timeline come from *)

Section Events.
Import CaseManager.

(** X22. Every event of the timeline that [generate_timeline] returns
    comes from a document of the case: it carries the hash, the file
    name and the classified type of the document, the context names the
    file, the date string is one of the date strings of the document,
    and the date is what [_parse_date] makes of it, a day of the calendar
    at midnight.  There are no more events than date strings. *)
Theorem timeline_events_come_from_documents :
  forall case_data : Case,
    let events := (generate_timeline case_data).2 in
    Forall (fun e =>
              exists doc dates d,
                (ev_document_hash e, doc) ∈ documents case_data
                /\ doc_entity doc "dates" = Some dates
                /\ ev_date_str e ∈ dates
                /\ _parse_date (ev_date_str e) = Some d
                /\ ev_date e = Some d
                /\ Datetime.valid d = true
                /\ d = Datetime.of_date (Datetime.year d) (Datetime.month d)
                                        (Datetime.day d)
                /\ ev_document e = doc_filename doc
                /\ ev_document_type e = doc_type_of (doc_legal_analysis doc)
                /\ ev_context e = "Referenced in " +:+ doc_filename doc)
           events
    /\ (length events
        <= length (all_date_strings (documents case_data)))%nat.
Proof.
  intros case_data events. subst events.
  unfold generate_timeline, PySort.sort_asc. cbn [snd]. split.
  - apply Forall_forall. intros e. rewrite sort_perm. unfold collect_events.
    intros ([pdf_hash doc] & Hdoc & He)%elem_of_flat_map.
    destruct (doc_entity doc "dates") as [dates|] eqn:Hdates;
      [|by apply elem_of_nil in He].
    apply elem_of_flat_map in He as (s & Hs & He). unfold event_of in He.
    destruct (_parse_date s) as [d|] eqn:Hd; [|by apply elem_of_nil in He].
    apply list_elem_of_singleton in He as ->. simpl.
    exists doc, dates, d.
    destruct (parse_date_midnight _ _ Hd) as (y & m & dd & -> & Hv).
    repeat split; try done.
    unfold Datetime.valid. simpl. by rewrite Hv.
  - rewrite sort_perm.
    rewrite <- (length_fmap (fun e => (ev_date_str e, ev_date e))).
    rewrite collect_events_dates. apply length_omap_le.
Qed.

End Events.

(** ** Merging into a case that has been saved *)

Section MergeAfterSave.
Import CaseManager.
Variable str_of_set : gset string -> string.

Lemma add_document_entities (h : heap) (c : Case) (pdf_hash : string)
    (da : DocumentAnalysis) (la : LegalAnalysis) (upload_date now : string)
    (doc_entities : Dict.t (list string)) :
  la_legal_entities la = Some doc_entities ->
  entities_of (add_document_to_case h c pdf_hash da la upload_date now).1 c
  = merge_entities doc_entities (entities_of h c).
Proof.
  intros Hla. unfold add_document_to_case. cbn [fst]. rewrite Hla.
  apply entities_of_alter; [done|]. apply merge_entities_nil.
Qed.

Lemma members_set_to_list (v : entval) : members (set_to_list v) = members v.
Proof.
  destruct v as [s|l]; simpl; [|done].
  unfold list_of_set. by rewrite list_to_set_elements_L.
Qed.

(** X23. A document merged into a case after the case was saved gives
    every entity kind the members that it gives without the save.  The
    kinds that the document has are sets again afterwards; the other
    kinds of the case stay the lists that saving made of them. *)
Theorem merge_after_save_keeps_members :
  forall (h : heap) (fs : files) (case_id : string) (c : Case)
         (pdf_hash : string) (da : DocumentAnalysis) (la : LegalAnalysis)
         (upload_date now : string) (doc_entities : Dict.t (list string))
         (kind : string),
    la_legal_entities la = Some doc_entities ->
    Dict.wf doc_entities ->
    let saved := save_case_session str_of_set h fs case_id c in
    let after :=
      add_document_to_case saved.1 c pdf_hash da la upload_date now in
    let direct := add_document_to_case h c pdf_hash da la upload_date now in
    members <$> Dict.get (entities_of after.1 c) kind
    = members <$> Dict.get (entities_of direct.1 c) kind
    /\ is_set <$> Dict.get (entities_of after.1 c) kind
       = (fun _ => bool_decide (kind ∈ Dict.keys doc_entities))
           <$> Dict.get (entities_of h c) kind.
Proof.
  intros h fs case_id c pdf_hash da la upload_date now doc_entities kind
    Hla Hwf saved after direct. subst saved after direct.
  rewrite !(add_document_entities _ _ _ _ _ _ _ _ Hla).
  rewrite entities_after_save, !merge_entities_get by done.
  rewrite dict_get_map_values.
  destruct (Dict.get doc_entities kind) as [values|] eqn:Hget.
  - assert (Hin : kind ∈ Dict.keys doc_entities).
    { destruct (decide (kind ∈ Dict.keys doc_entities)) as [|Hn]; [done|].
      apply dict_get_None in Hn. congruence. }
    rewrite (bool_decide_eq_true_2 _ Hin).
    destruct (Dict.get (entities_of h c) kind) as [v|]; simpl; [|done].
    by rewrite members_set_to_list.
  - apply dict_get_None in Hget.
    rewrite (bool_decide_eq_false_2 _ Hget).
    destruct (Dict.get (entities_of h c) kind) as [v|]; simpl; [|done].
    rewrite members_set_to_list. by destruct v.
Qed.

End MergeAfterSave.

(** X23, on a case with a set of judges and a list of case numbers, and
    a document that names a judge. *)
Lemma merge_after_save_keeps_members_witness :
  let la := analysis_with [("judges", ["Brown"])] None in
  let da := {| CaseManager.da_filename := Some "c.pdf" |} in
  let saved :=
    CaseManager.save_case_session (fun _ => "") heap_with_entities ∅
      "c0ffee00" case_with_actors in
  let after :=
    CaseManager.add_document_to_case saved.1 case_with_actors "c.pdf" da la
      "t1" "t2" in
  let direct :=
    CaseManager.add_document_to_case heap_with_entities case_with_actors
      "c.pdf" da la "t1" "t2" in
  CaseManager.members
    <$> Dict.get (CaseManager.entities_of after.1 case_with_actors) "judges"
  = CaseManager.members
      <$> Dict.get (CaseManager.entities_of direct.1 case_with_actors) "judges"
  /\ CaseManager.is_set
       <$> Dict.get (CaseManager.entities_of after.1 case_with_actors) "judges"
     = (fun _ => bool_decide ("judges" ∈ Dict.keys [("judges", ["Brown"])]))
         <$> Dict.get (CaseManager.entities_of heap_with_entities
                         case_with_actors) "judges".
Proof.
  apply (merge_after_save_keeps_members (fun _ => "") heap_with_entities ∅
           "c0ffee00" case_with_actors "c.pdf"
           {| CaseManager.da_filename := Some "c.pdf" |}
           (analysis_with [("judges", ["Brown"])] None) "t1" "t2"
           [("judges", ["Brown"])] "judges").
  - reflexivity.
  - apply (bool_decide_unpack _). vm_compute. exact I.
Defined.
